(** * The WebGL render system of imodeljs-frontend (render/webgl/System.ts)

    A shallow embedding of [Capabilities], [IdMap] and [System] and the
    properties of them that the specification states.

    Conventions of the embedding:
    - a TypeScript [const enum] is the number it compiles to (a [Z]);
    - a JavaScript object that is compared with [===] is a reference (a [nat]);
      [new] draws the next unused reference from the heap;
    - [undefined] and [null] results are [None];
    - calls into the WebGL driver are appended to a log of [GLCall]s. *)

From Stdlib Require Import ZArith QArith Lia Lqa List.
From Stdlib Require Qcanon.
From stdpp Require Import base option list gmap strings.

Local Open Scope string_scope.
Local Open Scope list_scope.
Local Open Scope Z_scope.

(** ** Enumerations *)

Module RenderType.
Definition TextureUnsignedByte : Z := 0.
Definition TextureHalfFloat : Z := 1.
Definition TextureFloat : Z := 2.
End RenderType.

(** The members that are commented out in the source take no number. *)
Module DepthType.
Definition RenderBufferUnsignedShort16 : Z := 0.
Definition TextureUnsignedInt24Stencil8 : Z := 1.
Definition TextureUnsignedInt32 : Z := 2.
End DepthType.

Definition forceNoDrawBuffers : bool := false.
Definition forceHalfFloat : bool := false.
Definition debugTextureLifetime : bool := false.

(** ** The WebGL context, as far as [Capabilities.init] reads it *)

Inductive GLDataType : Set :=
| FLOAT
| HALF_FLOAT_OES
| UNSIGNED_INT
| UNSIGNED_INT_24_8_WEBGL.

(** The object [gl.getExtension] hands out for an enabled extension. The
    extension map of [Capabilities] is a plain object whose members are read
    under any name and cast to the extension type ([extObj as T]); under a
    name of [Object.prototype] the member read is the inherited one. *)
Inductive ExtensionObject : Set :=
| ExtensionHandle (ext_handle : nat)
| InheritedMember (name : string).

Record WebGLRenderingContext : Type := {
  MAX_TEXTURE_SIZE : Z;
  MAX_TEXTURE_IMAGE_UNITS : Z;
  MAX_VERTEX_TEXTURE_IMAGE_UNITS : Z;
  MAX_VERTEX_ATTRIBS : Z;
  MAX_VERTEX_UNIFORM_VECTORS : Z;
  MAX_VARYING_VECTORS : Z;
  MAX_FRAGMENT_UNIFORM_VECTORS : Z;
  (* constants of WEBGL_draw_buffers, read through the extension object *)
  MAX_COLOR_ATTACHMENTS_WEBGL : Z;
  MAX_DRAW_BUFFERS_WEBGL : Z;
  (* null when the context is lost *)
  getSupportedExtensions : option (list string);
  (* null when the extension cannot be enabled *)
  getExtension : string -> option ExtensionObject;
  (* checkFramebufferStatus(...) === FRAMEBUFFER_COMPLETE for a 1x1 RGBA
     texture of the given data type attached as COLOR_ATTACHMENT0 *)
  framebufferComplete : GLDataType -> bool;
}.

(** ** Capabilities *)

Module Capabilities.

Record t : Type := {
  _maxRenderType : Z;
  _maxDepthType : Z;
  _maxTextureSize : Z;
  _maxColorAttachments : Z;
  _maxDrawBuffers : Z;
  _maxFragTextureUnits : Z;
  _maxVertTextureUnits : Z;
  _maxVertAttribs : Z;
  _maxVertUniformVectors : Z;
  _maxVaryingVectors : Z;
  _maxFragUniformVectors : Z;
  _extensionMap : gmap string ExtensionObject;
}.

(** [new Capabilities()]: the field initialisers. *)
Definition new : t := {|
  _maxRenderType := RenderType.TextureUnsignedByte;
  _maxDepthType := DepthType.RenderBufferUnsignedShort16;
  _maxTextureSize := 0;
  _maxColorAttachments := 0;
  _maxDrawBuffers := 0;
  _maxFragTextureUnits := 0;
  _maxVertTextureUnits := 0;
  _maxVertAttribs := 0;
  _maxVertUniformVectors := 0;
  _maxVaryingVectors := 0;
  _maxFragUniformVectors := 0;
  _extensionMap := ∅;
|}.

Definition maxRenderType (c : t) : Z := _maxRenderType c.
Definition maxDepthType (c : t) : Z := _maxDepthType c.
Definition maxTextureSize (c : t) : Z := _maxTextureSize c.
Definition maxColorAttachments (c : t) : Z := _maxColorAttachments c.
Definition maxFragTextureUnits (c : t) : Z := _maxFragTextureUnits c.
Definition maxVertTextureUnits (c : t) : Z := _maxVertTextureUnits c.

(** The names that every plain object inherits from [Object.prototype]. None
    of these members is null or undefined. *)
Definition Object_prototype : list string :=
  ["constructor"; "hasOwnProperty"; "isPrototypeOf"; "propertyIsEnumerable";
   "toLocaleString"; "toString"; "valueOf"; "__proto__";
   "__defineGetter__"; "__defineSetter__"; "__lookupGetter__"; "__lookupSetter__"].

(** [map[ext]] for the plain object [map]: its own property of that name, or
    else the member it inherits, or else [undefined]. *)
Definition member (map : gmap string ExtensionObject) (ext : string)
    : option ExtensionObject :=
  match map !! ext with
  | Some extObj => Some extObj
  | None =>
      if bool_decide (ext ∈ Object_prototype) then Some (InheritedMember ext) else None
  end.

(** Only non-null objects are ever stored in the map and no inherited member
    is null, so the null test of the source always passes on what is read. *)
Definition queryExtensionObject (c : t) (ext : string) : option ExtensionObject :=
  member (_extensionMap c) ext.

Definition supportsDrawBuffers (c : t) : bool :=
  bool_decide (queryExtensionObject c "WEBGL_draw_buffers" ≠ None).
Definition supportsInstancing (c : t) : bool :=
  bool_decide (queryExtensionObject c "ANGLE_instanced_arrays" ≠ None).
Definition supports32BitElementIndex (c : t) : bool :=
  bool_decide (queryExtensionObject c "OES_element_index_uint" ≠ None).
Definition supportsMRTTransparency (c : t) : bool := 2 <=? maxColorAttachments c.
Definition supportsMRTPickShaders (c : t) : bool := 4 <=? maxColorAttachments c.

(** The test of the [for (const ext of extensions)] loop. *)
Definition isRequestedExtension (ext : string) : bool :=
  (negb forceNoDrawBuffers && String.eqb ext "WEBGL_draw_buffers")
  || String.eqb ext "OES_element_index_uint"
  || (negb forceHalfFloat && String.eqb ext "OES_texture_float")
  || String.eqb ext "OES_texture_half_float"
  || String.eqb ext "WEBGL_depth_texture"
  || String.eqb ext "EXT_color_buffer_float"
  || String.eqb ext "EXT_shader_texture_lod"
  || String.eqb ext "ANGLE_instanced_arrays".

(** One iteration of that loop. *)
Definition enableExtension (gl : WebGLRenderingContext)
    (m : gmap string ExtensionObject) (ext : string) : gmap string ExtensionObject :=
  if isRequestedExtension ext then
    match getExtension gl ext with
    | Some extObj => <[ext := extObj]> m
    | None => m
    end
  else m.

Definition loadExtensions (gl : WebGLRenderingContext)
    (m : gmap string ExtensionObject) : gmap string ExtensionObject :=
  match getSupportedExtensions gl with
  | Some extensions => fold_left (enableExtension gl) extensions m
  | None => m
  end.

Definition isTextureRenderable (gl : WebGLRenderingContext) (texType : GLDataType) : bool :=
  framebufferComplete gl texType.

Definition _hasRequiredFeatures (c : t) : bool := supports32BitElementIndex c.

Definition _hasRequiredTextureUnits (c : t) : bool :=
  (4 <? maxFragTextureUnits c) && (5 <? maxVertTextureUnits c).

(** [init]: the object after the call, and the boolean it returns. *)
Definition init (c : t) (gl : WebGLRenderingContext) : bool * t :=
  let exts := loadExtensions gl (_extensionMap c) in
  let dbExt := member exts "WEBGL_draw_buffers" in
  let hfExt := member exts "OES_texture_half_float" in
  let c' := {|
    _maxTextureSize := MAX_TEXTURE_SIZE gl;
    _maxFragTextureUnits := MAX_TEXTURE_IMAGE_UNITS gl;
    _maxVertTextureUnits := MAX_VERTEX_TEXTURE_IMAGE_UNITS gl;
    _maxVertAttribs := MAX_VERTEX_ATTRIBS gl;
    _maxVertUniformVectors := MAX_VERTEX_UNIFORM_VECTORS gl;
    _maxVaryingVectors := MAX_VARYING_VECTORS gl;
    _maxFragUniformVectors := MAX_FRAGMENT_UNIFORM_VECTORS gl;
    _extensionMap := exts;
    _maxColorAttachments :=
      match dbExt with Some _ => MAX_COLOR_ATTACHMENTS_WEBGL gl | None => 1 end;
    _maxDrawBuffers :=
      match dbExt with Some _ => MAX_DRAW_BUFFERS_WEBGL gl | None => 1 end;
    _maxRenderType :=
      if negb forceHalfFloat && isTextureRenderable gl FLOAT
      then RenderType.TextureFloat
      else match hfExt with
           | Some _ =>
               if isTextureRenderable gl HALF_FLOAT_OES
               then RenderType.TextureHalfFloat
               else RenderType.TextureUnsignedByte
           | None => RenderType.TextureUnsignedByte
           end;
    _maxDepthType :=
      match member exts "WEBGL_depth_texture" with
      | Some _ => DepthType.TextureUnsignedInt24Stencil8
      | None => DepthType.RenderBufferUnsignedShort16
      end;
  |} in
  (_hasRequiredFeatures c' && _hasRequiredTextureUnits c', c').

Definition create (gl : WebGLRenderingContext) : option t :=
  let '(ok, caps) := init new gl in
  if ok then Some caps else None.

(** What it means for a context to provide an extension to the probe: the
    context lists it, and enabling it hands out an object. *)
Definition contextProvides (gl : WebGLRenderingContext) (ext : string) : Prop :=
  (∃ extensions, getSupportedExtensions gl = Some extensions ∧ ext ∈ extensions)
  ∧ getExtension gl ext ≠ None.

Definition maxDrawBuffers (c : t) : Z := _maxDrawBuffers c.
Definition supportsTextureFloat (c : t) : bool :=
  bool_decide (queryExtensionObject c "OES_texture_float" ≠ None).
Definition supportsTextureHalfFloat (c : t) : bool :=
  bool_decide (queryExtensionObject c "OES_texture_half_float" ≠ None).
Definition supportsShaderTextureLOD (c : t) : bool :=
  bool_decide (queryExtensionObject c "EXT_shader_texture_lod" ≠ None).

End Capabilities.

(** ** Errors *)

Inductive JsError : Set :=
| AssertionFailed (msg : string)
| TypeError (msg : string).

Inductive Outcome (A : Type) : Type :=
| Returns (a : A)
| Throws (e : JsError).
Arguments Returns {A} a.
Arguments Throws {A} e.

(** Modelled from the spec: [assert] of bentleyjs-core is not part of the
    sources at hand; a violated assertion is signalled as a fatal error. *)
Definition assert (condition : bool) (msg : string) : Outcome unit :=
  if condition then Returns tt else Throws (AssertionFailed msg).

(** ** The heap and the outside world *)

Definition Ref := nat.

Inductive TextureType : Set := Normal | Glyph | TileSection | SkyBox.

Record ImageBuffer : Set := { img_width : Z; img_height : Z; img_source : Ref }.

(** The factories of [TextureHandle] that [IdMap] calls. *)
Inductive HandleSource : Set :=
| ForImageBuffer (img : ImageBuffer) (type : TextureType)
| ForImage (image : Ref) (hasAlpha : bool) (type : TextureType)
| ForCubeImages (posX negX posY negY posZ negZ : Ref).

Record TextureHandle : Set := { handle_ref : Ref }.

Module RenderTexture.
Record Params : Set := { key : option string; type : TextureType; isOwned : bool }.
End RenderTexture.

Module RenderMaterial.
(** Only [key] is read by [IdMap]; the other members are kept as one value. *)
Record Params : Set := { key : option string; settings : nat }.
End RenderMaterial.

Record Texture : Set := {
  tex_ref : Ref;
  tex_params : RenderTexture.Params;
  tex_handle : TextureHandle;
}.

Record Material : Set := { mat_ref : Ref; mat_params : RenderMaterial.Params }.

Inductive ClipVolumeKind : Set := ClipMaskVolume | ClipPlanesVolume.

Record RenderClipVolume : Set := {
  vol_ref : Ref;
  vol_kind : ClipVolumeKind;
  vol_clip : Ref;
}.

(** A function value. [this.removeIModelMap] reads the one function of the
    prototype; every evaluation of [f.bind(o)] makes a new function object. *)
Inductive JsFunction : Set :=
| Method (className methodName : string)
| BoundFunction (ref : Ref) (target : JsFunction) (thisArg : Ref).

(** What happens outside the objects modelled, in the order it happens. *)
Inductive Event : Set :=
| NewMaterial (m : Material)
| CreateHandle (src : HandleSource) (result : option TextureHandle)
| NewTexture (t : Texture)
| GetImage (symb : Ref) (width height : Z)
| CreateClipVolume (kind : ClipVolumeKind) (clip : Ref) (result : option RenderClipVolume)
| DisposeTexture (t : Texture)
| DisposeClipVolume (v : RenderClipVolume)
| DisposeObject (r : Ref).

(** What the driver and the clip classes answer. The [n]-th request made of
    the outside world is answered by these functions at [n]. *)
Record Driver : Type := {
  handleAvailable : nat -> bool;
  clipMaskAvailable : Ref -> nat -> bool;
  clipPlanesAvailable : Ref -> nat -> bool;
}.

(** Modelled from the spec: [BeEvent] of bentleyjs-core is not part of the
    sources at hand. A subscription established by [addListener] is torn
    down by [removeListener] with the same function and scope. *)
Record EventListener : Set := { listener : JsFunction; scope : option Ref }.

Record World : Type := {
  nextRef : Ref;
  requests : nat;
  trace : list Event;
  IModelConnection_onClose : list EventListener;
}.

Global Instance JsFunction_eq_dec : EqDecision JsFunction.
Proof. solve_decision. Defined.
Global Instance EventListener_eq_dec : EqDecision EventListener.
Proof. solve_decision. Defined.

(** *** State passing over the world *)

Definition M (A : Type) : Type := World -> A * World.

Global Instance M_ret : MRet M := fun A (a : A) w => (a, w).
Global Instance M_bind : MBind M :=
  fun A B (k : A -> M B) (c : M A) w => let '(a, w') := c w in k a w'.
Definition ret {A} (a : A) : M A := mret a.

Definition emit (e : Event) : M unit :=
  fun w => (tt, {| nextRef := nextRef w; requests := requests w;
                   trace := trace w ++ [e];
                   IModelConnection_onClose := IModelConnection_onClose w |}).

(** [new]: the next unused reference. *)
Definition fresh : M Ref :=
  fun w => (nextRef w, {| nextRef := S (nextRef w); requests := requests w;
                          trace := trace w;
                          IModelConnection_onClose := IModelConnection_onClose w |}).

(** The number of the request now made of the outside world. *)
Definition request : M nat :=
  fun w => (requests w, {| nextRef := nextRef w; requests := S (requests w);
                           trace := trace w;
                           IModelConnection_onClose := IModelConnection_onClose w |}).

Fixpoint forEach {A} (l : list A) (f : A -> M unit) : M unit :=
  match l with
  | [] => ret tt
  | a :: l' => f a ;; forEach l' f
  end.

(** [TextureHandle.createForImageBuffer], [createForImage] and
    [createForCubeImages] are not part of the sources at hand: they answer a
    new handle, or [undefined] when the driver has none, as [drv] says. What
    they do to the System on the way (they upload the image through the
    bindings of the System) is left out: the creation of a handle is an event
    of the world, and the embedding says nothing of the texture bindings or
    the driver calls of the System across it. *)
Definition TextureHandle_create (drv : Driver) (src : HandleSource) : M (option TextureHandle) :=
  n ← request ;
  if handleAvailable drv n then
    r ← fresh ;
    let h := {| handle_ref := r |} in
    emit (CreateHandle src (Some h)) ;; ret (Some h)
  else
    emit (CreateHandle src None) ;; ret None.

(** [new Texture(params, handle)] *)
Definition new_Texture (params : RenderTexture.Params) (handle : TextureHandle) : M Texture :=
  r ← fresh ;
  let t := {| tex_ref := r; tex_params := params; tex_handle := handle |} in
  emit (NewTexture t) ;; ret t.

(** [new Material(params)] *)
Definition new_Material (params : RenderMaterial.Params) : M Material :=
  r ← fresh ;
  let m := {| mat_ref := r; mat_params := params |} in
  emit (NewMaterial m) ;; ret m.

(** [ClipMaskVolume.create] and [ClipPlanesVolume.create] are not part of
    the sources at hand: they answer a new volume, or [undefined], as [drv]
    says. *)
Definition ClipVolume_create (drv : Driver) (kind : ClipVolumeKind) (clip : Ref)
    : M (option RenderClipVolume) :=
  n ← request ;
  let available :=
    match kind with
    | ClipMaskVolume => clipMaskAvailable drv clip n
    | ClipPlanesVolume => clipPlanesAvailable drv clip n
    end in
  if available then
    r ← fresh ;
    let v := {| vol_ref := r; vol_kind := kind; vol_clip := clip |} in
    emit (CreateClipVolume kind clip (Some v)) ;; ret (Some v)
  else
    emit (CreateClipVolume kind clip None) ;; ret None.

(** JavaScript truthiness of an optional string: [undefined] and the empty
    string are falsy. *)
Definition truthy (key : option string) : option string :=
  match key with
  | Some k => if String.eqb k "" then None else Some k
  | None => None
  end.

(** ** [Map]: a JavaScript map, which keeps its entries in insertion order *)

Module JsMap.
Section JsMap.
Context {K V : Type} `{EqDecision K}.

Fixpoint get (m : list (K * V)) (k : K) : option V :=
  match m with
  | [] => None
  | (k', v) :: m' => if decide (k' = k) then Some v else get m' k
  end.

Fixpoint set (m : list (K * V)) (k : K) (v : V) : list (K * V) :=
  match m with
  | [] => [(k, v)]
  | (k', v') :: m' =>
      if decide (k' = k) then (k, v) :: m' else (k', v') :: set m' k v
  end.

Fixpoint delete (m : list (K * V)) (k : K) : list (K * V) :=
  match m with
  | [] => []
  | (k', v') :: m' =>
      if decide (k' = k) then m' else (k', v') :: delete m' k
  end.

Definition values (m : list (K * V)) : list V := map snd m.
Definition clear (m : list (K * V)) : list (K * V) := [].

End JsMap.
End JsMap.

(** ** [Dictionary] *)

Module Dictionary.
Section Dictionary.
Context {K V : Type} (compare : K -> K -> Z).

(** Modelled from the spec: [Dictionary] of bentleyjs-core is not part of
    the sources at hand. The dictionary finds a key by the comparison
    function it was made with: an entry is the entry of a key when the two
    compare as equal. *)
Fixpoint get (d : list (K * V)) (k : K) : option V :=
  match d with
  | [] => None
  | (k', v) :: d' => if compare k k' =? 0 then Some v else get d' k
  end.

(** Modelled from the spec: [Dictionary.set]. The value of an entry that
    compares as equal is replaced; a new entry is put in the place that
    keeps the entries ordered by the comparison function. *)
Fixpoint set (d : list (K * V)) (k : K) (v : V) : list (K * V) :=
  match d with
  | [] => [(k, v)]
  | (k', v') :: d' =>
      if compare k k' =? 0 then (k', v) :: d'
      else if compare k k' <? 0 then (k, v) :: (k', v') :: d'
      else (k', v') :: set d' k v
  end.

Definition values (d : list (K * V)) : list V := map snd d.
Definition clear (d : list (K * V)) : list (K * V) := [].

End Dictionary.
End Dictionary.

(** Modelled from the spec: [Gradient.Symb] of imodeljs-common is not part
    of the sources at hand. A gradient symbol is an object holding a
    structured value. Two objects are structurally equal when their values
    are, and reference-distinct when their references differ. *)
Record GradientSymb (SymbValue : Type) : Type := {
  symb_ref : Ref;
  symb_value : SymbValue;
}.
Arguments symb_ref {SymbValue} g.
Arguments symb_value {SymbValue} g.

(** What [IdMap] uses of [Gradient.Symb]: the comparison of two symbols by
    their values. *)
Class SymbOps (SymbValue : Type) : Type := {
  compareValue : SymbValue -> SymbValue -> Z;
}.

Definition compareSymb {SymbValue} `{SymbOps SymbValue}
    (lhs rhs : GradientSymb SymbValue) : Z :=
  compareValue (symb_value lhs) (symb_value rhs).

(** Modelled from the spec: the comparison is by structure, so it answers 0
    on exactly the symbols with equal values. *)
Class SymbStructural (SymbValue : Type) `{SymbOps SymbValue} : Prop :=
  compareValue_structural : forall a b : SymbValue, compareValue a b = 0 <-> a = b.

(** Modelled from the spec: [grad.getImage(width, height)] rasterizes the
    gradient into an image buffer of that width and height. *)
Definition Symb_getImage {SymbValue} (grad : GradientSymb SymbValue) (width height : Z)
    : M ImageBuffer :=
  emit (GetImage (symb_ref grad) width height) ;;
  ret {| img_width := width; img_height := height; img_source := symb_ref grad |}.

(** ** JavaScript numbers

    A finite number is a rational; the other values are what a division by
    zero and the arithmetic on its result give. Arithmetic on finite numbers
    is exact here. *)

Inductive JsNumber : Set :=
| Finite (q : Q)
| PosInfinity
| NegInfinity
| NaN.

Module JsNumber.

(** [x < n] for the length [n] of an array. *)
Definition ltLength (x : JsNumber) (n : nat) : bool :=
  match x with
  | Finite q => negb (Qle_bool (inject_Z (Z.of_nat n)) q)
  | NegInfinity => true
  | PosInfinity | NaN => false
  end.

(** The element that [a[x]] names: [x] is an array index when it is an
    integer that is not negative; under any other number [a[x]] is a
    property of the array object that is none of its elements. *)
Definition arrayIndex (x : JsNumber) : option nat :=
  match x with
  | Finite q =>
      let r := Qred q in
      if (0 <=? Qnum r)%Z && (Qden r =? 1)%positive then Some (Z.to_nat (Qnum r)) else None
  | _ => None
  end.


(** [a * s] for a finite [a]. *)
Definition times (a : Q) (s : JsNumber) : JsNumber :=
  match s with
  | Finite q => Finite (a * q)%Q
  | PosInfinity =>
      if Qeq_bool a 0 then NaN else if Qle_bool 0 a then PosInfinity else NegInfinity
  | NegInfinity =>
      if Qeq_bool a 0 then NaN else if Qle_bool 0 a then NegInfinity else PosInfinity
  | NaN => NaN
  end.


End JsNumber.

(** ** Geometry values *)

Record Point3d : Set := { px : Q; py : Q; pz : Q }.
Record Point2d : Set := { u : JsNumber; v : JsNumber }.
Record Range3d : Set := { low : Point3d; high : Point3d }.

(** A clip shape, as far as this file reads it: its polygon. *)
Record ClipShape : Set := { shape_points : list Point3d }.

(** A [ClipVector] object. [Map<ClipVector, _>] finds it by reference. *)
Record ClipVector : Set := { clip_ref : Ref; clips : list ClipShape }.

(** ** IdMap *)

Module IdMap.

Record t (SymbValue : Type) : Type := {
  materials : list (string * Material);
  textures : list (string * Texture);
  gradients : list (GradientSymb SymbValue * Texture);
  clipVolumes : list (Ref * RenderClipVolume);
}.
Arguments materials {SymbValue} _.
Arguments textures {SymbValue} _.
Arguments gradients {SymbValue} _.
Arguments clipVolumes {SymbValue} _.

Section Methods.
Context {SymbValue : Type} `{SymbOps SymbValue} (drv : Driver).

Local Abbreviation IdMap := (t SymbValue).

(** [new IdMap()] *)
Definition new : IdMap :=
  {| materials := []; textures := []; gradients := []; clipVolumes := [] |}.

(** The disposal of a texture or of a clip volume is an event of the world.
    What it does to the System (a disposed handle is deleted through
    [System.disposeTexture]) is left out, as for the creation of a handle. *)
Definition dispose (this : IdMap) : M IdMap :=
  let textureArr := JsMap.values (textures this) in
  let gradientArr := Dictionary.values (gradients this) in
  let clipVolumeArr := JsMap.values (clipVolumes this) in
  forEach textureArr (fun texture => emit (DisposeTexture texture)) ;;
  forEach gradientArr (fun gradient => emit (DisposeTexture gradient)) ;;
  forEach clipVolumeArr (fun clipVolume => emit (DisposeClipVolume clipVolume)) ;;
  ret {| materials := materials this;
         textures := JsMap.clear (textures this);
         gradients := Dictionary.clear (gradients this);
         clipVolumes := JsMap.clear (clipVolumes this) |}.

Definition addMaterial (material : Material) (this : IdMap) : IdMap :=
  match truthy (RenderMaterial.key (mat_params material)) with
  | Some key =>
      {| materials := JsMap.set (materials this) key material;
         textures := textures this; gradients := gradients this;
         clipVolumes := clipVolumes this |}
  | None => this
  end.

Definition addTexture (texture : Texture) (this : IdMap) : IdMap :=
  match truthy (RenderTexture.key (tex_params texture)) with
  | Some key =>
      {| materials := materials this;
         textures := JsMap.set (textures this) key texture;
         gradients := gradients this; clipVolumes := clipVolumes this |}
  | None => this
  end.

Definition addGradient (gradientSymb : GradientSymb SymbValue) (texture : Texture)
    (this : IdMap) : IdMap :=
  {| materials := materials this; textures := textures this;
     gradients := Dictionary.set compareSymb (gradients this) gradientSymb texture;
     clipVolumes := clipVolumes this |}.

Definition findMaterial (key : string) (this : IdMap) : option Material :=
  JsMap.get (materials this) key.

Definition findGradient (symb : GradientSymb SymbValue) (this : IdMap) : option Texture :=
  Dictionary.get compareSymb (gradients this) symb.

Definition getMaterial (params : RenderMaterial.Params) (this : IdMap)
    : M (Material * IdMap) :=
  match truthy (RenderMaterial.key params) with
  | None => material ← new_Material params; ret (material, this)
  | Some key =>
      match JsMap.get (materials this) key with
      | Some material => ret (material, this)
      | None =>
          material ← new_Material params;
          ret (material,
               {| materials := JsMap.set (materials this) key material;
                  textures := textures this; gradients := gradients this;
                  clipVolumes := clipVolumes this |})
      end
  end.

Definition createTexture (params : RenderTexture.Params) (handle : option TextureHandle)
    (this : IdMap) : M (option Texture * IdMap) :=
  match handle with
  | None => ret (None, this)
  | Some handle =>
      texture ← new_Texture params handle;
      ret (Some texture, addTexture texture this)
  end.

Definition createTextureFromImageBuffer (img : ImageBuffer) (params : RenderTexture.Params)
    (this : IdMap) : M (option Texture * IdMap) :=
  handle ← TextureHandle_create drv (ForImageBuffer img (RenderTexture.type params));
  createTexture params handle this.

Definition createTextureFromImage (image : Ref) (hasAlpha : bool)
    (params : RenderTexture.Params) (this : IdMap) : M (option Texture * IdMap) :=
  handle ← TextureHandle_create drv (ForImage image hasAlpha (RenderTexture.type params));
  createTexture params handle this.

Definition createTextureFromCubeImages (posX negX posY negY posZ negZ : Ref)
    (params : RenderTexture.Params) (this : IdMap) : M (option Texture * IdMap) :=
  handle ← TextureHandle_create drv (ForCubeImages posX negX posY negY posZ negZ);
  createTexture params handle this.

Definition findTexture (key : option string) (this : IdMap) : option Texture :=
  match key with
  | Some key => JsMap.get (textures this) key
  | None => None
  end.

Definition getTexture (img : ImageBuffer) (params : RenderTexture.Params) (this : IdMap)
    : M (option Texture * IdMap) :=
  match findTexture (RenderTexture.key params) this with
  | Some tex => ret (Some tex, this)
  | None => createTextureFromImageBuffer img params this
  end.

Definition getTextureFromImage (image : Ref) (hasAlpha : bool)
    (params : RenderTexture.Params) (this : IdMap) : M (option Texture * IdMap) :=
  match findTexture (RenderTexture.key params) this with
  | Some tex => ret (Some tex, this)
  | None => createTextureFromImage image hasAlpha params this
  end.

Definition getTextureFromCubeImages (posX negX posY negY posZ negZ : Ref)
    (params : RenderTexture.Params) (this : IdMap) : M (option Texture * IdMap) :=
  createTextureFromCubeImages posX negX posY negY posZ negZ params this.

Definition getGradient (grad : GradientSymb SymbValue) (this : IdMap)
    : M (option Texture * IdMap) :=
  match Dictionary.get compareSymb (gradients this) grad with
  | Some existingGrad => ret (Some existingGrad, this)
  | None =>
      image ← Symb_getImage grad 256 256;
      textureHandle ← TextureHandle_create drv (ForImageBuffer image Normal);
      match textureHandle with
      | None => ret (None, this)
      | Some textureHandle =>
          let params :=
            {| RenderTexture.key := None; RenderTexture.type := Normal;
               RenderTexture.isOwned := true |} in
          texture ← new_Texture params textureHandle;
          ret (Some texture, addGradient grad texture this)
      end
  end.

Definition getClipVolume (clipVector : ClipVector) (this : IdMap)
    : M (option RenderClipVolume * IdMap) :=
  match JsMap.get (clipVolumes this) (clip_ref clipVector) with
  | Some existingClipVolume => ret (Some existingClipVolume, this)
  | None =>
      mask ← ClipVolume_create drv ClipMaskVolume (clip_ref clipVector);
      clipVolume ←
        match mask with
        | None => ClipVolume_create drv ClipPlanesVolume (clip_ref clipVector)
        | Some _ => ret mask
        end;
      match clipVolume with
      | Some volume =>
          ret (clipVolume,
               {| materials := materials this; textures := textures this;
                  gradients := gradients this;
                  clipVolumes := JsMap.set (clipVolumes this) (clip_ref clipVector) volume |})
      | None => ret (None, this)
      end
  end.

End Methods.
End IdMap.

(** ** TextureStats *)

Module TextureStats.

(** [_allocated] is a [Set]: it keeps the handles in the order they were
    added, each once. *)
Record t : Set := { _allocated : list TextureHandle; _maxSize : Z }.

Definition new : t := {| _allocated := []; _maxSize := 0 |}.

Global Instance TextureHandle_eq_dec : EqDecision TextureHandle.
Proof. solve_decision. Defined.

Section Methods.
(** [tex.width] and [tex.height]: members of [TextureHandle], which is not
    part of the sources at hand. *)
Variables width height : TextureHandle -> Z.

Definition has (this : t) (tex : TextureHandle) : bool :=
  bool_decide (tex ∈ _allocated this).

Definition onTextureCreated (tex : TextureHandle) (this : t) : Outcome unit * t :=
  match assert (negb (has this tex)) "" with
  | Throws e => (Throws e, this)
  | Returns _ =>
      let size := width tex * height tex in
      (Returns tt,
       {| _allocated := _allocated this ++ [tex];
          _maxSize := Z.max size (_maxSize this) |})
  end.

Definition onTextureDisposed (tex : TextureHandle) (this : t) : Outcome unit * t :=
  match assert (has this tex) "" with
  | Throws e => (Throws e, this)
  | Returns _ =>
      let allocated := List.filter (fun entry => negb (bool_decide (entry = tex)))
                         (_allocated this) in
      let thisSize := width tex * height tex in
      if thisSize <? _maxSize this then
        (Returns tt, {| _allocated := allocated; _maxSize := _maxSize this |})
      else
        (Returns tt,
         {| _allocated := allocated;
            _maxSize :=
              fold_left (fun maxSize entry => Z.max maxSize (width entry * height entry))
                allocated 0 |})
  end.

End Methods.
End TextureStats.

(** ** The driver calls that [System] issues *)

Module GL.

Inductive TextureTarget : Set := TwoDee | CubeMap.
Inductive TextureFormat : Set := DepthComponent | DepthStencil.

Inductive Call : Set :=
| activeTexture (unit : Z)
| bindTexture (target : TextureTarget) (texture : option Ref)
| deleteTexture (texture : Ref)
| enableVertexAttribArray (index : nat)
| disableVertexAttribArray (index : nat)
| vertexAttribDivisorANGLE (index : nat) (divisor : Z).

Global Instance TextureTarget_eq_dec : EqDecision TextureTarget.
Proof. solve_decision. Defined.
Global Instance Call_eq_dec : EqDecision Call.
Proof. solve_decision. Defined.

End GL.

(** [TextureUnit.Zero] is [WebGLRenderingContext.TEXTURE0]. *)
Module TextureUnit.
Definition Zero : Z := 33984.
End TextureUnit.

Module VertexAttribState.
Definition Disabled : Z := 0.
Definition Enabled : Z := Z.shiftl 1 0.
Definition Instanced : Z := Z.shiftl 1 2.
Definition InstancedEnabled : Z := Z.lor Instanced Enabled.
End VertexAttribState.

(** ** JavaScript arrays that may have holes *)

Module JsArray.
Section JsArray.
Context {A : Type}.

(** [a[i]]: a hole and an index past the end both read as [undefined]. *)
Definition get (a : list (option A)) (i : nat) : option A := mjoin (a !! i).

(** [a[i] = x]: an index past the end extends the array with holes. *)
Definition set (a : list (option A)) (i : nat) (x : option A) : list (option A) :=
  if decide (i < length a)%nat then <[i := x]> a
  else a ++ replicate (i - length a) None ++ [x].

End JsArray.
End JsArray.

(** ** BeEvent *)

Module BeEvent.

(** Modelled from the spec: [BeEvent.addListener] subscribes the function,
    after the listeners subscribed before. *)
Definition addListener (l : JsFunction) (scope : option Ref) : M unit :=
  fun w => (tt, {| nextRef := nextRef w; requests := requests w; trace := trace w;
                   IModelConnection_onClose :=
                     IModelConnection_onClose w ++ [{| listener := l; scope := scope |}] |}).

(** Modelled from the spec: [BeEvent.removeListener] takes out the first
    entry that has this very function object and scope, if there is one. *)
Fixpoint removeFirst (entry : EventListener) (listeners : list EventListener)
    : bool * list EventListener :=
  match listeners with
  | [] => (false, [])
  | context :: rest =>
      if decide (context = entry) then (true, rest)
      else let '(found, rest') := removeFirst entry rest in (found, context :: rest')
  end.

(** Modelled from the spec: [BeEvent.removeListener], which answers whether
    it found the listener. *)
Definition removeListener (l : JsFunction) (scope : option Ref) : M bool :=
  fun w =>
    let '(found, listeners) :=
      removeFirst {| listener := l; scope := scope |} (IModelConnection_onClose w) in
    (found, {| nextRef := nextRef w; requests := requests w; trace := trace w;
               IModelConnection_onClose := listeners |}).

End BeEvent.

(** ** What [createSheetTilePolyfaces] uses of geometry-core

    Coordinates are finite JavaScript numbers; the embedding computes with
    rationals, and exactly. The inputs evaluated in this file are small dyadic
    numbers, on which the code computes exactly too. The one division of the
    method is by the width of the tile, which may be zero: its result is a
    [JsNumber]. *)


Definition Point3d_minus (a b : Point3d) : Point3d :=
  {| px := (px a - px b)%Q; py := (py a - py b)%Q; pz := (pz a - pz b)%Q |}.


(** The functions and constants of geometry-core that the method uses and
    that are not part of the sources at hand.
    [faceLoops polygon] stands for the face loops announced by the graph of
    [Triangulator.createTriangulatedGraphFromSingleLoop(polygon)] after
    [flipTriangles]: for each face whether its edge has the EXTERIOR mask, and
    the [x], [y] of the nodes around it.
    [nullRange] is the range that [Range3d] gives to no points.
    [splitsAtFirst points] tells which diagonal the polyface builder cuts a
    quad along when it triangulates: the one from the first point to the
    third, or else the one from the second to the fourth. *)
Record GeometryCore : Type := {
  clipPolygonToClipShape : list Point3d -> ClipShape -> list (list Point3d);
  faceLoops : list Point3d -> list (bool * list (Q * Q));
  nullRange : Range3d;
  splitsAtFirst : list Point3d -> bool;
}.


(** The two options of [StrokeOptions] that the method sets. *)
Record StrokeOptions : Set := { needParams : bool; shouldTriangulate : bool }.

(** A facet of a polyface: its points in order, each with its parameter. *)
Inductive Facet : Set :=
| TriangleFacet (points : list Point3d) (params : list Point2d)
| QuadFacet (points : list Point3d) (params : list Point2d).


(** Modelled from the spec: [PolyfaceBuilder] of geometry-core is not part of
    the sources at hand. It stitches the facets it is given into one
    polyface, which [claimPolyface] hands out; the mesh is triangulated: a
    builder that is asked to triangulate stores a quad as the two triangles
    on either side of a diagonal, and each vertex keeps the parameter that was
    given for it. Without [needParams] the parameters are dropped. *)
Module PolyfaceBuilder.

Record t : Type := { options : StrokeOptions; facets : list Facet }.

Definition create (options : StrokeOptions) : t := {| options := options; facets := [] |}.




End PolyfaceBuilder.

(** ** The page, as far as [System.create] reads it *)

(** [canvas.getContext(name)]: null when the browser has no such context. *)
Record HTMLCanvasElement : Type := {
  getContext : string -> option WebGLRenderingContext;
}.

(** [document.createElement("canvas")] *)
Record Document : Type := { createCanvas : option HTMLCanvasElement }.

(** What [System.create] ends with: the System, or the [IModelError] thrown. *)
Inductive Created (A : Type) : Type :=
| Constructed (a : A)
| ThrowsIModelError (msg : string).
Arguments Constructed {A} a.
Arguments ThrowsIModelError {A} msg.

(** ** System *)

Inductive DepthBufferCall : Set :=
| RenderBuffer_create (width height : Z)
| TextureHandle_createForAttachment (width height : Z)
    (format : GL.TextureFormat) (dataType : GLDataType).

Module System.

Record t (SymbValue : Type) : Type := {
  self : Ref;
  capabilities : Capabilities.t;
  resourceCache : list (Ref * IdMap.t SymbValue);
  _drawBuffersExtension : option ExtensionObject;
  _instancingExtension : option ExtensionObject;
  _textureBindings : list (option Ref);
  _curVertexAttribStates : list Z;
  _nextVertexAttribStates : list Z;
  _lineCodeTexture : option Ref;
  _noiseTexture : option Ref;
  _techniques : option Ref;
  (* the calls [this.context] and its extensions have received *)
  context : list GL.Call;
}.
Arguments self {SymbValue} _.
Arguments capabilities {SymbValue} _.
Arguments resourceCache {SymbValue} _.
Arguments _drawBuffersExtension {SymbValue} _.
Arguments _instancingExtension {SymbValue} _.
Arguments _textureBindings {SymbValue} _.
Arguments _curVertexAttribStates {SymbValue} _.
Arguments _nextVertexAttribStates {SymbValue} _.
Arguments _lineCodeTexture {SymbValue} _.
Arguments _noiseTexture {SymbValue} _.
Arguments _techniques {SymbValue} _.
Arguments context {SymbValue} _.

Section Methods.
Context {SymbValue : Type} `{SymbOps SymbValue} (drv : Driver).

Local Abbreviation System := (t SymbValue).

Definition with_context (calls : list GL.Call) (s : System) : System :=
  {| self := self s; capabilities := capabilities s; resourceCache := resourceCache s;
     _drawBuffersExtension := _drawBuffersExtension s;
     _instancingExtension := _instancingExtension s;
     _textureBindings := _textureBindings s;
     _curVertexAttribStates := _curVertexAttribStates s;
     _nextVertexAttribStates := _nextVertexAttribStates s;
     _lineCodeTexture := _lineCodeTexture s; _noiseTexture := _noiseTexture s;
     _techniques := _techniques s; context := calls |}.

Definition with_textureBindings (bindings : list (option Ref)) (s : System) : System :=
  {| self := self s; capabilities := capabilities s; resourceCache := resourceCache s;
     _drawBuffersExtension := _drawBuffersExtension s;
     _instancingExtension := _instancingExtension s;
     _textureBindings := bindings;
     _curVertexAttribStates := _curVertexAttribStates s;
     _nextVertexAttribStates := _nextVertexAttribStates s;
     _lineCodeTexture := _lineCodeTexture s; _noiseTexture := _noiseTexture s;
     _techniques := _techniques s; context := context s |}.

Definition with_cur (states : list Z) (s : System) : System :=
  {| self := self s; capabilities := capabilities s; resourceCache := resourceCache s;
     _drawBuffersExtension := _drawBuffersExtension s;
     _instancingExtension := _instancingExtension s;
     _textureBindings := _textureBindings s;
     _curVertexAttribStates := states;
     _nextVertexAttribStates := _nextVertexAttribStates s;
     _lineCodeTexture := _lineCodeTexture s; _noiseTexture := _noiseTexture s;
     _techniques := _techniques s; context := context s |}.

Definition with_next (states : list Z) (s : System) : System :=
  {| self := self s; capabilities := capabilities s; resourceCache := resourceCache s;
     _drawBuffersExtension := _drawBuffersExtension s;
     _instancingExtension := _instancingExtension s;
     _textureBindings := _textureBindings s;
     _curVertexAttribStates := _curVertexAttribStates s;
     _nextVertexAttribStates := states;
     _lineCodeTexture := _lineCodeTexture s; _noiseTexture := _noiseTexture s;
     _techniques := _techniques s; context := context s |}.

Definition with_resourceCache (cache : list (Ref * IdMap.t SymbValue)) (s : System) : System :=
  {| self := self s; capabilities := capabilities s; resourceCache := cache;
     _drawBuffersExtension := _drawBuffersExtension s;
     _instancingExtension := _instancingExtension s;
     _textureBindings := _textureBindings s;
     _curVertexAttribStates := _curVertexAttribStates s;
     _nextVertexAttribStates := _nextVertexAttribStates s;
     _lineCodeTexture := _lineCodeTexture s; _noiseTexture := _noiseTexture s;
     _techniques := _techniques s; context := context s |}.

(** One call on [this.context] or on one of its extension objects. *)
Definition call (c : GL.Call) (s : System) : System :=
  with_context (context s ++ [c]) s.

(** The function [this.removeIModelMap] evaluates to. *)
Definition removeIModelMap_function : JsFunction := Method "System" "removeIModelMap".

(** The constructor. [debugTextureLifetime] is false, so no monitor is set. *)
Definition new (capabilities : Capabilities.t) : M System :=
  this ← fresh;
  bound ← fresh;
  BeEvent.addListener (BoundFunction bound removeIModelMap_function this) None ;;
  ret {| self := this;
         capabilities := capabilities;
         resourceCache := [];
         _drawBuffersExtension :=
           Capabilities.queryExtensionObject capabilities "WEBGL_draw_buffers";
         _instancingExtension :=
           Capabilities.queryExtensionObject capabilities "ANGLE_instanced_arrays";
         _textureBindings := [];
         _curVertexAttribStates := replicate 12 VertexAttribState.Disabled;
         _nextVertexAttribStates := replicate 12 VertexAttribState.Disabled;
         _lineCodeTexture := None; _noiseTexture := None; _techniques := None;
         context := [] |}.

(** [dispose(x)] of bentleyjs-core on an optional member. *)
Definition disposeMember (member : option Ref) : M (option Ref) :=
  match member with
  | Some r => emit (DisposeObject r) ;; ret None
  | None => ret None
  end.

Definition dispose (this : System) : M System :=
  techniques ← disposeMember (_techniques this);
  lineCodeTexture ← disposeMember (_lineCodeTexture this);
  noiseTexture ← disposeMember (_noiseTexture this);
  forEach (JsMap.values (resourceCache this))
    (fun idMap => IdMap.dispose idMap ;; ret tt) ;;
  _ ← BeEvent.removeListener removeIModelMap_function None;
  ret {| self := self this; capabilities := capabilities this;
         resourceCache := JsMap.clear (resourceCache this);
         _drawBuffersExtension := _drawBuffersExtension this;
         _instancingExtension := _instancingExtension this;
         _textureBindings := _textureBindings this;
         _curVertexAttribStates := _curVertexAttribStates this;
         _nextVertexAttribStates := _nextVertexAttribStates this;
         _lineCodeTexture := lineCodeTexture; _noiseTexture := noiseTexture;
         _techniques := techniques; context := context this |}.

Definition createDepthBuffer (width height : Z) (this : System) : Outcome DepthBufferCall :=
  let maxDepthType := Capabilities.maxDepthType (capabilities this) in
  if maxDepthType =? DepthType.RenderBufferUnsignedShort16 then
    Returns (RenderBuffer_create width height)
  else if maxDepthType =? DepthType.TextureUnsignedInt32 then
    Returns (TextureHandle_createForAttachment width height GL.DepthComponent UNSIGNED_INT)
  else if maxDepthType =? DepthType.TextureUnsignedInt24Stencil8 then
    match Capabilities.queryExtensionObject (capabilities this) "WEBGL_depth_texture" with
    | Some dtExt =>
        Returns (TextureHandle_createForAttachment width height GL.DepthStencil
                   UNSIGNED_INT_24_8_WEBGL)
    | None => Throws (TypeError "dtExt is undefined")
    end
  else Throws (AssertionFailed "").

Definition createIModelMap (imodel : Ref) (this : System) : IdMap.t SymbValue * System :=
  match JsMap.get (resourceCache this) imodel with
  | Some idMap => (idMap, this)
  | None =>
      (IdMap.new, with_resourceCache (JsMap.set (resourceCache this) imodel IdMap.new) this)
  end.

Definition removeIModelMap (imodel : Ref) (this : System) : M System :=
  match JsMap.get (resourceCache this) imodel with
  | None => ret this
  | Some idMap =>
      IdMap.dispose idMap ;;
      ret (with_resourceCache (JsMap.delete (resourceCache this) imodel) this)
  end.

Definition bindTexture (unit : Z) (target : GL.TextureTarget) (texture : option Ref)
    (this : System) : System :=
  let index := Z.to_nat (unit - TextureUnit.Zero) in
  if decide (JsArray.get (_textureBindings this) index = texture) then this
  else
    call (GL.bindTexture target texture)
      (call (GL.activeTexture unit)
         (with_textureBindings (JsArray.set (_textureBindings this) index texture) this)).

Definition bindTexture2d (unit : Z) (texture : option Ref) (this : System) : System :=
  bindTexture unit GL.TwoDee texture this.
Definition bindTextureCubeMap (unit : Z) (texture : option Ref) (this : System) : System :=
  bindTexture unit GL.CubeMap texture this.

(** [id] is a number: the assertions compare it with the lengths, and
    nothing else is checked. Under an [id] that is no array index (a negative
    or a fractional number) the assignment makes a property of the array
    object that is none of its twelve elements, and that nothing reads. *)
Definition enableVertexAttribArray (id : JsNumber) (instanced : bool) (this : System)
    : Outcome unit * System :=
  match assert (JsNumber.ltLength id (length (_nextVertexAttribStates this)))
          "if you add new vertex attributes you must update array length" with
  | Throws e => (Throws e, this)
  | Returns _ =>
      match assert (JsNumber.ltLength id (length (_curVertexAttribStates this)))
              "if you add new vertex attributes you must update array length" with
      | Throws e => (Throws e, this)
      | Returns _ =>
          let requested :=
            if instanced then VertexAttribState.InstancedEnabled
            else VertexAttribState.Enabled in
          (Returns tt,
           match JsNumber.arrayIndex id with
           | Some index =>
               with_next (<[index := requested]> (_nextVertexAttribStates this)) this
           | None => this
           end)
      end
  end.

(** [next[i] &= ~VertexAttribState.Enabled] *)
Definition clearEnabled (i : nat) (this : System) : System :=
  let next := _nextVertexAttribStates this in
  with_next (<[i := Z.land (default VertexAttribState.Disabled (next !! i))
                      (Z.lnot VertexAttribState.Enabled)]> next) this.

(** The body of the loop of [updateVertexAttribArrays]. Both arrays have the
    twelve slots they are made with, and the loop stays below that length. *)
Definition updateSlot (i : nat) (this : System) : Outcome unit * System :=
  let oldState := default VertexAttribState.Disabled (_curVertexAttribStates this !! i) in
  let newState := default VertexAttribState.Disabled (_nextVertexAttribStates this !! i) in
  if negb (oldState =? newState) then
    let wasEnabled := negb (0 =? Z.land VertexAttribState.Enabled oldState) in
    let nowEnabled := negb (0 =? Z.land VertexAttribState.Enabled newState) in
    let this1 :=
      if negb (Bool.eqb wasEnabled nowEnabled) then
        if nowEnabled then call (GL.enableVertexAttribArray i) this
        else call (GL.disableVertexAttribArray i) this
      else this in
    let wasInstanced := negb (0 =? Z.land VertexAttribState.Instanced oldState) in
    let nowInstanced := negb (0 =? Z.land VertexAttribState.Instanced newState) in
    if nowEnabled && negb (Bool.eqb wasInstanced nowInstanced) then
      match _instancingExtension this1 with
      | None => (Throws (AssertionFailed ""), this1)
      | Some _ =>
          let this2 :=
            call (GL.vertexAttribDivisorANGLE i (if nowInstanced then 1 else 0)) this1 in
          (Returns tt,
           clearEnabled i (with_cur (<[i := newState]> (_curVertexAttribStates this2)) this2))
      end
    else
      (Returns tt,
       clearEnabled i (with_cur (<[i := newState]> (_curVertexAttribStates this1)) this1))
  else (Returns tt, clearEnabled i this).

(** [for (let i = 0; i < next.length; i++)], with [remaining] iterations to go. *)
Fixpoint updateLoop (remaining i : nat) (this : System) : Outcome unit * System :=
  match remaining with
  | O => (Returns tt, this)
  | S remaining' =>
      match updateSlot i this with
      | (Returns _, this') => updateLoop remaining' (S i) this'
      | (Throws e, this') => (Throws e, this')
      end
  end.

Definition updateVertexAttribArrays (this : System) : Outcome unit * System :=
  updateLoop (length (_nextVertexAttribStates this)) 0 this.

(** [paramUnscaled = point.minus(sheetTileOrigin)] and the [Point2d] made of it. *)
Definition sheetTileParam (sheetTileOrigin : Point3d) (sheetTileScale : JsNumber)
    (point : Point3d) : Point2d :=
  let paramUnscaled := Point3d_minus point sheetTileOrigin in
  {| u := JsNumber.times (px paramUnscaled) sheetTileScale;
     v := JsNumber.times (py paramUnscaled) sheetTileScale |}.




Definition create (document : Document) : M (Created System) :=
  match createCanvas document with
  | None => ret (ThrowsIModelError "Failed to obtain HTMLCanvasElement")
  | Some canvas =>
      let context :=
        match getContext canvas "webgl" with
        | Some context => Some context
        | None => getContext canvas "experimental-webgl"
        end in
      match context with
      | None => ret (ThrowsIModelError "Failed to obtain WebGL context")
      | Some context =>
          match Capabilities.create context with
          | None => ret (ThrowsIModelError "Failed to initialize rendering capabilities")
          | Some capabilities => sys ← new capabilities; ret (Constructed sys)
          end
      end
  end.

Definition getIdMap (imodel : Ref) (this : System) : IdMap.t SymbValue * System :=
  match JsMap.get (resourceCache this) imodel with
  | Some map => (map, this)
  | None => createIModelMap imodel this
  end.

(** The IdMap of a connection is one object, held by [resourceCache]: what a
    method does to it shows in the cache. The map keeps the entry in its
    place. *)
Definition storeIdMap (imodel : Ref) (idMap : IdMap.t SymbValue) (this : System) : System :=
  with_resourceCache (JsMap.set (resourceCache this) imodel idMap) this.

Definition createMaterial (params : RenderMaterial.Params) (imodel : Ref) (this : System)
    : M (Material * System) :=
  let '(idMap, this1) := getIdMap imodel this in
  r ← IdMap.getMaterial params idMap;
  ret (r.1, storeIdMap imodel r.2 this1).

Definition findMaterial (key : string) (imodel : Ref) (this : System) : option Material :=
  match JsMap.get (resourceCache this) imodel with
  | None => None
  | Some idMap => IdMap.findMaterial key idMap
  end.

Definition createTextureFromImageBuffer (image : ImageBuffer) (imodel : Ref)
    (params : RenderTexture.Params) (this : System) : M (option Texture * System) :=
  let '(idMap, this1) := getIdMap imodel this in
  r ← IdMap.getTexture drv image params idMap;
  ret (r.1, storeIdMap imodel r.2 this1).

Definition createTextureFromImage (image : Ref) (hasAlpha : bool) (imodel : option Ref)
    (params : RenderTexture.Params) (this : System) : M (option Texture * System) :=
  match imodel with
  | None =>
      textureHandle ←
        TextureHandle_create drv (ForImage image hasAlpha (RenderTexture.type params));
      match textureHandle with
      | Some textureHandle =>
          texture ← new_Texture params textureHandle; ret (Some texture, this)
      | None => ret (None, this)
      end
  | Some imodel =>
      let '(idMap, this1) := getIdMap imodel this in
      r ← IdMap.getTextureFromImage drv image hasAlpha params idMap;
      ret (r.1, storeIdMap imodel r.2 this1)
  end.

Definition createTextureFromCubeImages (posX negX posY negY posZ negZ : Ref)
    (imodel : Ref) (params : RenderTexture.Params) (this : System)
    : M (option Texture * System) :=
  let '(idMap, this1) := getIdMap imodel this in
  r ← IdMap.getTextureFromCubeImages drv posX negX posY negY posZ negZ params idMap;
  ret (r.1, storeIdMap imodel r.2 this1).

Definition getGradientTexture (symb : GradientSymb SymbValue) (imodel : Ref) (this : System)
    : M (option Texture * System) :=
  let '(idMap, this1) := getIdMap imodel this in
  r ← IdMap.getGradient drv symb idMap;
  ret (r.1, storeIdMap imodel r.2 this1).

Definition findTexture (key : string) (imodel : Ref) (this : System) : option Texture :=
  match JsMap.get (resourceCache this) imodel with
  | None => None
  | Some idMap => IdMap.findTexture (Some key) idMap
  end.

Definition getClipVolume (clipVector : ClipVector) (imodel : Ref) (this : System)
    : M (option RenderClipVolume * System) :=
  let '(idMap, this1) := getIdMap imodel this in
  r ← IdMap.getClipVolume drv clipVector idMap;
  ret (r.1, storeIdMap imodel r.2 this1).

(** The loop of [disposeTexture]: the first unit that holds the texture is
    set to [undefined], and the loop ends there. *)
Fixpoint unbindFirst (bindings : list (option Ref)) (texture : Ref) : list (option Ref) :=
  match bindings with
  | [] => []
  | binding :: rest =>
      if decide (binding = Some texture) then None :: rest
      else binding :: unbindFirst rest texture
  end.

(** [System.instance] is this System. *)
Definition disposeTexture (texture : Ref) (this : System) : System :=
  with_textureBindings (unbindFirst (_textureBindings this) texture)
    (call (GL.deleteTexture texture) this).

End Methods.
End System.

(** * The vocabulary of the properties *)

Definition isConstruction (e : Event) : bool :=
  match e with
  | NewMaterial _ | NewTexture _ | CreateClipVolume _ _ (Some _) => true
  | _ => false
  end.

(** The number of materials, textures and clip volumes constructed so far. *)
Definition constructions (w : World) : nat :=
  length (List.filter isConstruction (trace w)).

(** The world after one request that the driver answered with no handle. *)
Definition after_failed_handle (src : HandleSource) (w : World) : World :=
  {| nextRef := nextRef w; requests := S (requests w);
     trace := trace w ++ [CreateHandle src None];
     IModelConnection_onClose := IModelConnection_onClose w |}.

(** The requests made of an IdMap, and the states they lead to from a new
    one. *)
Inductive IdMapCall (SymbValue : Type) : Type :=
| CallGetMaterial (params : RenderMaterial.Params)
| CallGetTexture (img : ImageBuffer) (params : RenderTexture.Params)
| CallGetTextureFromImage (image : Ref) (hasAlpha : bool) (params : RenderTexture.Params)
| CallGetTextureFromCubeImages (posX negX posY negY posZ negZ : Ref)
    (params : RenderTexture.Params)
| CallGetGradient (grad : GradientSymb SymbValue)
| CallGetClipVolume (clipVector : ClipVector)
| CallDispose.
Arguments CallGetMaterial {SymbValue} params.
Arguments CallGetTexture {SymbValue} img params.
Arguments CallGetTextureFromImage {SymbValue} image hasAlpha params.
Arguments CallGetTextureFromCubeImages {SymbValue} posX negX posY negY posZ negZ params.
Arguments CallGetGradient {SymbValue} grad.
Arguments CallGetClipVolume {SymbValue} clipVector.
Arguments CallDispose {SymbValue}.

Section IdMapVocabulary.
Context {SymbValue : Type} `{SymbOps SymbValue} (drv : Driver).

Local Abbreviation IdMap := (IdMap.t SymbValue).

(** The events of one [IdMap.dispose]. *)
Definition released (this : IdMap.t SymbValue) : list Event :=
  map DisposeTexture (JsMap.values (IdMap.textures this))
  ++ map DisposeTexture (Dictionary.values (IdMap.gradients this))
  ++ map DisposeClipVolume (JsMap.values (IdMap.clipVolumes this)).

Definition perform (st : IdMap * World) (c : IdMapCall SymbValue) : IdMap * World :=
  let '(this, w) := st in
  match c with
  | CallGetMaterial params =>
      let '(_, this', w') := IdMap.getMaterial params this w in (this', w')
  | CallGetTexture img params =>
      let '(_, this', w') := IdMap.getTexture drv img params this w in (this', w')
  | CallGetTextureFromImage image hasAlpha params =>
      let '(_, this', w') := IdMap.getTextureFromImage drv image hasAlpha params this w in
      (this', w')
  | CallGetTextureFromCubeImages posX negX posY negY posZ negZ params =>
      let '(_, this', w') :=
        IdMap.getTextureFromCubeImages drv posX negX posY negY posZ negZ params this w in
      (this', w')
  | CallGetGradient grad =>
      let '(_, this', w') := IdMap.getGradient drv grad this w in (this', w')
  | CallGetClipVolume clipVector =>
      let '(_, this', w') := IdMap.getClipVolume drv clipVector this w in (this', w')
  | CallDispose => IdMap.dispose this w
  end.

(** An IdMap made by [new IdMap()] in some world and used through its get
    operations and [dispose] only. *)
Definition reachable (this : IdMap) (w : World) : Prop :=
  exists (w0 : World) (calls : list (IdMapCall SymbValue)),
    fold_left perform calls (IdMap.new, w0) = (this, w).

(** The gradient textures are objects made earlier, each cached once. *)
Definition gradients_wf (this : IdMap) (w : World) : Prop :=
  NoDup (map tex_ref (Dictionary.values (IdMap.gradients this)))
  ∧ Forall (fun t => (tex_ref t < nextRef w)%nat) (Dictionary.values (IdMap.gradients this)).

Definition gradient_image (g : GradientSymb SymbValue) : ImageBuffer :=
  {| img_width := 256; img_height := 256; img_source := symb_ref g |}.

End IdMapVocabulary.

Section SystemVocabulary.
Context {SymbValue : Type}.

Local Abbreviation System := (System.t SymbValue).

(** The binding that the System has recorded for a unit. *)
Definition recordedBinding (this : System) (unit : Z) : option Ref :=
  JsArray.get (System._textureBindings this) (Z.to_nat (unit - TextureUnit.Zero)).

End SystemVocabulary.

Definition enabledBit (state : Z) : bool :=
  negb (0 =? Z.land VertexAttribState.Enabled state).
Definition instancedBit (state : Z) : bool :=
  negb (0 =? Z.land VertexAttribState.Instanced state).
Definition clearedState (state : Z) : Z :=
  Z.land state (Z.lnot VertexAttribState.Enabled).

(** The driver calls for one slot that goes from [oldState] to [newState]. *)
Definition slotCalls (i : nat) (oldState newState : Z) : list GL.Call :=
  (if negb (Bool.eqb (enabledBit oldState) (enabledBit newState)) then
     [if enabledBit newState then GL.enableVertexAttribArray i
      else GL.disableVertexAttribArray i]
   else [])
  ++ (if enabledBit newState
         && negb (Bool.eqb (instancedBit oldState) (instancedBit newState)) then
        [GL.vertexAttribDivisorANGLE i (if instancedBit newState then 1 else 0)]
      else []).

(** The driver calls for the slots from [i] on. *)
Fixpoint pendingCalls (i : nat) (olds news : list Z) : list GL.Call :=
  match olds, news with
  | o :: olds', n :: news' => slotCalls i o n ++ pendingCalls (S i) olds' news'
  | _, _ => []
  end.

Section SlotVocabulary.
Context {SymbValue : Type}.

Local Abbreviation System := (System.t SymbValue).

(** The System after the loop body has run for slot [i]. *)
Definition slotDone (i : nat) (oldState newState : Z) (this : System) : System :=
  System.with_next
    (<[i := clearedState newState]> (System._nextVertexAttribStates this))
    (System.with_cur (<[i := newState]> (System._curVertexAttribStates this))
       (System.with_context (System.context this ++ slotCalls i oldState newState) this)).

End SlotVocabulary.


Definition xyz (x y z : Q) : Point3d := {| px := x; py := y; pz := z |}.





(** ** The examples the properties are tried on *)

(** A context that passes the probe and has depth textures. *)
Definition example_context : WebGLRenderingContext := {|
  MAX_TEXTURE_SIZE := 4096;
  MAX_TEXTURE_IMAGE_UNITS := 16;
  MAX_VERTEX_TEXTURE_IMAGE_UNITS := 16;
  MAX_VERTEX_ATTRIBS := 16;
  MAX_VERTEX_UNIFORM_VECTORS := 256;
  MAX_VARYING_VECTORS := 15;
  MAX_FRAGMENT_UNIFORM_VECTORS := 256;
  MAX_COLOR_ATTACHMENTS_WEBGL := 8;
  MAX_DRAW_BUFFERS_WEBGL := 8;
  getSupportedExtensions :=
    Some ["OES_element_index_uint"; "WEBGL_depth_texture"; "ANGLE_instanced_arrays"];
  getExtension := fun ext => Some (ExtensionHandle (String.length ext));
  framebufferComplete := fun _ => false;
|}.

(** A context that passes the probe with nothing to spare: of the extensions
    it provides only OES_element_index_uint. *)
Definition plain_context : WebGLRenderingContext := {|
  MAX_TEXTURE_SIZE := 4096;
  MAX_TEXTURE_IMAGE_UNITS := 16;
  MAX_VERTEX_TEXTURE_IMAGE_UNITS := 16;
  MAX_VERTEX_ATTRIBS := 16;
  MAX_VERTEX_UNIFORM_VECTORS := 256;
  MAX_VARYING_VECTORS := 15;
  MAX_FRAGMENT_UNIFORM_VECTORS := 256;
  MAX_COLOR_ATTACHMENTS_WEBGL := 8;
  MAX_DRAW_BUFFERS_WEBGL := 8;
  getSupportedExtensions := Some ["OES_element_index_uint"];
  getExtension := fun ext =>
    if String.eqb ext "OES_element_index_uint" then Some (ExtensionHandle 22) else None;
  framebufferComplete := fun _ => false;
|}.

(** A page whose canvas has that context as its "webgl" context. *)
Definition plain_document : Document :=
  {| createCanvas :=
       Some {| getContext := fun name =>
                 if String.eqb name "webgl" then Some plain_context else None |} |}.

Definition empty_world : World :=
  {| nextRef := 0%nat; requests := 0%nat; trace := []; IModelConnection_onClose := [] |}.

(** Symbols whose value is a number, compared by subtraction. *)
Global Instance Z_SymbOps : SymbOps Z := {| compareValue := fun a b => a - b |}.

Global Instance Z_SymbStructural : SymbStructural Z.
Proof. intros a b. simpl. lia. Qed.

(** A driver that never fails, and one whose first answer is a failure. *)
Definition reliable_driver : Driver :=
  {| handleAvailable := fun _ => true;
     clipMaskAvailable := fun _ _ => true;
     clipPlanesAvailable := fun _ _ => true |}.

Definition flaky_driver : Driver :=
  {| handleAvailable := fun n => negb (n =? 0)%nat;
     clipMaskAvailable := fun _ _ => false;
     clipPlanesAvailable := fun _ _ => true |}.

Definition example_image : ImageBuffer :=
  {| img_width := 2; img_height := 2; img_source := 7%nat |}.

Definition brick_material : RenderMaterial.Params :=
  {| RenderMaterial.key := Some "brick"; RenderMaterial.settings := 3%nat |}.
Definition brick_texture : RenderTexture.Params :=
  {| RenderTexture.key := Some "brick"; RenderTexture.type := Normal;
     RenderTexture.isOwned := false |}.
Definition example_clip : ClipVector := {| clip_ref := 40%nat; clips := [] |}.

Definition example_symb : GradientSymb Z := {| symb_ref := 50%nat; symb_value := 9 |}.
Definition example_symb_copy : GradientSymb Z := {| symb_ref := 51%nat; symb_value := 9 |}.
Definition example_symb_other : GradientSymb Z := {| symb_ref := 52%nat; symb_value := 4 |}.

Definition example_capabilities : Capabilities.t :=
  (Capabilities.init Capabilities.new example_context).2.

(** The System that the constructor makes in the empty world. *)
Definition example_system : System.t Z :=
  (System.new example_capabilities empty_world).1.

(** The System of the example: slot 0 was enabled for the previous draw,
    and the next draw asks for slot 0 again and for slot 1, instanced. *)
Definition example_draw : System.t Z :=
  let s1 := (System.enableVertexAttribArray (Finite 0) false example_system).2 in
  let s2 := (System.updateVertexAttribArrays s1).2 in
  let s3 := (System.enableVertexAttribArray (Finite 0) false s2).2 in
  (System.enableVertexAttribArray (Finite 1) true s3).2.



(** ** The vocabulary of the further properties *)

(** The context that [System.create] probes: the "webgl" context of the
    canvas, and the "experimental-webgl" context only when there is none. *)
Definition chosenContext (document : Document) : option WebGLRenderingContext :=
  match createCanvas document with
  | Some canvas =>
      match getContext canvas "webgl" with
      | Some context => Some context
      | None => getContext canvas "experimental-webgl"
      end
  | None => None
  end.

(** A request for a resource of a connection, as the entry points of the
    System take it. *)
Inductive ResourceRequest (SymbValue : Type) : Type :=
| RequestMaterial (params : RenderMaterial.Params)
| RequestTextureFromImageBuffer (image : ImageBuffer) (params : RenderTexture.Params)
| RequestTextureFromImage (image : Ref) (hasAlpha : bool) (params : RenderTexture.Params)
| RequestTextureFromCubeImages (posX negX posY negY posZ negZ : Ref)
    (params : RenderTexture.Params)
| RequestGradientTexture (symb : GradientSymb SymbValue)
| RequestClipVolume (clipVector : ClipVector).
Arguments RequestMaterial {SymbValue} params.
Arguments RequestTextureFromImageBuffer {SymbValue} image params.
Arguments RequestTextureFromImage {SymbValue} image hasAlpha params.
Arguments RequestTextureFromCubeImages {SymbValue} posX negX posY negY posZ negZ params.
Arguments RequestGradientTexture {SymbValue} symb.
Arguments RequestClipVolume {SymbValue} clipVector.

(** The System and the world after the entry point for the request has run. *)
Definition serve {SymbValue : Type} `{SymbOps SymbValue} (drv : Driver)
    (r : ResourceRequest SymbValue) (imodel : Ref) (this : System.t SymbValue) (w : World)
    : System.t SymbValue * World :=
  match r with
  | RequestMaterial params =>
      let '(_, this', w') := System.createMaterial params imodel this w in (this', w')
  | RequestTextureFromImageBuffer image params =>
      let '(_, this', w') := System.createTextureFromImageBuffer drv image imodel params this w in
      (this', w')
  | RequestTextureFromImage image hasAlpha params =>
      let '(_, this', w') :=
        System.createTextureFromImage drv image hasAlpha (Some imodel) params this w in
      (this', w')
  | RequestTextureFromCubeImages posX negX posY negY posZ negZ params =>
      let '(_, this', w') :=
        System.createTextureFromCubeImages drv posX negX posY negY posZ negZ imodel params
          this w in
      (this', w')
  | RequestGradientTexture symb =>
      let '(_, this', w') := System.getGradientTexture drv symb imodel this w in (this', w')
  | RequestClipVolume clipVector =>
      let '(_, this', w') := System.getClipVolume drv clipVector imodel this w in (this', w')
  end.

Definition example_connection : Ref := 70%nat.
Definition other_connection : Ref := 71%nat.

(** The events of disposing the members that the System owns. *)
Definition memberEvents {SymbValue : Type} (this : System.t SymbValue) : list Event :=
  match System._techniques this with Some r => [DisposeObject r] | None => [] end
  ++ match System._lineCodeTexture this with Some r => [DisposeObject r] | None => [] end
  ++ match System._noiseTexture this with Some r => [DisposeObject r] | None => [] end.

(** The System after a texture was created for the example connection, and
    the world then. *)
Definition example_textured : System.t Z * World :=
  serve reliable_driver (RequestTextureFromImageBuffer example_image brick_texture)
    example_connection example_system empty_world.

(** Every cached material and texture is cached under its own key. *)
Definition keyed {SymbValue : Type} (this : IdMap.t SymbValue) : Prop :=
  (forall k material, JsMap.get (IdMap.materials this) k = Some material ->
     truthy (RenderMaterial.key (mat_params material)) = Some k)
  ∧ (forall k texture, JsMap.get (IdMap.textures this) k = Some texture ->
       truthy (RenderTexture.key (tex_params texture)) = Some k).

Definition unkeyed_material : RenderMaterial.Params :=
  {| RenderMaterial.key := None; RenderMaterial.settings := 3%nat |}.

(** The IdMap after the brick texture was requested, and the world then. *)
Definition example_cached : IdMap.t Z * World :=
  perform reliable_driver (IdMap.new, empty_world)
    (CallGetTexture example_image brick_texture).

(** A System on whose units 0 and 1 one texture is bound. *)
Definition example_bound_twice : System.t Z :=
  System.bindTexture (TextureUnit.Zero + 1) GL.TwoDee (Some 5%nat)
    (System.bindTexture TextureUnit.Zero GL.TwoDee (Some 5%nat) example_system).

(** The slot needs a divisor call: it is enabled in the new state and its
    instanced bit changes. *)
Definition needsDivisor (oldState newState : Z) : bool :=
  enabledBit newState && negb (Bool.eqb (instancedBit oldState) (instancedBit newState)).

(** Slot [j] of the System needs a divisor call. *)
Definition offends {SymbValue : Type} (this : System.t SymbValue) (j : nat) : bool :=
  match System._curVertexAttribStates this !! j, System._nextVertexAttribStates this !! j with
  | Some o, Some n => needsDivisor o n
  | _, _ => false
  end.

(** The calls of the vertex attribute interface. *)
Inductive VertexCall : Set :=
| RequestAttribute (id : JsNumber) (instanced : bool)
| UpdateAttributes.

Definition performVertex {SymbValue : Type} (this : System.t SymbValue) (c : VertexCall)
    : System.t SymbValue :=
  match c with
  | RequestAttribute id instanced => (System.enableVertexAttribArray id instanced this).2
  | UpdateAttributes => (System.updateVertexAttribArrays this).2
  end.

(** The members of the enum [VertexAttribState]. *)
Definition validState (state : Z) : Prop :=
  state ∈ [VertexAttribState.Disabled; VertexAttribState.Enabled;
           VertexAttribState.Instanced; VertexAttribState.InstancedEnabled].

Definition vertexStates_wf {SymbValue : Type} (this : System.t SymbValue) : Prop :=
  length (System._curVertexAttribStates this) = 12%nat
  ∧ length (System._nextVertexAttribStates this) = 12%nat
  ∧ Forall validState (System._curVertexAttribStates this)
  ∧ Forall validState (System._nextVertexAttribStates this).

(** A System made without probing the context has no instancing extension. *)
Definition bare_system : System.t Z := (System.new Capabilities.new empty_world).1.
Definition bare_draw : System.t Z :=
  (System.enableVertexAttribArray (Finite 1) true bare_system).2.


(** A facet of a sheet tile: a triangle with one parameter for each of its
    three points, computed from the point, the low corner of the range of the
    tile and the scale of the tile; its points are points of one clipped
    polygon, or the nodes, put at [z = 0.5], of a face off the exterior of
    the triangulation of a clipped polygon of five or more points. *)
Definition tileFacet (geo : GeometryCore) (sheetTileOrigin : Point3d)
    (sheetTileScale : JsNumber) (polygons : list (list Point3d)) (facet : Facet) : Prop :=
  match facet with
  | TriangleFacet points params =>
      length points = 3%nat
      ∧ params = map (System.sheetTileParam sheetTileOrigin sheetTileScale) points
      ∧ ((exists polygon,
            polygon ∈ polygons ∧ (length polygon <= 4)%nat
            ∧ forall point, point ∈ points -> point ∈ polygon)
         ∨ (exists polygon face,
              polygon ∈ polygons ∧ (5 <= length polygon)%nat
              ∧ face ∈ faceLoops geo polygon ∧ face.1 = false
              ∧ points = map (fun node : Q * Q => xyz node.1 node.2 (1 # 2)) face.2))
  | QuadFacet _ _ => False
  end.

(** The options that the method gives the builder. *)
Definition sheetTileOptions : StrokeOptions :=
  {| needParams := true; shouldTriangulate := true |}.

(** The builder of a sheet tile: it triangulates and keeps parameters, and
    all its facets are facets of the tile. *)
Definition builder_wf (geo : GeometryCore) (sheetTileOrigin : Point3d)
    (sheetTileScale : JsNumber) (polygons : list (list Point3d))
    (builder : PolyfaceBuilder.t) : Prop :=
  PolyfaceBuilder.options builder = sheetTileOptions
  ∧ Forall (tileFacet geo sheetTileOrigin sheetTileScale polygons)
      (PolyfaceBuilder.facets builder).







(** What the monitor is told. *)
Inductive MonitorCall : Set :=
| TextureCreated (tex : TextureHandle)
| TextureDisposed (tex : TextureHandle).

Definition notify (width height : TextureHandle -> Z) (this : TextureStats.t)
    (c : MonitorCall) : TextureStats.t :=
  match c with
  | TextureCreated tex => (TextureStats.onTextureCreated width height tex this).2
  | TextureDisposed tex => (TextureStats.onTextureDisposed width height tex this).2
  end.

(** [_maxSize] is the largest size among the allocated textures, and 0
    where there is none or none of positive size. *)
Definition maxSize_wf (width height : TextureHandle -> Z) (this : TextureStats.t) : Prop :=
  NoDup (TextureStats._allocated this)
  ∧ 0 <= TextureStats._maxSize this
  ∧ (forall tex, tex ∈ TextureStats._allocated this -> width tex * height tex <= TextureStats._maxSize this)
  ∧ (TextureStats._maxSize this = 0
     ∨ exists tex, tex ∈ TextureStats._allocated this ∧ width tex * height tex = TextureStats._maxSize this).

(** * Properties *)

(** ** The capabilities probe *)

(** None of the extensions that the probe asks for bears an inherited name:
    under such a name the map hands out what it stores. *)
Lemma member_requested (map : gmap string ExtensionObject) (ext : string) :
  Capabilities.isRequestedExtension ext = true ->
  Capabilities.member map ext = map !! ext.
Proof.
  intros Hreq. unfold Capabilities.member.
  destruct (map !! ext) as [extObj|]; [done|].
  rewrite bool_decide_eq_false_2; [done|].
  unfold Capabilities.Object_prototype. intros Hin.
  repeat (apply elem_of_cons in Hin as [->|Hin]; [discriminate Hreq|]).
  by apply elem_of_nil in Hin.
Qed.

Section CapabilitiesFacts.
Variable gl : WebGLRenderingContext.

Lemma enableExtension_lookup (m : gmap string ExtensionObject) (ext e : string) :
  Capabilities.enableExtension gl m ext !! e =
    if decide (ext = e) then
      if Capabilities.isRequestedExtension e then
        match getExtension gl e with Some o => Some o | None => m !! e end
      else m !! e
    else m !! e.
Proof.
  unfold Capabilities.enableExtension.
  destruct (decide (ext = e)) as [->|Hne].
  - destruct (Capabilities.isRequestedExtension e); [|done].
    destruct (getExtension gl e); [|done].
    by rewrite lookup_insert_eq.
  - destruct (Capabilities.isRequestedExtension ext); [|done].
    destruct (getExtension gl ext); [|done].
    by rewrite lookup_insert_ne.
Qed.

(** After the loop over [extensions], a requested extension is in the map
    exactly when it was listed and could be enabled, or was there before. *)
Lemma fold_enableExtension_lookup (extensions : list string) :
  forall (m : gmap string ExtensionObject) (e : string),
    Capabilities.isRequestedExtension e = true ->
    fold_left (Capabilities.enableExtension gl) extensions m !! e =
      if decide (e ∈ extensions) then
        match getExtension gl e with Some o => Some o | None => m !! e end
      else m !! e.
Proof.
  induction extensions as [|ext rest IH]; intros m e Hreq; simpl.
  - destruct (decide (e ∈ [])) as [Hin|_]; [by apply elem_of_nil in Hin|done].
  - rewrite IH by done. rewrite enableExtension_lookup, Hreq.
    destruct (decide (ext = e)) as [->|Hne].
    + rewrite (decide_True (P := e ∈ e :: rest)) by apply elem_of_cons, or_introl, eq_refl.
      destruct (decide (e ∈ rest)); destruct (getExtension gl e); done.
    + destruct (decide (e ∈ rest)) as [Hin|Hnin].
      * by rewrite (decide_True (P := e ∈ ext :: rest)) by (apply elem_of_cons; by right).
      * rewrite (decide_False (P := e ∈ ext :: rest)); [done|].
        intros [?|?]%elem_of_cons; congruence.
Qed.

Lemma loadExtensions_lookup (e : string) :
  Capabilities.isRequestedExtension e = true ->
  Capabilities.loadExtensions gl ∅ !! e ≠ None <-> Capabilities.contextProvides gl e.
Proof.
  intros Hreq. unfold Capabilities.loadExtensions, Capabilities.contextProvides.
  destruct (getSupportedExtensions gl) as [extensions|].
  - rewrite fold_enableExtension_lookup by done. rewrite lookup_empty.
    destruct (decide (e ∈ extensions)) as [Hin|Hnin].
    + destruct (getExtension gl e) as [o|].
      * split; [|done]. intros _. split; [by exists extensions|done].
      * split; [done|]. by intros [_ ?].
    + split; [done|]. intros [(l & Hl & Hin) _]. by simplify_eq.
  - rewrite lookup_empty. split; [done|]. by intros [(l & Hl & _) _].
Qed.

Lemma init_extensionMap :
  Capabilities._extensionMap (Capabilities.init Capabilities.new gl).2 =
    Capabilities.loadExtensions gl ∅.
Proof. reflexivity. Qed.

Lemma init_supports32BitElementIndex :
  Capabilities.supports32BitElementIndex (Capabilities.init Capabilities.new gl).2 = true
  <-> Capabilities.contextProvides gl "OES_element_index_uint".
Proof.
  unfold Capabilities.supports32BitElementIndex, Capabilities.queryExtensionObject.
  rewrite init_extensionMap, bool_decide_eq_true, member_requested by reflexivity.
  by apply loadExtensions_lookup.
Qed.

Lemma create_is_init (caps : Capabilities.t) :
  Capabilities.create gl = Some caps -> caps = (Capabilities.init Capabilities.new gl).2.
Proof.
  unfold Capabilities.create.
  destruct (Capabilities.init Capabilities.new gl) as [ok c]. simpl.
  destruct ok; by intros [= <-].
Qed.

Lemma init_limits :
  let caps := (Capabilities.init Capabilities.new gl).2 in
  Capabilities.maxTextureSize caps = MAX_TEXTURE_SIZE gl
  ∧ Capabilities.maxFragTextureUnits caps = MAX_TEXTURE_IMAGE_UNITS gl
  ∧ Capabilities.maxVertTextureUnits caps = MAX_VERTEX_TEXTURE_IMAGE_UNITS gl.
Proof. by repeat split. Qed.

Lemma create_succeeds :
  Capabilities.create gl ≠ None <->
    Capabilities.contextProvides gl "OES_element_index_uint"
    ∧ 4 < MAX_TEXTURE_IMAGE_UNITS gl
    ∧ 5 < MAX_VERTEX_TEXTURE_IMAGE_UNITS gl.
Proof.
  rewrite <- init_supports32BitElementIndex.
  unfold Capabilities.create.
  destruct (Capabilities.init Capabilities.new gl) as [ok caps] eqn:Hinit.
  assert (Hok : ok = Capabilities._hasRequiredFeatures caps
                     && Capabilities._hasRequiredTextureUnits caps).
  { unfold Capabilities.init in Hinit. by inversion Hinit. }
  assert (Hfrag : Capabilities.maxFragTextureUnits caps = MAX_TEXTURE_IMAGE_UNITS gl).
  { unfold Capabilities.init in Hinit. by inversion Hinit. }
  assert (Hvert : Capabilities.maxVertTextureUnits caps = MAX_VERTEX_TEXTURE_IMAGE_UNITS gl).
  { unfold Capabilities.init in Hinit. by inversion Hinit. }
  simpl. subst ok.
  unfold Capabilities._hasRequiredFeatures, Capabilities._hasRequiredTextureUnits.
  rewrite Hfrag, Hvert.
  destruct (Capabilities.supports32BitElementIndex caps);
    destruct (Z.ltb_spec 4 (MAX_TEXTURE_IMAGE_UNITS gl));
    destruct (Z.ltb_spec 5 (MAX_VERTEX_TEXTURE_IMAGE_UNITS gl)); simpl;
    split; try done; try (intros (? & ? & ?); first [done | lia]).
Qed.

(** C3. The probe [Capabilities.create] hands out a Capabilities object
    exactly when the context provides OES_element_index_uint (it lists the
    extension and enabling it yields an object), reports more than 4 fragment
    texture units and more than 5 vertex texture units. The object handed out
    is the one that [init] has filled in from the context: it supports
    32-bit element indices through the object the context handed out for the
    extension, and its limits are those the context reports, with more than
    4 fragment and more than 5 vertex texture units. In particular the probe
    fails on every context that does not provide the extension, whatever its
    other limits and extensions are. *)
Theorem Capabilities_create_succeeds_iff :
  ((exists caps, Capabilities.create gl = Some caps) <->
     Capabilities.contextProvides gl "OES_element_index_uint"
     ∧ 4 < MAX_TEXTURE_IMAGE_UNITS gl
     ∧ 5 < MAX_VERTEX_TEXTURE_IMAGE_UNITS gl)
  ∧ (forall caps,
       Capabilities.create gl = Some caps ->
       caps = (Capabilities.init Capabilities.new gl).2
       ∧ Capabilities.supports32BitElementIndex caps = true
       ∧ Capabilities.queryExtensionObject caps "OES_element_index_uint" =
           getExtension gl "OES_element_index_uint"
       ∧ Capabilities.maxTextureSize caps = MAX_TEXTURE_SIZE gl
       ∧ Capabilities.maxFragTextureUnits caps = MAX_TEXTURE_IMAGE_UNITS gl
       ∧ Capabilities.maxVertTextureUnits caps = MAX_VERTEX_TEXTURE_IMAGE_UNITS gl
       ∧ 4 < Capabilities.maxFragTextureUnits caps
       ∧ 5 < Capabilities.maxVertTextureUnits caps)
  ∧ (¬ Capabilities.contextProvides gl "OES_element_index_uint" ->
     Capabilities.create gl = None).
Proof.
  pose proof create_succeeds as Hiff.
  split; [|split].
  - rewrite <- Hiff. split.
    + intros [caps Hcaps]. by rewrite Hcaps.
    + intros Hsome. destruct (Capabilities.create gl) as [caps|]; [by exists caps|done].
  - intros caps Hcreate.
    assert (Hsome : Capabilities.create gl ≠ None) by (by rewrite Hcreate).
    apply Hiff in Hsome as (Hprovides & Hfrag & Hvert).
    apply create_is_init in Hcreate. subst caps.
    destruct init_limits as (Hsize & Hf & Hv).
    split; [done|]. split; [by apply init_supports32BitElementIndex|].
    split; [|by rewrite Hf, Hv].
    unfold Capabilities.queryExtensionObject.
    rewrite init_extensionMap, member_requested by reflexivity.
    destruct Hprovides as [(extensions & Hlist & Hin) Hobject].
    unfold Capabilities.loadExtensions. rewrite Hlist.
    rewrite fold_enableExtension_lookup by reflexivity.
    rewrite decide_True by done.
    by destruct (getExtension gl "OES_element_index_uint").
  - intros Hno. destruct (Capabilities.create gl) eqn:Hc; [|done].
    exfalso. apply Hno. by apply Hiff.
Qed.

Lemma init_maxDepthType :
  Capabilities.maxDepthType (Capabilities.init Capabilities.new gl).2 =
    match Capabilities.member (Capabilities.loadExtensions gl ∅) "WEBGL_depth_texture" with
    | Some _ => DepthType.TextureUnsignedInt24Stencil8
    | None => DepthType.RenderBufferUnsignedShort16
    end.
Proof. reflexivity. Qed.

(** The depth type that [init] stores follows the presence of
    WEBGL_depth_texture in the extension map. *)
Lemma create_maxDepthType (caps : Capabilities.t) :
  Capabilities.create gl = Some caps ->
  (Capabilities.maxDepthType caps = DepthType.RenderBufferUnsignedShort16
   ∧ Capabilities.queryExtensionObject caps "WEBGL_depth_texture" = None)
  ∨ (Capabilities.maxDepthType caps = DepthType.TextureUnsignedInt24Stencil8
     ∧ Capabilities.queryExtensionObject caps "WEBGL_depth_texture" ≠ None).
Proof.
  intros ->%create_is_init.
  rewrite init_maxDepthType.
  unfold Capabilities.queryExtensionObject. rewrite init_extensionMap.
  destruct (Capabilities.member (Capabilities.loadExtensions gl ∅) "WEBGL_depth_texture");
    [by right|by left].
Qed.

End CapabilitiesFacts.

(** ** Depth buffers *)

(** C10. For every Capabilities that a successful probe hands out,
    [maxDepthType] is RenderBufferUnsignedShort16 or
    TextureUnsignedInt24Stencil8; so [createDepthBuffer] of a System that
    holds them takes the render buffer case or the depth-stencil case, and
    neither the TextureUnsignedInt32 case nor the failing default. *)
Theorem createDepthBuffer_cases {SymbValue : Type} (gl : WebGLRenderingContext)
    (caps : Capabilities.t) (sys : System.t SymbValue) (width height : Z) :
  Capabilities.create gl = Some caps ->
  System.capabilities sys = caps ->
  (Capabilities.maxDepthType caps = DepthType.RenderBufferUnsignedShort16
   ∨ Capabilities.maxDepthType caps = DepthType.TextureUnsignedInt24Stencil8)
  ∧ (System.createDepthBuffer width height sys = Returns (RenderBuffer_create width height)
     ∨ System.createDepthBuffer width height sys =
         Returns (TextureHandle_createForAttachment width height GL.DepthStencil
                    UNSIGNED_INT_24_8_WEBGL))
  ∧ System.createDepthBuffer width height sys ≠
      Returns (TextureHandle_createForAttachment width height GL.DepthComponent UNSIGNED_INT)
  ∧ (forall e, System.createDepthBuffer width height sys ≠ Throws e).
Proof.
  intros Hcreate Hcaps.
  assert (Hcase :
    System.createDepthBuffer width height sys = Returns (RenderBuffer_create width height)
    ∨ System.createDepthBuffer width height sys =
        Returns (TextureHandle_createForAttachment width height GL.DepthStencil
                   UNSIGNED_INT_24_8_WEBGL)).
  { unfold System.createDepthBuffer. rewrite Hcaps.
    destruct (create_maxDepthType gl caps Hcreate) as [[-> _]|[-> Hext]].
    - by left.
    - right. simpl.
      destruct (Capabilities.queryExtensionObject caps "WEBGL_depth_texture"); done. }
  split; [|split; [exact Hcase|split]].
  - destruct (create_maxDepthType gl caps Hcreate) as [[-> _]|[-> _]]; auto.
  - destruct Hcase as [-> | ->]; discriminate.
  - intros e. destruct Hcase as [-> | ->]; discriminate.
Qed.

Lemma createDepthBuffer_cases_witness :
  exists caps,
    Capabilities.create example_context = Some caps
    ∧ System.createDepthBuffer 640 480 (System.new (SymbValue := unit) caps empty_world).1 =
        Returns (TextureHandle_createForAttachment 640 480 GL.DepthStencil
                   UNSIGNED_INT_24_8_WEBGL).
Proof.
  eexists. split; [reflexivity|].
  destruct (createDepthBuffer_cases (SymbValue := unit) example_context _
              (System.new (SymbValue := unit) _ empty_world).1 640 480
              eq_refl eq_refl) as (_ & [Hrb | Hds] & _ & _).
  - discriminate Hrb.
  - exact Hds.
Defined.

(** ** Maps *)

Section JsMapFacts.
Context {K V : Type} `{EqDecision K}.

Lemma JsMap_get_set_eq (m : list (K * V)) (k : K) (x : V) :
  JsMap.get (JsMap.set m k x) k = Some x.
Proof.
  induction m as [|[k' x'] m IH]; simpl.
  - by rewrite decide_True.
  - destruct (decide (k' = k)) as [->|Hne]; simpl.
    + by rewrite decide_True.
    + by rewrite decide_False.
Qed.

Lemma JsMap_get_set_ne (m : list (K * V)) (k k' : K) (x : V) :
  k ≠ k' -> JsMap.get (JsMap.set m k x) k' = JsMap.get m k'.
Proof.
  intros Hne. induction m as [|[k0 x0] m IH]; simpl.
  - by rewrite decide_False.
  - destruct (decide (k0 = k)) as [->|Hne0]; simpl.
    + by rewrite !decide_False.
    + destruct (decide (k0 = k')); [done|exact IH].
Qed.

Lemma JsMap_get_Some_values (m : list (K * V)) (k : K) (x : V) :
  JsMap.get m k = Some x -> x ∈ JsMap.values m.
Proof.
  induction m as [|[k' x'] m IH]; simpl; [done|].
  destruct (decide (k' = k)).
  - intros [= ->]. apply elem_of_cons. by left.
  - intros Hget. apply elem_of_cons. right. by apply IH.
Qed.

End JsMapFacts.

Section DictionaryFacts.
Context {K V : Type} (compare : K -> K -> Z).
Hypothesis compare_refl : forall k, compare k k = 0.

Lemma Dictionary_get_set_eq (d : list (K * V)) (k : K) (x : V) :
  Dictionary.get compare (Dictionary.set compare d k x) k = Some x.
Proof.
  induction d as [|[k' x'] d IH]; simpl.
  - by rewrite compare_refl.
  - destruct (compare k k' =? 0) eqn:Heq; simpl.
    + by rewrite Heq.
    + destruct (compare k k' <? 0); simpl.
      * by rewrite compare_refl.
      * by rewrite Heq.
Qed.

(** Two keys that compare alike with every key find the same entries. *)
Lemma Dictionary_get_same_class (d : list (K * V)) (k k' : K) :
  (forall x, compare k x = compare k' x) ->
  Dictionary.get compare d k = Dictionary.get compare d k'.
Proof.
  intros Hsame. induction d as [|[k0 x0] d IH]; simpl; [done|].
  rewrite Hsame. by destruct (compare k' k0 =? 0).
Qed.

End DictionaryFacts.

(** ** Running the state-passing code *)

Ltac run :=
  repeat (unfold IdMap.getMaterial, IdMap.getTexture, IdMap.getTextureFromImage,
            IdMap.getTextureFromCubeImages, IdMap.createTextureFromImageBuffer,
            IdMap.createTextureFromImage, IdMap.createTextureFromCubeImages,
            IdMap.createTexture, IdMap.getGradient, IdMap.getClipVolume,
            TextureHandle_create, ClipVolume_create, new_Texture, new_Material,
            Symb_getImage, ret, mret, M_ret, mbind, M_bind, emit, fresh, request in *;
          simpl in *).

Lemma truthy_Some (key : option string) (k : string) :
  truthy key = Some k -> key = Some k ∧ k ≠ "".
Proof.
  destruct key as [k0|]; simpl; [|done].
  destruct (String.eqb_spec k0 ""); [done|]. by intros [= <-].
Qed.

Lemma filter_snoc_length (tr : list Event) (e : Event) :
  length (List.filter isConstruction (tr ++ [e])) =
    (length (List.filter isConstruction tr) + (if isConstruction e then 1 else 0))%nat.
Proof.
  rewrite List.filter_app, length_app. simpl. by destruct (isConstruction e).
Qed.

(** ** Requesting a resource twice *)

Section IdMapFacts.
Context {SymbValue : Type} `{SymbOps SymbValue} (drv : Driver).

Local Abbreviation IdMap := (IdMap.t SymbValue).

Lemma getMaterial_twice (params params' : RenderMaterial.Params) (key : string)
    (this : IdMap) (w : World) :
  truthy (RenderMaterial.key params) = Some key ->
  RenderMaterial.key params' = RenderMaterial.key params ->
  exists material this1 w1,
    IdMap.getMaterial params this w = (material, this1, w1)
    ∧ IdMap.getMaterial params' this1 w1 = (material, this1, w1)
    ∧ constructions w1 =
        (constructions w +
         match JsMap.get (IdMap.materials this) key with Some _ => 0 | None => 1 end)%nat.
Proof.
  intros Hkey Hsame. unfold IdMap.getMaterial. rewrite Hsame, Hkey.
  destruct (JsMap.get (IdMap.materials this) key) as [material|] eqn:Hget.
  - exists material, this, w. run. rewrite Hget. split; [done|]. split; [done|lia].
  - run. eexists _, _, _. split; [reflexivity|]. simpl.
    rewrite JsMap_get_set_eq. split; [done|].
    unfold constructions. simpl. rewrite filter_snoc_length. simpl. lia.
Qed.

Lemma getTexture_twice (img img' : ImageBuffer) (params params' : RenderTexture.Params)
    (key : string) (this this1 : IdMap) (w w1 : World) (tex : Texture) :
  truthy (RenderTexture.key params) = Some key ->
  RenderTexture.key params' = RenderTexture.key params ->
  IdMap.getTexture drv img params this w = (Some tex, this1, w1) ->
  IdMap.getTexture drv img' params' this1 w1 = (Some tex, this1, w1)
  ∧ constructions w1 =
      (constructions w +
       match JsMap.get (IdMap.textures this) key with Some _ => 0 | None => 1 end)%nat.
Proof.
  intros Hkey Hsame. destruct (truthy_Some _ _ Hkey) as [Hk Hne].
  unfold IdMap.getTexture. rewrite Hsame, Hk. simpl.
  destruct (JsMap.get (IdMap.textures this) key) as [tex0|] eqn:Hget.
  - run. intros [= <- <- <-]. rewrite Hget. split; [done|lia].
  - run. destruct (handleAvailable drv (requests w)); run; [|done].
    unfold IdMap.addTexture. simpl. rewrite Hkey.
    intros [= <- <- <-]. simpl. rewrite JsMap_get_set_eq. split; [done|].
    unfold constructions. simpl. rewrite !filter_snoc_length. simpl. lia.
Qed.

Lemma getTextureFromImage_twice (image image' : Ref) (hasAlpha hasAlpha' : bool)
    (params params' : RenderTexture.Params)
    (key : string) (this this1 : IdMap) (w w1 : World) (tex : Texture) :
  truthy (RenderTexture.key params) = Some key ->
  RenderTexture.key params' = RenderTexture.key params ->
  IdMap.getTextureFromImage drv image hasAlpha params this w = (Some tex, this1, w1) ->
  IdMap.getTextureFromImage drv image' hasAlpha' params' this1 w1 = (Some tex, this1, w1)
  ∧ constructions w1 =
      (constructions w +
       match JsMap.get (IdMap.textures this) key with Some _ => 0 | None => 1 end)%nat.
Proof.
  intros Hkey Hsame. destruct (truthy_Some _ _ Hkey) as [Hk Hne].
  unfold IdMap.getTextureFromImage. rewrite Hsame, Hk. simpl.
  destruct (JsMap.get (IdMap.textures this) key) as [tex0|] eqn:Hget.
  - run. intros [= <- <- <-]. rewrite Hget. split; [done|lia].
  - run. destruct (handleAvailable drv (requests w)); run; [|done].
    unfold IdMap.addTexture. simpl. rewrite Hkey.
    intros [= <- <- <-]. simpl. rewrite JsMap_get_set_eq. split; [done|].
    unfold constructions. simpl. rewrite !filter_snoc_length. simpl. lia.
Qed.

Lemma getClipVolume_twice (clipVector clipVector' : ClipVector)
    (this this1 : IdMap) (w w1 : World) (volume : RenderClipVolume) :
  clip_ref clipVector' = clip_ref clipVector ->
  IdMap.getClipVolume drv clipVector this w = (Some volume, this1, w1) ->
  IdMap.getClipVolume drv clipVector' this1 w1 = (Some volume, this1, w1)
  ∧ constructions w1 =
      (constructions w +
       match JsMap.get (IdMap.clipVolumes this) (clip_ref clipVector) with
       | Some _ => 0 | None => 1 end)%nat.
Proof.
  intros Hsame. unfold IdMap.getClipVolume. rewrite Hsame.
  destruct (JsMap.get (IdMap.clipVolumes this) (clip_ref clipVector)) as [v0|] eqn:Hget.
  - run. intros [= <- <- <-]. rewrite Hget. split; [done|lia].
  - run. destruct (clipMaskAvailable drv (clip_ref clipVector) (requests w)); run.
    + intros [= <- <- <-]. simpl. rewrite JsMap_get_set_eq. split; [done|].
      unfold constructions. simpl. rewrite !filter_snoc_length. simpl. lia.
    + destruct (clipPlanesAvailable drv (clip_ref clipVector) (S (requests w))); run; [|done].
      intros [= <- <- <-]. simpl. rewrite JsMap_get_set_eq. split; [done|].
      unfold constructions. simpl. rewrite !filter_snoc_length. simpl. lia.
Qed.

End IdMapFacts.

Section RequestTwice.
Context {SymbValue : Type} `{SymbOps SymbValue} (drv : Driver).

Local Abbreviation IdMap := (IdMap.t SymbValue).

(** Without a key that is not empty, no texture is looked up but under the
    empty key. *)
Lemma findTexture_unkeyed (this : IdMap) (params : RenderTexture.Params) :
  JsMap.get (IdMap.textures this) "" = None ->
  truthy (RenderTexture.key params) = None ->
  IdMap.findTexture (RenderTexture.key params) this = None.
Proof.
  intros Hempty Hkey. unfold IdMap.findTexture.
  destruct (RenderTexture.key params) as [k|]; [|done]. simpl in Hkey.
  destruct (String.eqb_spec k ""); [by subst|done].
Qed.

Lemma getMaterial_unkeyed (this : IdMap) (w : World) (params : RenderMaterial.Params) :
  truthy (RenderMaterial.key params) = None ->
  exists material w1,
    IdMap.getMaterial params this w = (material, this, w1)
    ∧ mat_ref material = nextRef w
    ∧ nextRef w1 = S (nextRef w)
    ∧ constructions w1 = S (constructions w).
Proof.
  intros Hkey. unfold IdMap.getMaterial. rewrite Hkey. run.
  eexists _, _. split; [reflexivity|]. split; [done|]. split; [done|].
  unfold constructions. simpl. rewrite filter_snoc_length. simpl. lia.
Qed.

(** C1, as amended. For every IdMap: a material requested twice with equal
    non-empty keys is the identical instance both times; so is a texture
    (from an image buffer or an image) requested twice with equal non-empty
    keys, and a clip volume requested twice for the same clip vector, when
    the first request yields a resource. The second request constructs
    nothing and leaves the cache and the world as they are, and the two
    requests together construct one resource when the key was not cached
    before and none when it was. A request whose key is undefined or the
    empty string is never cached: it leaves the IdMap as it was, and two such
    requests of a material construct two materials. A request whose handle
    or volume cannot be created returns [undefined] and leaves the IdMap as
    it was. *)
Theorem IdMap_request_twice (this : IdMap) (w : World) :
  (forall params params' key,
     truthy (RenderMaterial.key params) = Some key ->
     RenderMaterial.key params' = RenderMaterial.key params ->
     exists material this1 w1,
       IdMap.getMaterial params this w = (material, this1, w1)
       ∧ IdMap.getMaterial params' this1 w1 = (material, this1, w1)
       ∧ constructions w1 =
           (constructions w +
            match JsMap.get (IdMap.materials this) key with Some _ => 0 | None => 1 end)%nat)
  ∧ (forall img img' params params' key tex this1 w1,
       truthy (RenderTexture.key params) = Some key ->
       RenderTexture.key params' = RenderTexture.key params ->
       IdMap.getTexture drv img params this w = (Some tex, this1, w1) ->
       IdMap.getTexture drv img' params' this1 w1 = (Some tex, this1, w1)
       ∧ constructions w1 =
           (constructions w +
            match JsMap.get (IdMap.textures this) key with Some _ => 0 | None => 1 end)%nat)
  ∧ (forall image image' hasAlpha hasAlpha' params params' key tex this1 w1,
       truthy (RenderTexture.key params) = Some key ->
       RenderTexture.key params' = RenderTexture.key params ->
       IdMap.getTextureFromImage drv image hasAlpha params this w = (Some tex, this1, w1) ->
       IdMap.getTextureFromImage drv image' hasAlpha' params' this1 w1 = (Some tex, this1, w1)
       ∧ constructions w1 =
           (constructions w +
            match JsMap.get (IdMap.textures this) key with Some _ => 0 | None => 1 end)%nat)
  ∧ (forall clipVector clipVector' volume this1 w1,
       clip_ref clipVector' = clip_ref clipVector ->
       IdMap.getClipVolume drv clipVector this w = (Some volume, this1, w1) ->
       IdMap.getClipVolume drv clipVector' this1 w1 = (Some volume, this1, w1)
       ∧ constructions w1 =
           (constructions w +
            match JsMap.get (IdMap.clipVolumes this) (clip_ref clipVector) with
            | Some _ => 0 | None => 1 end)%nat)
  ∧ (forall params params',
       truthy (RenderMaterial.key params) = None ->
       truthy (RenderMaterial.key params') = None ->
       exists first second w1 w2,
         IdMap.getMaterial params this w = (first, this, w1)
         ∧ IdMap.getMaterial params' this w1 = (second, this, w2)
         ∧ mat_ref first ≠ mat_ref second
         ∧ constructions w2 = S (S (constructions w)))
  ∧ (JsMap.get (IdMap.textures this) "" = None ->
     forall params,
       truthy (RenderTexture.key params) = None ->
       (forall img, exists r w1, IdMap.getTexture drv img params this w = (r, this, w1))
       ∧ (forall image hasAlpha,
            exists r w1,
              IdMap.getTextureFromImage drv image hasAlpha params this w = (r, this, w1)))
  ∧ (handleAvailable drv (requests w) = false ->
     forall params,
       IdMap.findTexture (RenderTexture.key params) this = None ->
       (forall img,
          IdMap.getTexture drv img params this w =
            (None, this,
             after_failed_handle (ForImageBuffer img (RenderTexture.type params)) w))
       ∧ (forall image hasAlpha,
            IdMap.getTextureFromImage drv image hasAlpha params this w =
              (None, this,
               after_failed_handle (ForImage image hasAlpha (RenderTexture.type params)) w)))
  ∧ (forall clipVector,
       JsMap.get (IdMap.clipVolumes this) (clip_ref clipVector) = None ->
       clipMaskAvailable drv (clip_ref clipVector) (requests w) = false ->
       clipPlanesAvailable drv (clip_ref clipVector) (S (requests w)) = false ->
       exists w1,
         IdMap.getClipVolume drv clipVector this w = (None, this, w1)
         ∧ constructions w1 = constructions w).
Proof.
  split; [|split; [|split; [|split; [|split; [|split; [|split]]]]]].
  - intros. by eapply getMaterial_twice.
  - intros. by eapply getTexture_twice.
  - intros. by eapply getTextureFromImage_twice.
  - intros. by eapply getClipVolume_twice.
  - intros params params' Hkey Hkey'.
    destruct (getMaterial_unkeyed this w params Hkey) as (first & w1 & Hfirst & Hr1 & Hn1 & Hc1).
    destruct (getMaterial_unkeyed this w1 params' Hkey')
      as (second & w2 & Hsecond & Hr2 & _ & Hc2).
    exists first, second, w1, w2. split; [exact Hfirst|]. split; [exact Hsecond|].
    split; [rewrite Hr1, Hr2, Hn1; lia|]. by rewrite Hc2, Hc1.
  - intros Hempty params Hkey. split.
    + intros img. unfold IdMap.getTexture.
      rewrite (findTexture_unkeyed this params Hempty Hkey). run.
      destruct (handleAvailable drv (requests w)); run; [|by eexists _, _].
      unfold IdMap.addTexture. simpl. rewrite Hkey. by eexists _, _.
    + intros image hasAlpha. unfold IdMap.getTextureFromImage.
      rewrite (findTexture_unkeyed this params Hempty Hkey). run.
      destruct (handleAvailable drv (requests w)); run; [|by eexists _, _].
      unfold IdMap.addTexture. simpl. rewrite Hkey. by eexists _, _.
  - intros Hfail params Hmiss. split.
    + intros img. unfold IdMap.getTexture. rewrite Hmiss. run. by rewrite Hfail.
    + intros image hasAlpha. unfold IdMap.getTextureFromImage. rewrite Hmiss. run.
      by rewrite Hfail.
  - intros clipVector Hmiss Hmask Hplanes. unfold IdMap.getClipVolume. rewrite Hmiss.
    run. rewrite Hmask. run. rewrite Hplanes. run.
    eexists. split; [reflexivity|].
    unfold constructions. simpl. rewrite !filter_snoc_length. simpl. lia.
Qed.

End RequestTwice.

Lemma IdMap_request_twice_witness :
  (exists material this1 w1,
     IdMap.getMaterial brick_material (IdMap.new (SymbValue := Z)) empty_world
       = (material, this1, w1)
     ∧ IdMap.getMaterial brick_material this1 w1 = (material, this1, w1)
     ∧ constructions w1 = 1%nat)
  ∧ (exists tex this1 w1,
       IdMap.getTexture reliable_driver example_image brick_texture
         (IdMap.new (SymbValue := Z)) empty_world = (Some tex, this1, w1)
       ∧ IdMap.getTexture reliable_driver example_image brick_texture this1 w1
           = (Some tex, this1, w1)
       ∧ constructions w1 = 1%nat)
  ∧ (exists volume this1 w1,
       IdMap.getClipVolume reliable_driver example_clip
         (IdMap.new (SymbValue := Z)) empty_world = (Some volume, this1, w1)
       ∧ IdMap.getClipVolume reliable_driver example_clip this1 w1
           = (Some volume, this1, w1)
       ∧ constructions w1 = 1%nat)
  ∧ (exists first second w1 w2,
       IdMap.getMaterial unkeyed_material (IdMap.new (SymbValue := Z)) empty_world
         = (first, IdMap.new, w1)
       ∧ IdMap.getMaterial unkeyed_material (IdMap.new (SymbValue := Z)) w1
           = (second, IdMap.new, w2)
       ∧ mat_ref first ≠ mat_ref second)
  ∧ IdMap.getTexture flaky_driver example_image brick_texture
      (IdMap.new (SymbValue := Z)) empty_world =
      (None, IdMap.new, after_failed_handle (ForImageBuffer example_image Normal) empty_world).
Proof.
  destruct (IdMap_request_twice (SymbValue := Z) reliable_driver IdMap.new empty_world)
    as (Hmat & Htex & _ & Hclip & Hunkeyed & _).
  destruct (IdMap_request_twice (SymbValue := Z) flaky_driver IdMap.new empty_world)
    as (_ & _ & _ & _ & _ & _ & Hrefused & _).
  split; [|split; [|split; [|split]]].
  - destruct (Hmat brick_material brick_material "brick" eq_refl eq_refl)
      as (material & this1 & w1 & H1 & H2 & H3).
    exists material, this1, w1. split; [exact H1|]. split; [exact H2|exact H3].
  - eexists _, _, _. split; [reflexivity|].
    eapply (Htex example_image example_image brick_texture brick_texture "brick");
      reflexivity.
  - eexists _, _, _. split; [reflexivity|].
    eapply (Hclip example_clip example_clip); reflexivity.
  - destruct (Hunkeyed unkeyed_material unkeyed_material eq_refl eq_refl)
      as (first & second & w1 & w2 & H1 & H2 & H3 & _).
    exists first, second, w1, w2. split; [exact H1|]. split; [exact H2|exact H3].
  - destruct (Hrefused eq_refl brick_texture eq_refl) as [Hbuffer _].
    exact (Hbuffer example_image).
Defined.

(** C1 as stated fails. A material requested twice with the equal keys [""]
    is constructed twice, as two instances; and a texture requested twice
    with equal keys is no resource the first time and a texture the second
    when the driver has no handle for the first request only. *)
Lemma IdMap_request_twice_counterexample :
  (let params := {| RenderMaterial.key := Some ""; RenderMaterial.settings := 3%nat |} in
   let first := IdMap.getMaterial params (IdMap.new (SymbValue := Z)) empty_world in
   let second := IdMap.getMaterial params first.1.2 first.2 in
   first.1.1 ≠ second.1.1 ∧ constructions second.2 = 2%nat)
  ∧ (let first := IdMap.getTexture flaky_driver example_image brick_texture
                    (IdMap.new (SymbValue := Z)) empty_world in
     let second := IdMap.getTexture flaky_driver example_image brick_texture
                     first.1.2 first.2 in
     first.1.1 = None ∧ second.1.1 ≠ None).
Proof.
  split.
  - simpl. split; [discriminate|reflexivity].
  - simpl. split; [reflexivity|discriminate].
Qed.

(** ** Disposing an IdMap *)

Section DisposeFacts.
Context {SymbValue : Type}.

Lemma forEach_emit {A : Type} (f : A -> Event) (l : list A) (w : World) :
  forEach l (fun a => emit (f a)) w =
    (tt, {| nextRef := nextRef w; requests := requests w;
            trace := trace w ++ map f l;
            IModelConnection_onClose := IModelConnection_onClose w |}).
Proof.
  revert w. induction l as [|a l IH]; intros w; simpl.
  - unfold ret, mret, M_ret. rewrite app_nil_r. by destruct w.
  - unfold mbind, M_bind, emit. rewrite IH. simpl. by rewrite <- app_assoc.
Qed.

Lemma dispose_run (this : IdMap.t SymbValue) (w : World) :
  IdMap.dispose this w =
    ({| IdMap.materials := IdMap.materials this; IdMap.textures := [];
        IdMap.gradients := []; IdMap.clipVolumes := [] |},
     {| nextRef := nextRef w; requests := requests w;
        trace := trace w ++ released this;
        IModelConnection_onClose := IModelConnection_onClose w |}).
Proof.
  unfold IdMap.dispose, released, mbind, M_bind.
  rewrite (forEach_emit DisposeTexture). rewrite (forEach_emit DisposeTexture).
  rewrite (forEach_emit DisposeClipVolume).
  simpl. unfold ret, mret, M_ret. by rewrite <- !app_assoc.
Qed.

(** C2, as amended. [IdMap.dispose] releases the texture of every entry of
    the textures map, then the texture of every entry of the gradients map,
    then the clip volume of every entry of the clip volumes map, and leaves
    these three maps empty; the materials map is left as it was. A second
    [dispose] releases nothing, changes nothing and raises nothing. *)
Theorem IdMap_dispose_releases (this : IdMap.t SymbValue) (w : World) :
  let '(this1, w1) := IdMap.dispose this w in
  trace w1 = trace w ++ released this
  ∧ (forall texture, texture ∈ JsMap.values (IdMap.textures this) ->
       DisposeTexture texture ∈ released this)
  ∧ (forall gradient, gradient ∈ Dictionary.values (IdMap.gradients this) ->
       DisposeTexture gradient ∈ released this)
  ∧ (forall volume, volume ∈ JsMap.values (IdMap.clipVolumes this) ->
       DisposeClipVolume volume ∈ released this)
  ∧ IdMap.textures this1 = []
  ∧ IdMap.gradients this1 = []
  ∧ IdMap.clipVolumes this1 = []
  ∧ IdMap.materials this1 = IdMap.materials this
  ∧ IdMap.dispose this1 w1 = (this1, w1).
Proof.
  rewrite dispose_run. simpl. split; [done|].
  split; [|split; [|split]].
  - intros texture Hin. unfold released. apply elem_of_app. left.
    by apply list_elem_of_fmap_2.
  - intros gradient Hin. unfold released. apply elem_of_app. right.
    apply elem_of_app. left. by apply list_elem_of_fmap_2.
  - intros volume Hin. unfold released. apply elem_of_app. right.
    apply elem_of_app. right. by apply list_elem_of_fmap_2.
  - (* the three maps are empty now, so the loops of a second call do not run *)
    repeat split.
Qed.

End DisposeFacts.

(** C2 as stated fails. An IdMap that has cached a material still holds
    it after [dispose]. *)
Lemma IdMap_dispose_counterexample :
  let cached := IdMap.getMaterial brick_material (IdMap.new (SymbValue := Z)) empty_world in
  let disposed := IdMap.dispose cached.1.2 cached.2 in
  IdMap.materials disposed.1 ≠ []
  ∧ JsMap.get (IdMap.materials disposed.1) "brick" = Some cached.1.1.
Proof. simpl. split; [discriminate|reflexivity]. Qed.

(** ** When the driver has no handle *)

Section CreationFailure.
Context {SymbValue : Type} `{SymbOps SymbValue} (drv : Driver).

(** C8. When the driver has no handle for the request that a get/create
    operation makes of it, the operation returns no resource, and the IdMap
    is as it was: for textures from an image buffer, an image or cube
    images, and for gradient textures. The operations are total functions:
    they return, and raise nothing. *)
Theorem IdMap_creation_failure (this : IdMap.t SymbValue) (w : World) :
  handleAvailable drv (requests w) = false ->
  (forall img params,
     IdMap.findTexture (RenderTexture.key params) this = None ->
     IdMap.getTexture drv img params this w =
       (None, this, after_failed_handle (ForImageBuffer img (RenderTexture.type params)) w))
  ∧ (forall image hasAlpha params,
       IdMap.findTexture (RenderTexture.key params) this = None ->
       IdMap.getTextureFromImage drv image hasAlpha params this w =
         (None, this,
          after_failed_handle (ForImage image hasAlpha (RenderTexture.type params)) w))
  ∧ (forall posX negX posY negY posZ negZ params,
       IdMap.getTextureFromCubeImages drv posX negX posY negY posZ negZ params this w =
         (None, this, after_failed_handle (ForCubeImages posX negX posY negY posZ negZ) w))
  ∧ (forall grad,
       IdMap.findGradient grad this = None ->
       exists w1,
         IdMap.getGradient drv grad this w = (None, this, w1)
         ∧ trace w1 = trace w ++
             [GetImage (symb_ref grad) 256 256;
              CreateHandle
                (ForImageBuffer {| img_width := 256; img_height := 256;
                                   img_source := symb_ref grad |} Normal) None]).
Proof.
  intros Hfail. split; [|split; [|split]].
  - intros img params Hmiss. unfold IdMap.getTexture. rewrite Hmiss.
    run. rewrite Hfail. reflexivity.
  - intros image hasAlpha params Hmiss. unfold IdMap.getTextureFromImage. rewrite Hmiss.
    run. rewrite Hfail. reflexivity.
  - intros. run. rewrite Hfail. reflexivity.
  - intros grad Hmiss. unfold IdMap.findGradient in Hmiss.
    unfold IdMap.getGradient. rewrite Hmiss. run. rewrite Hfail.
    eexists. split; [reflexivity|]. simpl. by rewrite <- app_assoc.
Qed.

End CreationFailure.

Lemma IdMap_creation_failure_witness :
  IdMap.getTexture flaky_driver example_image brick_texture
    (IdMap.new (SymbValue := Z)) empty_world =
    (None, IdMap.new,
     after_failed_handle (ForImageBuffer example_image Normal) empty_world)
  ∧ (IdMap.getGradient flaky_driver example_symb IdMap.new empty_world).1 =
      (None, IdMap.new).
Proof.
  destruct (IdMap_creation_failure (SymbValue := Z) flaky_driver IdMap.new empty_world
              eq_refl) as (Htex & _ & _ & Hgrad).
  split.
  - exact (Htex example_image brick_texture eq_refl).
  - destruct (Hgrad example_symb eq_refl) as (w1 & Hrun & _).
    rewrite Hrun. reflexivity.
Defined.

(** ** Gradient textures *)

Section GradientFacts.
Context {SymbValue : Type} `{SymbStructural SymbValue} (drv : Driver).

Local Abbreviation IdMap := (IdMap.t SymbValue).

Lemma compareSymb_refl (g : GradientSymb SymbValue) : compareSymb g g = 0.
Proof. unfold compareSymb. by apply compareValue_structural. Qed.

Lemma compareSymb_zero (g g' : GradientSymb SymbValue) :
  compareSymb g g' = 0 <-> symb_value g = symb_value g'.
Proof. unfold compareSymb. apply compareValue_structural. Qed.

Lemma Dictionary_get_values {V : Type} (d : list (GradientSymb SymbValue * V))
    (g : GradientSymb SymbValue) (x : V) :
  Dictionary.get compareSymb d g = Some x -> x ∈ Dictionary.values d.
Proof.
  induction d as [|[k x'] d IH]; simpl; [done|].
  destruct (compareSymb g k =? 0).
  - intros [= ->]. apply elem_of_cons. by left.
  - intros Hget. apply elem_of_cons. right. by apply IH.
Qed.

Lemma Dictionary_get_set_other {V : Type} (d : list (GradientSymb SymbValue * V))
    (g g' : GradientSymb SymbValue) (x : V) :
  Dictionary.get compareSymb d g = None ->
  symb_value g' ≠ symb_value g ->
  Dictionary.get compareSymb (Dictionary.set compareSymb d g x) g' =
    Dictionary.get compareSymb d g'.
Proof.
  intros Hmiss Hne.
  assert (Hcmp : (compareSymb g' g =? 0) = false).
  { apply Z.eqb_neq. by rewrite compareSymb_zero. }
  induction d as [|[k x'] d IH]; simpl in *.
  - by rewrite Hcmp.
  - destruct (compareSymb g k =? 0) eqn:Hgk; [done|].
    destruct (compareSymb g k <? 0); simpl.
    + by rewrite Hcmp.
    + destruct (compareSymb g' k =? 0); [done|]. by apply IH.
Qed.

Lemma Dictionary_set_values_miss {V : Type} (d : list (GradientSymb SymbValue * V))
    (g : GradientSymb SymbValue) (x : V) :
  Dictionary.get compareSymb d g = None ->
  Dictionary.values (Dictionary.set compareSymb d g x) ≡ₚ x :: Dictionary.values d.
Proof.
  induction d as [|[k x'] d IH]; simpl; [done|].
  destruct (compareSymb g k =? 0); [done|]. intros Hmiss.
  destruct (compareSymb g k <? 0); simpl; [done|].
  unfold Dictionary.values in IH. rewrite IH by done. apply Permutation_swap.
Qed.

(** Two symbols of different value that are both cached have two textures. *)
Lemma Dictionary_get_distinct (d : list (GradientSymb SymbValue * Texture))
    (g g' : GradientSymb SymbValue) (t t' : Texture) :
  NoDup (map tex_ref (Dictionary.values d)) ->
  symb_value g ≠ symb_value g' ->
  Dictionary.get compareSymb d g = Some t ->
  Dictionary.get compareSymb d g' = Some t' ->
  tex_ref t ≠ tex_ref t'.
Proof.
  intros Hnodup Hne. induction d as [|[k x] d IH]; simpl in *; [done|].
  apply NoDup_cons in Hnodup as [Hnotin Hnodup].
  destruct (compareSymb g k =? 0) eqn:Hgk; destruct (compareSymb g' k =? 0) eqn:Hg'k.
  - apply Z.eqb_eq, compareSymb_zero in Hgk, Hg'k. congruence.
  - intros [= <-] Hget Heq. apply Hnotin. rewrite Heq.
    apply list_elem_of_fmap_2. by eapply Dictionary_get_values.
  - intros Hget [= <-] Heq. apply Hnotin. rewrite <- Heq.
    apply list_elem_of_fmap_2. by eapply Dictionary_get_values.
  - by apply IH.
Qed.

End GradientFacts.

Section GradientInvariant.
Context {SymbValue : Type} `{SymbStructural SymbValue} (drv : Driver).

Local Abbreviation IdMap := (IdMap.t SymbValue).

Lemma gradients_wf_mono (this this' : IdMap) (w w' : World) :
  IdMap.gradients this' = IdMap.gradients this ->
  (nextRef w <= nextRef w')%nat ->
  gradients_wf this w -> gradients_wf this' w'.
Proof.
  intros Hsame Hle [Hnodup Hall]. unfold gradients_wf. rewrite Hsame.
  split; [done|]. eapply Forall_impl; [exact Hall|]. simpl. intros. lia.
Qed.

Lemma addTexture_gradients (texture : Texture) (this : IdMap) :
  IdMap.gradients (IdMap.addTexture texture this) = IdMap.gradients this.
Proof.
  unfold IdMap.addTexture.
  by destruct (truthy (RenderTexture.key (tex_params texture))).
Qed.

Lemma createTexture_after_handle_wf (src : HandleSource) (params : RenderTexture.Params)
    (this : IdMap) (w : World) :
  gradients_wf this w ->
  let '(_, this', w') :=
    (handle ← TextureHandle_create drv src; IdMap.createTexture params handle this) w in
  gradients_wf this' w'.
Proof.
  intros Hwf. run. destruct (handleAvailable drv (requests w)); run.
  - eapply gradients_wf_mono; [apply addTexture_gradients| |exact Hwf]. simpl. lia.
  - eapply gradients_wf_mono; [reflexivity| |exact Hwf]. simpl. lia.
Qed.

Lemma getGradient_wf (grad : GradientSymb SymbValue) (this : IdMap) (w : World) :
  gradients_wf this w ->
  let '(_, this', w') := IdMap.getGradient drv grad this w in gradients_wf this' w'.
Proof.
  intros Hwf. unfold IdMap.getGradient.
  destruct (Dictionary.get compareSymb (IdMap.gradients this) grad) eqn:Hget; run; [done|].
  destruct (handleAvailable drv (requests w)); run.
  - destruct Hwf as [Hnodup Hall]. unfold gradients_wf. simpl.
    pose proof (Dictionary_set_values_miss (IdMap.gradients this) grad
      {| tex_ref := S (nextRef w);
         tex_params := {| RenderTexture.key := None; RenderTexture.type := Normal;
                          RenderTexture.isOwned := true |};
         tex_handle := {| handle_ref := nextRef w |} |} Hget) as Hperm.
    split.
    + rewrite Hperm. simpl. apply NoDup_cons. split; [|done].
      intros (t & Href & Hin)%list_elem_of_fmap.
      rewrite Forall_forall in Hall. specialize (Hall t Hin). simpl in Hall. lia.
    + rewrite Hperm. apply Forall_cons. split; [simpl; lia|].
      eapply Forall_impl; [exact Hall|]. simpl. intros. lia.
  - eapply gradients_wf_mono; [reflexivity| |exact Hwf]. simpl. lia.
Qed.

Lemma perform_wf (this : IdMap) (w : World) (c : IdMapCall SymbValue) :
  gradients_wf this w ->
  gradients_wf (perform drv (this, w) c).1 (perform drv (this, w) c).2.
Proof.
  intros Hwf. destruct c; simpl.
  - unfold IdMap.getMaterial.
    destruct (truthy (RenderMaterial.key params)); [|].
    + destruct (JsMap.get (IdMap.materials this) s); run; [done|].
      eapply gradients_wf_mono; [reflexivity| |exact Hwf]. simpl. lia.
    + run. eapply gradients_wf_mono; [reflexivity| |exact Hwf]. simpl. lia.
  - unfold IdMap.getTexture.
    destruct (IdMap.findTexture (RenderTexture.key params) this); [done|].
    pose proof (createTexture_after_handle_wf
      (ForImageBuffer img (RenderTexture.type params)) params this w Hwf) as Hc.
    unfold IdMap.createTextureFromImageBuffer.
    by destruct ((TextureHandle_create drv _ ≫= _) w) as [[? ?] ?].
  - unfold IdMap.getTextureFromImage.
    destruct (IdMap.findTexture (RenderTexture.key params) this); [done|].
    pose proof (createTexture_after_handle_wf
      (ForImage image hasAlpha (RenderTexture.type params)) params this w Hwf) as Hc.
    unfold IdMap.createTextureFromImage.
    by destruct ((TextureHandle_create drv _ ≫= _) w) as [[? ?] ?].
  - pose proof (createTexture_after_handle_wf
      (ForCubeImages posX negX posY negY posZ negZ) params this w Hwf) as Hc.
    unfold IdMap.getTextureFromCubeImages, IdMap.createTextureFromCubeImages.
    by destruct ((TextureHandle_create drv _ ≫= _) w) as [[? ?] ?].
  - pose proof (getGradient_wf grad this w Hwf) as Hg.
    by destruct (IdMap.getGradient drv grad this w) as [[? ?] ?].
  - unfold IdMap.getClipVolume.
    destruct (JsMap.get (IdMap.clipVolumes this) (clip_ref clipVector)); run; [done|].
    destruct (clipMaskAvailable drv (clip_ref clipVector) (requests w)); run.
    + eapply gradients_wf_mono; [reflexivity| |exact Hwf]. simpl. lia.
    + destruct (clipPlanesAvailable drv (clip_ref clipVector) (S (requests w))); run;
        (eapply gradients_wf_mono; [reflexivity| |exact Hwf]); simpl; lia.
  - rewrite dispose_run. simpl. split; simpl; [apply NoDup_nil_2|apply Forall_nil_2].
Qed.

Lemma reachable_wf (this : IdMap) (w : World) :
  reachable drv this w -> gradients_wf this w.
Proof.
  intros (w0 & calls & Hrun).
  assert (Hgen : forall st, gradients_wf st.1 st.2 ->
            gradients_wf (fold_left (perform drv) calls st).1
                         (fold_left (perform drv) calls st).2).
  { clear Hrun. induction calls as [|c calls IH]; intros [this0 w1] Hwf; [done|].
    cbn [fold_left]. apply IH. exact (perform_wf this0 w1 c Hwf). }
  specialize (Hgen (IdMap.new, w0)). rewrite Hrun in Hgen. apply Hgen.
  split; simpl; [apply NoDup_nil_2|apply Forall_nil_2].
Qed.

End GradientInvariant.

Section GradientRequests.
Context {SymbValue : Type} `{SymbStructural SymbValue} (drv : Driver).

Local Abbreviation IdMap := (IdMap.t SymbValue).

Lemma getGradient_same_value (g1 g2 : GradientSymb SymbValue) (this this1 : IdMap)
    (w w1 : World) (tex : Texture) :
  symb_value g1 = symb_value g2 ->
  IdMap.getGradient drv g1 this w = (Some tex, this1, w1) ->
  IdMap.getGradient drv g2 this1 w1 = (Some tex, this1, w1).
Proof.
  intros Hval.
  assert (Hclass : forall x, compareSymb g2 x = compareSymb g1 x).
  { intros x. unfold compareSymb. by rewrite Hval. }
  unfold IdMap.getGradient.
  destruct (Dictionary.get compareSymb (IdMap.gradients this) g1) as [t|] eqn:Hget; run.
  - intros [= <- <- <-].
    by rewrite (Dictionary_get_same_class compareSymb _ g2 g1 Hclass), Hget.
  - destruct (handleAvailable drv (requests w)); run; [|done].
    intros [= <- <- <-]. simpl.
    rewrite (Dictionary_get_same_class compareSymb _ g2 g1 Hclass).
    by rewrite (Dictionary_get_set_eq compareSymb compareSymb_refl).
Qed.

Lemma getGradient_result (g : GradientSymb SymbValue) (this this1 : IdMap)
    (w w1 : World) (tex : Texture) :
  gradients_wf this w ->
  IdMap.getGradient drv g this w = (Some tex, this1, w1) ->
  (Dictionary.get compareSymb (IdMap.gradients this) g = Some tex
   ∧ this1 = this ∧ w1 = w)
  ∨ (Dictionary.get compareSymb (IdMap.gradients this) g = None
     ∧ (nextRef w <= tex_ref tex < nextRef w1)%nat
     ∧ IdMap.gradients this1 =
         Dictionary.set compareSymb (IdMap.gradients this) g tex).
Proof.
  intros Hwf. unfold IdMap.getGradient.
  destruct (Dictionary.get compareSymb (IdMap.gradients this) g) as [t|] eqn:Hget; run.
  - intros [= <- <- <-]. by left.
  - destruct (handleAvailable drv (requests w)); run; [|done].
    intros [= <- <- <-]. right. simpl. split; [done|]. split; [lia|done].
Qed.

Lemma getGradient_different_value (g1 g2 : GradientSymb SymbValue)
    (this this1 this2 : IdMap) (w w1 w2 : World) (t1 t2 : Texture) :
  gradients_wf this w ->
  symb_value g1 ≠ symb_value g2 ->
  IdMap.getGradient drv g1 this w = (Some t1, this1, w1) ->
  IdMap.getGradient drv g2 this1 w1 = (Some t2, this2, w2) ->
  tex_ref t1 ≠ tex_ref t2.
Proof.
  intros Hwf Hne Hfirst Hsecond.
  pose proof (getGradient_wf drv g1 this w Hwf) as Hwf1. rewrite Hfirst in Hwf1.
  destruct (getGradient_result _ _ _ _ _ _ Hwf Hfirst)
    as [(Hhit1 & -> & ->)|(Hmiss1 & Hfresh1 & Hset1)];
  destruct (getGradient_result _ _ _ _ _ _ Hwf1 Hsecond)
    as [(Hhit2 & -> & ->)|(Hmiss2 & Hfresh2 & Hset2)].
  - destruct Hwf as [Hnodup _]. by eapply Dictionary_get_distinct.
  - destruct Hwf as [_ Hall]. rewrite Forall_forall in Hall.
    pose proof (Hall t1 (Dictionary_get_values _ _ _ Hhit1)) as Hold. simpl in Hold. lia.
  - rewrite Hset1 in Hhit2.
    rewrite Dictionary_get_set_other in Hhit2 by (done || by apply not_eq_sym).
    destruct Hwf as [_ Hall]. rewrite Forall_forall in Hall.
    pose proof (Hall t2 (Dictionary_get_values _ _ _ Hhit2)) as Hold. simpl in Hold. lia.
  - lia.
Qed.

Lemma getGradient_miss (g : GradientSymb SymbValue) (this : IdMap) (w : World) :
  IdMap.findGradient g this = None ->
  exists r this1 w1,
    IdMap.getGradient drv g this w = (r, this1, w1)
    ∧ ((exists handle tex,
          trace w1 = trace w ++
            [GetImage (symb_ref g) 256 256;
             CreateHandle (ForImageBuffer (gradient_image g) Normal) (Some handle);
             NewTexture tex]
          ∧ r = Some tex ∧ tex_handle tex = handle
          ∧ IdMap.gradients this1 =
              Dictionary.set compareSymb (IdMap.gradients this) g tex
          ∧ IdMap.findGradient g this1 = Some tex)
       ∨ (trace w1 = trace w ++
            [GetImage (symb_ref g) 256 256;
             CreateHandle (ForImageBuffer (gradient_image g) Normal) None]
          ∧ r = None ∧ this1 = this)).
Proof.
  unfold IdMap.findGradient. intros Hmiss. unfold IdMap.getGradient. rewrite Hmiss. run.
  destruct (handleAvailable drv (requests w)); run.
  - eexists _, _, _. split; [reflexivity|]. left. eexists _, _. simpl.
    split; [by rewrite <- !app_assoc|]. split; [done|]. split; [done|]. split; [done|].
    by rewrite (Dictionary_get_set_eq compareSymb compareSymb_refl).
  - eexists _, _, _. split; [reflexivity|]. right. simpl.
    split; [by rewrite <- !app_assoc|done].
Qed.

(** C6. On an IdMap that was made by [new IdMap()] and used through its
    operations, with the comparison of gradient symbols being by structure:
    two symbols of equal value, whatever their references, get the same
    cached texture; two symbols of different value get two textures; and on
    a miss the gradient is first rasterized into a 256 by 256 image buffer,
    then the handle is created from that image, then the texture is made and
    cached under the symbol. *)
Theorem getGradient_by_structure (this : IdMap) (w : World)
    (g1 g2 : GradientSymb SymbValue) :
  reachable drv this w ->
  (symb_value g1 = symb_value g2 ->
   forall tex this1 w1,
     IdMap.getGradient drv g1 this w = (Some tex, this1, w1) ->
     IdMap.getGradient drv g2 this1 w1 = (Some tex, this1, w1))
  ∧ (symb_value g1 ≠ symb_value g2 ->
     forall t1 t2 this1 w1 this2 w2,
       IdMap.getGradient drv g1 this w = (Some t1, this1, w1) ->
       IdMap.getGradient drv g2 this1 w1 = (Some t2, this2, w2) ->
       tex_ref t1 ≠ tex_ref t2)
  ∧ (IdMap.findGradient g1 this = None ->
     exists r this1 w1,
       IdMap.getGradient drv g1 this w = (r, this1, w1)
       ∧ ((exists handle tex,
             trace w1 = trace w ++
               [GetImage (symb_ref g1) 256 256;
                CreateHandle (ForImageBuffer (gradient_image g1) Normal) (Some handle);
                NewTexture tex]
             ∧ r = Some tex ∧ tex_handle tex = handle
             ∧ IdMap.gradients this1 =
                 Dictionary.set compareSymb (IdMap.gradients this) g1 tex
             ∧ IdMap.findGradient g1 this1 = Some tex)
          ∨ (trace w1 = trace w ++
               [GetImage (symb_ref g1) 256 256;
                CreateHandle (ForImageBuffer (gradient_image g1) Normal) None]
             ∧ r = None ∧ this1 = this))).
Proof.
  intros Hreach%reachable_wf. split; [|split].
  - intros Hval tex this1 w1. by apply getGradient_same_value.
  - intros Hne t1 t2 this1 w1 this2 w2. by apply getGradient_different_value.
  - by apply getGradient_miss.
Qed.

End GradientRequests.

Lemma new_reachable : reachable (SymbValue := Z) reliable_driver IdMap.new empty_world.
Proof. exists empty_world, []. reflexivity. Qed.

Lemma getGradient_by_structure_witness :
  symb_ref example_symb ≠ symb_ref example_symb_copy
  ∧ (exists tex this1 w1,
       IdMap.getGradient reliable_driver example_symb IdMap.new empty_world
         = (Some tex, this1, w1)
       ∧ IdMap.getGradient reliable_driver example_symb_copy this1 w1
           = (Some tex, this1, w1))
  ∧ (exists t1 t2 this1 w1 this2 w2,
       IdMap.getGradient reliable_driver example_symb IdMap.new empty_world
         = (Some t1, this1, w1)
       ∧ IdMap.getGradient reliable_driver example_symb_other this1 w1
           = (Some t2, this2, w2)
       ∧ tex_ref t1 ≠ tex_ref t2).
Proof.
  split; [discriminate|]. split.
  - destruct (getGradient_by_structure reliable_driver IdMap.new empty_world
                example_symb example_symb_copy new_reachable) as (Hsame & _ & _).
    eexists _, _, _. split; [cbv; reflexivity|].
    apply (Hsame eq_refl). cbv. reflexivity.
  - destruct (getGradient_by_structure reliable_driver IdMap.new empty_world
                example_symb example_symb_other new_reachable) as (_ & Hdiff & _).
    eexists _, _, _, _, _, _. split; [cbv; reflexivity|]. split; [cbv; reflexivity|].
    eapply Hdiff; [discriminate|cbv; reflexivity|cbv; reflexivity].
Defined.

(** ** Texture units *)

Section JsArrayFacts.
Context {A : Type}.

Lemma JsArray_get_set_eq (a : list (option A)) (i : nat) (x : option A) :
  JsArray.get (JsArray.set a i x) i = x.
Proof.
  unfold JsArray.get, JsArray.set.
  destruct (decide (i < length a)%nat) as [Hlt|Hge].
  - by rewrite list_lookup_insert_eq.
  - rewrite lookup_app_r by lia.
    rewrite lookup_app_r by (rewrite length_replicate; lia).
    rewrite length_replicate. by replace (i - length a - (i - length a))%nat with 0%nat by lia.
Qed.

End JsArrayFacts.

Section TextureBinding.
Context {SymbValue : Type}.

Local Abbreviation System := (System.t SymbValue).

Lemma bindTexture_hit (this : System) (unit : Z) (target : GL.TextureTarget)
    (texture : option Ref) :
  recordedBinding this unit = texture ->
  System.bindTexture unit target texture this = this.
Proof. intros Hrec. unfold System.bindTexture. by rewrite decide_True. Qed.

Lemma bindTexture_miss (this : System) (unit : Z) (target : GL.TextureTarget)
    (texture : option Ref) :
  recordedBinding this unit ≠ texture ->
  System.context (System.bindTexture unit target texture this) =
    System.context this ++ [GL.activeTexture unit; GL.bindTexture target texture]
  ∧ recordedBinding (System.bindTexture unit target texture this) unit = texture.
Proof.
  intros Hrec. unfold System.bindTexture. rewrite decide_False by done.
  unfold recordedBinding. simpl. split; [by rewrite <- app_assoc|].
  apply JsArray_get_set_eq.
Qed.

Lemma bindTexture_records (this : System) (unit : Z) (target : GL.TextureTarget)
    (texture : option Ref) :
  recordedBinding (System.bindTexture unit target texture this) unit = texture.
Proof.
  destruct (decide (recordedBinding this unit = texture)) as [Heq|Hne].
  - by rewrite bindTexture_hit.
  - by apply bindTexture_miss.
Qed.

(** C7. For every texture unit: a bind call issues a driver bind (an
    [activeTexture] and a [bindTexture]) exactly when the requested texture
    differs from the binding recorded for the unit. So of two consecutive
    binds of the same texture on a unit that did not hold it, as 2d texture
    or as cube map, the first issues one driver bind and the second none;
    and a bind of another texture on that unit then issues one more. *)
Theorem bindTexture_rebinds_on_change (this : System) (unit : Z)
    (target target' target'' : GL.TextureTarget) (texture other : option Ref) :
  TextureUnit.Zero <= unit ->
  let first := System.bindTexture unit target texture this in
  let second := System.bindTexture unit target' texture first in
  let third := System.bindTexture unit target'' other second in
  System.context first =
    System.context this ++
      (if decide (recordedBinding this unit = texture) then []
       else [GL.activeTexture unit; GL.bindTexture target texture])
  ∧ second = first
  ∧ (recordedBinding this unit ≠ texture ->
     System.context second =
       System.context this ++ [GL.activeTexture unit; GL.bindTexture target texture])
  ∧ (other ≠ texture ->
     System.context third =
       System.context second ++ [GL.activeTexture unit; GL.bindTexture target'' other])
  ∧ System.bindTexture2d unit texture this = System.bindTexture unit GL.TwoDee texture this
  ∧ System.bindTextureCubeMap unit texture this =
      System.bindTexture unit GL.CubeMap texture this.
Proof.
  intros _ first second third.
  assert (Hsecond : second = first).
  { apply bindTexture_hit, bindTexture_records. }
  split; [|split; [exact Hsecond|split; [|split; [|split]]]].
  - subst first. destruct (decide (recordedBinding this unit = texture)) as [Heq|Hne].
    + rewrite bindTexture_hit by done. by rewrite app_nil_r.
    + by apply bindTexture_miss.
  - intros Hne. rewrite Hsecond. by apply bindTexture_miss.
  - intros Hne. subst third. apply bindTexture_miss.
    rewrite Hsecond. subst first. rewrite bindTexture_records. by apply not_eq_sym.
  - reflexivity.
  - reflexivity.
Qed.

End TextureBinding.

Lemma bindTexture_rebinds_on_change_witness :
  let unit := TextureUnit.Zero + 2 in
  let first := System.bindTexture2d unit (Some 5%nat) example_system in
  let second := System.bindTexture2d unit (Some 5%nat) first in
  let third := System.bindTexture2d unit (Some 6%nat) second in
  System.context second = [GL.activeTexture unit; GL.bindTexture GL.TwoDee (Some 5%nat)]
  ∧ System.context third =
      [GL.activeTexture unit; GL.bindTexture GL.TwoDee (Some 5%nat);
       GL.activeTexture unit; GL.bindTexture GL.TwoDee (Some 6%nat)].
Proof.
  intros unit first second third.
  destruct (bindTexture_rebinds_on_change example_system unit GL.TwoDee GL.TwoDee GL.TwoDee
              (Some 5%nat) (Some 6%nat)) as (_ & _ & Htwo & Hthree & _).
  { unfold unit, TextureUnit.Zero. lia. }
  split.
  - apply Htwo. discriminate.
  - subst third second first. unfold System.bindTexture2d.
    rewrite Hthree by discriminate. rewrite Htwo by discriminate. reflexivity.
Defined.

(** ** Vertex attribute arrays *)

Section VertexAttribArrays.
Context {SymbValue : Type}.

Local Abbreviation System := (System.t SymbValue).

Lemma slotCalls_same (i : nat) (state : Z) : slotCalls i state state = [].
Proof.
  unfold slotCalls. rewrite !Bool.eqb_reflx. simpl. by rewrite andb_false_r.
Qed.

Lemma updateSlot_run (i : nat) (this : System) (o n : Z) (e : ExtensionObject) :
  System._curVertexAttribStates this !! i = Some o ->
  System._nextVertexAttribStates this !! i = Some n ->
  System._instancingExtension this = Some e ->
  System.updateSlot i this = (Returns tt, slotDone i o n this).
Proof.
  intros Hcur Hnext Hext. unfold System.updateSlot. rewrite Hcur, Hnext.
  cbn [default from_option id].
  change (negb (0 =? Z.land VertexAttribState.Enabled o)) with (enabledBit o).
  change (negb (0 =? Z.land VertexAttribState.Enabled n)) with (enabledBit n).
  change (negb (0 =? Z.land VertexAttribState.Instanced o)) with (instancedBit o).
  change (negb (0 =? Z.land VertexAttribState.Instanced n)) with (instancedBit n).
  destruct (Z.eqb_spec o n) as [->|Hne]; cbn [negb].
  - unfold slotDone. rewrite slotCalls_same, app_nil_r.
    rewrite (list_insert_id _ _ _ Hcur).
    unfold System.clearEnabled, clearedState. rewrite Hnext.
    cbn [default from_option id]. by destruct this.
  - unfold slotDone, slotCalls, System.clearEnabled, clearedState.
    destruct (enabledBit o), (enabledBit n), (instancedBit o), (instancedBit n);
      cbn [negb andb Bool.eqb]; rewrite ?Hext;
      unfold System.call, System.with_context, System.with_cur, System.with_next;
      simpl; rewrite ?Hext, ?Hnext; simpl;
      rewrite ?app_nil_r, <- ?app_assoc; reflexivity.
Qed.

End VertexAttribArrays.

Section VertexAttribLoop.
Context {SymbValue : Type}.

Local Abbreviation System := (System.t SymbValue).

Lemma take_S_insert (l : list Z) (i : nat) (x : Z) :
  (i < length l)%nat -> take (S i) (<[i := x]> l) = take i l ++ [x].
Proof.
  intros Hlt. rewrite (take_S_r _ _ x) by (by apply list_lookup_insert_eq).
  by rewrite take_insert_ge.
Qed.

(** The loop, entered at slot [i] with [remaining] slots to go: the slots
    from [i] on are brought from their current to their next state. *)
Lemma updateLoop_run (remaining : nat) :
  forall (i : nat) (this : System) (e : ExtensionObject),
    length (System._curVertexAttribStates this) = length (System._nextVertexAttribStates this) ->
    (i + remaining)%nat = length (System._nextVertexAttribStates this) ->
    System._instancingExtension this = Some e ->
    exists this',
      System.updateLoop remaining i this = (Returns tt, this')
      ∧ System._curVertexAttribStates this' =
          take i (System._curVertexAttribStates this)
          ++ drop i (System._nextVertexAttribStates this)
      ∧ System._nextVertexAttribStates this' =
          take i (System._nextVertexAttribStates this)
          ++ map clearedState (drop i (System._nextVertexAttribStates this))
      ∧ System.context this' =
          System.context this
          ++ pendingCalls i (drop i (System._curVertexAttribStates this))
               (drop i (System._nextVertexAttribStates this))
      ∧ System._textureBindings this' = System._textureBindings this
      ∧ System._instancingExtension this' = System._instancingExtension this.
Proof.
  induction remaining as [|remaining IH]; intros i this e Hlen Hi Hext.
  - exists this. simpl. split; [done|].
    rewrite !drop_ge, !take_ge by lia. simpl. by rewrite !app_nil_r.
  - destruct (lookup_lt_is_Some_2 (System._curVertexAttribStates this) i) as [o Ho]; [lia|].
    destruct (lookup_lt_is_Some_2 (System._nextVertexAttribStates this) i) as [n Hn]; [lia|].
    cbn [System.updateLoop]. rewrite (updateSlot_run i this o n e Ho Hn Hext).
    destruct (IH (S i) (slotDone i o n this) e) as (this' & Hrun & Hcur & Hnext & Hctx & Hb & He).
    { simpl. by rewrite !length_insert. }
    { simpl. rewrite length_insert. lia. }
    { exact Hext. }
    exists this'. split; [exact Hrun|].
    simpl in Hcur, Hnext, Hctx, Hb, He.
    rewrite take_S_insert in Hcur, Hnext by lia.
    rewrite drop_insert_lt in Hcur by lia.
    rewrite drop_insert_lt in Hnext by lia.
    rewrite !drop_insert_lt in Hctx by lia.
    rewrite (drop_S _ _ _ Ho), (drop_S _ _ _ Hn).
    split; [|split; [|split; [|split]]].
    + rewrite Hcur, <- app_assoc. reflexivity.
    + rewrite Hnext, <- app_assoc. reflexivity.
    + rewrite Hctx, <- app_assoc. reflexivity.
    + exact Hb.
    + exact He.
Qed.

Lemma updateVertexAttribArrays_run (this : System) (e : ExtensionObject) :
  length (System._curVertexAttribStates this) = length (System._nextVertexAttribStates this) ->
  System._instancingExtension this = Some e ->
  exists this',
    System.updateVertexAttribArrays this = (Returns tt, this')
    ∧ System._curVertexAttribStates this' = System._nextVertexAttribStates this
    ∧ System._nextVertexAttribStates this' =
        map clearedState (System._nextVertexAttribStates this)
    ∧ System.context this' =
        System.context this
        ++ pendingCalls 0 (System._curVertexAttribStates this)
             (System._nextVertexAttribStates this).
Proof.
  intros Hlen Hext.
  destruct (updateLoop_run (length (System._nextVertexAttribStates this)) 0 this e
              Hlen eq_refl Hext) as (this' & Hrun & Hcur & Hnext & Hctx & _).
  exists this'. rewrite !drop_0, !take_0 in *. by simpl in *.
Qed.

(** Which calls the pass issues. *)
Lemma elem_of_pendingCalls (c : GL.Call) (olds news : list Z) :
  forall i,
    c ∈ pendingCalls i olds news <->
    exists j o n, olds !! j = Some o ∧ news !! j = Some n ∧ c ∈ slotCalls (i + j) o n.
Proof.
  revert news. induction olds as [|o olds IH]; intros news i.
  - simpl. split; [by intros ?%elem_of_nil|]. by intros (j & o & n & ? & _).
  - destruct news as [|n news]; simpl.
    + split; [by intros ?%elem_of_nil|]. by intros (j & o' & n' & _ & ? & _).
    + rewrite elem_of_app, IH. split.
      * intros [Hin|(j & o' & n' & Ho & Hn & Hin)].
        -- exists 0%nat, o, n. by rewrite Nat.add_0_r.
        -- exists (S j), o', n'. by replace (i + S j)%nat with (S i + j)%nat by lia.
      * intros ([|j] & o' & n' & Ho & Hn & Hin).
        -- left. simpl in Ho, Hn. simplify_eq. by rewrite Nat.add_0_r in Hin.
        -- right. exists j, o', n'.
           by replace (i + S j)%nat with (S i + j)%nat in Hin by lia.
Qed.

Lemma elem_of_slotCalls (c : GL.Call) (i : nat) (o n : Z) :
  c ∈ slotCalls i o n <->
    (c = GL.enableVertexAttribArray i ∧ enabledBit o = false ∧ enabledBit n = true)
    ∨ (c = GL.disableVertexAttribArray i ∧ enabledBit o = true ∧ enabledBit n = false)
    ∨ (c = GL.vertexAttribDivisorANGLE i (if instancedBit n then 1 else 0)
       ∧ enabledBit n = true ∧ instancedBit o ≠ instancedBit n).
Proof.
  unfold slotCalls.
  destruct (enabledBit o), (enabledBit n), (instancedBit o), (instancedBit n); simpl;
    rewrite ?elem_of_cons, ?elem_of_nil; intuition congruence.
Qed.

End VertexAttribLoop.

(** The two flags are bit 0 and bit 2 of a state. *)
Lemma enabledBit_testbit (state : Z) : enabledBit state = Z.testbit state 0.
Proof.
  unfold enabledBit, VertexAttribState.Enabled.
  change (Z.shiftl 1 0) with (Z.ones 1).
  rewrite Z.land_comm, Z.land_ones by lia. rewrite Z.bit0_eqb.
  change (2 ^ 1) with 2.
  pose proof (Z.mod_pos_bound state 2 ltac:(lia)) as Hbound.
  destruct (Z.eqb_spec 0 (state mod 2)), (Z.eqb_spec (state mod 2) 1); simpl; lia.
Qed.

Lemma instancedBit_testbit (state : Z) : instancedBit state = Z.testbit state 2.
Proof.
  unfold instancedBit, VertexAttribState.Instanced.
  change (Z.shiftl 1 2) with (2 ^ 2).
  destruct (Z.testbit state 2) eqn:Hbit.
  - destruct (Z.eqb_spec 0 (Z.land (2 ^ 2) state)) as [Hzero|]; [|done].
    assert (Hland : Z.testbit (Z.land (2 ^ 2) state) 2 = true).
    { rewrite Z.land_spec, Hbit, Z.pow2_bits_true by lia. done. }
    rewrite <- Hzero in Hland. by rewrite Z.bits_0 in Hland.
  - assert (Hzero : Z.land (2 ^ 2) state = 0).
    { apply Z.bits_inj'. intros k Hk. rewrite Z.land_spec, Z.bits_0.
      rewrite Z.pow2_bits_eqb by lia.
      destruct (Z.eqb_spec 2 k) as [<-|]; [by rewrite Hbit|done]. }
    by rewrite Hzero.
Qed.

Lemma clearedState_bits (state : Z) :
  enabledBit (clearedState state) = false
  ∧ instancedBit (clearedState state) = instancedBit state.
Proof.
  rewrite enabledBit_testbit, !instancedBit_testbit. unfold clearedState.
  rewrite !Z.land_spec, !Z.lnot_spec by lia.
  change (Z.testbit VertexAttribState.Enabled 0) with true.
  change (Z.testbit VertexAttribState.Enabled 2) with false.
  simpl. by rewrite andb_false_r, andb_true_r.
Qed.

(** ** What a pass comes to *)

Section VertexAttribOutcome.
Context {SymbValue : Type}.

Local Abbreviation System := (System.t SymbValue).

Lemma updateSlot_no_divisor (i : nat) (this : System) (o n : Z) :
  System._curVertexAttribStates this !! i = Some o ->
  System._nextVertexAttribStates this !! i = Some n ->
  needsDivisor o n = false ->
  System.updateSlot i this = (Returns tt, slotDone i o n this).
Proof.
  intros Hcur Hnext Hdiv. unfold System.updateSlot. rewrite Hcur, Hnext.
  cbn [default from_option id].
  change (negb (0 =? Z.land VertexAttribState.Enabled o)) with (enabledBit o).
  change (negb (0 =? Z.land VertexAttribState.Enabled n)) with (enabledBit n).
  change (negb (0 =? Z.land VertexAttribState.Instanced o)) with (instancedBit o).
  change (negb (0 =? Z.land VertexAttribState.Instanced n)) with (instancedBit n).
  destruct (Z.eqb_spec o n) as [->|Hne]; cbn [negb].
  - unfold slotDone. rewrite slotCalls_same, app_nil_r.
    rewrite (list_insert_id _ _ _ Hcur).
    unfold System.clearEnabled, clearedState. rewrite Hnext.
    cbn [default from_option id]. by destruct this.
  - unfold needsDivisor in Hdiv.
    unfold slotDone, slotCalls, System.clearEnabled, clearedState.
    destruct (enabledBit o), (enabledBit n), (instancedBit o), (instancedBit n);
      try discriminate Hdiv;
      cbn [negb andb Bool.eqb];
      unfold System.call, System.with_context, System.with_cur, System.with_next;
      simpl; rewrite ?Hnext; simpl;
      rewrite ?app_nil_r, <- ?app_assoc; reflexivity.
Qed.

Lemma updateSlot_throws (i : nat) (this : System) (o n : Z) :
  System._curVertexAttribStates this !! i = Some o ->
  System._nextVertexAttribStates this !! i = Some n ->
  System._instancingExtension this = None ->
  needsDivisor o n = true ->
  exists this',
    System.updateSlot i this = (Throws (AssertionFailed ""), this')
    ∧ System._curVertexAttribStates this' = System._curVertexAttribStates this
    ∧ System._nextVertexAttribStates this' = System._nextVertexAttribStates this
    ∧ System.context this' =
        System.context this
        ++ (if enabledBit o then [] else [GL.enableVertexAttribArray i]).
Proof.
  intros Hcur Hnext Hext Hdiv. unfold System.updateSlot. rewrite Hcur, Hnext.
  cbn [default from_option id].
  change (negb (0 =? Z.land VertexAttribState.Enabled o)) with (enabledBit o).
  change (negb (0 =? Z.land VertexAttribState.Enabled n)) with (enabledBit n).
  change (negb (0 =? Z.land VertexAttribState.Instanced o)) with (instancedBit o).
  change (negb (0 =? Z.land VertexAttribState.Instanced n)) with (instancedBit n).
  unfold needsDivisor in Hdiv.
  destruct (Z.eqb_spec o n) as [->|Hne]; cbn [negb].
  - rewrite Bool.eqb_reflx, andb_false_r in Hdiv. discriminate Hdiv.
  - destruct (enabledBit o), (enabledBit n), (instancedBit o), (instancedBit n);
      try discriminate Hdiv; cbn [negb andb Bool.eqb];
      unfold System.call, System.with_context; simpl; rewrite Hext;
      eexists; (split; [reflexivity|]); simpl; by rewrite ?app_nil_r.
Qed.

(** The loop returns when no slot from [i] on needs a divisor call that
    cannot be made. *)
Lemma updateLoop_returns (remaining : nat) :
  forall (i : nat) (this : System),
    length (System._curVertexAttribStates this) = length (System._nextVertexAttribStates this) ->
    (i + remaining)%nat = length (System._nextVertexAttribStates this) ->
    (forall j o n, (i <= j)%nat ->
       System._curVertexAttribStates this !! j = Some o ->
       System._nextVertexAttribStates this !! j = Some n ->
       System._instancingExtension this = None -> needsDivisor o n = false) ->
    exists this',
      System.updateLoop remaining i this = (Returns tt, this')
      ∧ System._curVertexAttribStates this' =
          take i (System._curVertexAttribStates this)
          ++ drop i (System._nextVertexAttribStates this)
      ∧ System._nextVertexAttribStates this' =
          take i (System._nextVertexAttribStates this)
          ++ map clearedState (drop i (System._nextVertexAttribStates this))
      ∧ System.context this' =
          System.context this
          ++ pendingCalls i (drop i (System._curVertexAttribStates this))
               (drop i (System._nextVertexAttribStates this)).
Proof.
  induction remaining as [|remaining IH]; intros i this Hlen Hi Hok.
  - exists this. simpl. split; [done|].
    rewrite !drop_ge, !take_ge by lia. simpl. by rewrite !app_nil_r.
  - destruct (lookup_lt_is_Some_2 (System._curVertexAttribStates this) i) as [o Ho]; [lia|].
    destruct (lookup_lt_is_Some_2 (System._nextVertexAttribStates this) i) as [n Hn]; [lia|].
    assert (Hslot : System.updateSlot i this = (Returns tt, slotDone i o n this)).
    { destruct (System._instancingExtension this) as [e|] eqn:Hext.
      - by apply (updateSlot_run i this o n e).
      - apply updateSlot_no_divisor; [done|done|]. by apply (Hok i). }
    cbn [System.updateLoop]. rewrite Hslot.
    destruct (IH (S i) (slotDone i o n this)) as (this' & Hrun & Hcur & Hnext & Hctx).
    { simpl. by rewrite !length_insert. }
    { simpl. rewrite length_insert. lia. }
    { simpl. intros j o' n' Hj Ho' Hn' Hext.
      rewrite list_lookup_insert_ne in Ho' by lia.
      rewrite list_lookup_insert_ne in Hn' by lia.
      apply (Hok j); [lia|done|done|done]. }
    exists this'. split; [exact Hrun|].
    simpl in Hcur, Hnext, Hctx.
    rewrite take_S_insert in Hcur, Hnext by lia.
    rewrite drop_insert_lt in Hcur by lia.
    rewrite drop_insert_lt in Hnext by lia.
    rewrite !drop_insert_lt in Hctx by lia.
    rewrite (drop_S _ _ _ Ho), (drop_S _ _ _ Hn).
    split; [|split].
    + rewrite Hcur, <- app_assoc. reflexivity.
    + rewrite Hnext, <- app_assoc. reflexivity.
    + rewrite Hctx, <- app_assoc. reflexivity.
Qed.

(** The loop throws at the first slot that needs a divisor call when there
    is no instancing extension. *)
Lemma updateLoop_throws (remaining : nat) :
  forall (i k : nat) (this : System) (o n : Z),
    length (System._curVertexAttribStates this) = length (System._nextVertexAttribStates this) ->
    (i + remaining)%nat = length (System._nextVertexAttribStates this) ->
    System._instancingExtension this = None ->
    (i <= k)%nat ->
    System._curVertexAttribStates this !! k = Some o ->
    System._nextVertexAttribStates this !! k = Some n ->
    needsDivisor o n = true ->
    (forall j o' n', (i <= j < k)%nat ->
       System._curVertexAttribStates this !! j = Some o' ->
       System._nextVertexAttribStates this !! j = Some n' -> needsDivisor o' n' = false) ->
    exists this',
      System.updateLoop remaining i this = (Throws (AssertionFailed ""), this')
      ∧ System._curVertexAttribStates this' !! k = Some o
      ∧ System._nextVertexAttribStates this' !! k = Some n.
Proof.
  induction remaining as [|remaining IH]; intros i k this o n Hlen Hi Hext Hik Ho Hn Hdiv Hbefore.
  - apply lookup_lt_Some in Hn. lia.
  - destruct (decide (i = k)) as [->|Hne].
    + destruct (updateSlot_throws k this o n Ho Hn Hext Hdiv)
        as (this' & Hslot & Hcur & Hnext & _).
      exists this'. cbn [System.updateLoop]. rewrite Hslot.
      split; [done|]. by rewrite Hcur, Hnext.
    + destruct (lookup_lt_is_Some_2 (System._curVertexAttribStates this) i) as [oi Hoi].
      { apply lookup_lt_Some in Ho. lia. }
      destruct (lookup_lt_is_Some_2 (System._nextVertexAttribStates this) i) as [ni Hni].
      { apply lookup_lt_Some in Hn. lia. }
      cbn [System.updateLoop].
      rewrite (updateSlot_no_divisor i this oi ni Hoi Hni)
        by (apply (Hbefore i); [lia|done|done]).
      apply (IH (S i) k (slotDone i oi ni this) o n).
      * simpl. by rewrite !length_insert.
      * simpl. rewrite length_insert. lia.
      * exact Hext.
      * lia.
      * simpl. by rewrite list_lookup_insert_ne by lia.
      * simpl. by rewrite list_lookup_insert_ne by lia.
      * exact Hdiv.
      * simpl. intros j o' n' Hj Ho' Hn'.
        rewrite list_lookup_insert_ne in Ho' by lia.
        rewrite list_lookup_insert_ne in Hn' by lia.
        apply (Hbefore j); [lia|done|done].
Qed.

Lemma first_offending (this : System) (k : nat) :
  (forall j, (j < k)%nat -> offends this j = false)
  ∨ (exists k', (k' < k)%nat ∧ offends this k' = true
                ∧ forall j, (j < k')%nat -> offends this j = false).
Proof.
  induction k as [|k [Hnone|Hsome]].
  - left. intros j Hj. lia.
  - destruct (offends this k) eqn:Hk.
    + right. exists k. split; [lia|]. by split.
    + left. intros j Hj. destruct (decide (j = k)) as [->|]; [done|]. apply Hnone. lia.
  - right. destruct Hsome as (k' & Hlt & Hk' & Hfirst). exists k'. split; [lia|]. by split.
Qed.

(** What a pass comes to: it returns, with every slot brought to its next
    state; or, with no instancing extension, it throws at the first slot
    that needs a divisor call. *)
Lemma updateVertexAttribArrays_outcome (this : System) :
  length (System._curVertexAttribStates this) = length (System._nextVertexAttribStates this) ->
  (exists this',
     System.updateVertexAttribArrays this = (Returns tt, this')
     ∧ System._curVertexAttribStates this' = System._nextVertexAttribStates this
     ∧ System._nextVertexAttribStates this' =
         map clearedState (System._nextVertexAttribStates this)
     ∧ System.context this' =
         System.context this
         ++ pendingCalls 0 (System._curVertexAttribStates this)
              (System._nextVertexAttribStates this)
     ∧ (System._instancingExtension this = None -> forall j, offends this j = false))
  ∨ (System._instancingExtension this = None
     ∧ exists k o n this',
         System._curVertexAttribStates this !! k = Some o
         ∧ System._nextVertexAttribStates this !! k = Some n
         ∧ needsDivisor o n = true
         ∧ (forall j, (j < k)%nat -> offends this j = false)
         ∧ System.updateVertexAttribArrays this = (Throws (AssertionFailed ""), this')
         ∧ System._curVertexAttribStates this' !! k = Some o
         ∧ System._nextVertexAttribStates this' !! k = Some n).
Proof.
  intros Hlen. unfold System.updateVertexAttribArrays.
  set (len := length (System._nextVertexAttribStates this)).
  assert (Hreturns :
    (forall j o n,
       System._curVertexAttribStates this !! j = Some o ->
       System._nextVertexAttribStates this !! j = Some n ->
       System._instancingExtension this = None -> needsDivisor o n = false) ->
    exists this',
      System.updateLoop len 0 this = (Returns tt, this')
      ∧ System._curVertexAttribStates this' = System._nextVertexAttribStates this
      ∧ System._nextVertexAttribStates this' =
          map clearedState (System._nextVertexAttribStates this)
      ∧ System.context this' =
          System.context this
          ++ pendingCalls 0 (System._curVertexAttribStates this)
               (System._nextVertexAttribStates this)).
  { intros Hok.
    destruct (updateLoop_returns len 0 this Hlen eq_refl) as (this' & Hrun & Hcur & Hnext & Hctx).
    { intros j o n _. apply Hok. }
    exists this'. rewrite !drop_0, !take_0 in *. by simpl in *. }
  destruct (System._instancingExtension this) as [e|] eqn:Hext.
  - left. destruct Hreturns as (this' & H1 & H2 & H3 & H4); [done|].
    exists this'. by repeat split.
  - destruct (first_offending this len) as [Hnone|(k & Hlt & Hk & Hfirst)].
    + left.
      assert (Hall : forall j, offends this j = false).
      { intros j. destruct (decide (j < len)%nat) as [Hj|Hj]; [by apply Hnone|].
        unfold offends. rewrite (lookup_ge_None_2 (System._nextVertexAttribStates this) j)
          by (fold len; lia).
        by destruct (System._curVertexAttribStates this !! j). }
      destruct Hreturns as (this' & H1 & H2 & H3 & H4).
      { intros j o n Ho Hn _. specialize (Hall j). unfold offends in Hall.
        by rewrite Ho, Hn in Hall. }
      exists this'. by repeat split.
    + right. split; [done|]. unfold offends in Hk.
      destruct (System._curVertexAttribStates this !! k) as [o|] eqn:Ho; [|done].
      destruct (System._nextVertexAttribStates this !! k) as [n|] eqn:Hn; [|done].
      destruct (updateLoop_throws len 0 k this o n Hlen eq_refl Hext ltac:(lia) Ho Hn Hk)
        as (this' & Hrun & Hc & Hx).
      { intros j o' n' Hj Ho' Hn'. specialize (Hfirst j ltac:(lia)).
        unfold offends in Hfirst. by rewrite Ho', Hn' in Hfirst. }
      exists k, o, n, this'. by repeat split.
Qed.

End VertexAttribOutcome.

Section VertexAttribReconciliation.
Context {SymbValue : Type}.

Local Abbreviation System := (System.t SymbValue).

(** C4. With both state arrays of one length, and with the instancing
    extension at hand or no slot in need of a divisor call,
    [updateVertexAttribArrays] returns, and the calls it issues are:
    an enable call for exactly the slots whose enabled bit went from clear to
    set, a disable call for exactly the slots whose enabled bit went from set
    to clear, a divisor call for exactly the slots that are enabled in the
    new state and whose instanced bit changed (with divisor 1 when the bit
    is now set and 0 otherwise), and no other call. After the pass every slot
    of the next-state array has its enabled bit clear and its instanced bit
    as before, and the current-state array is the next-state array that was
    requested. With current = [Enabled at 0] and next = [Enabled at 0,
    InstancedEnabled at 1] the calls are one enable call and one divisor
    call, both for slot 1, and none for slot 0. Without the instancing
    extension, a pass in which some slot needs a divisor call throws a failed
    assertion instead. *)
Theorem updateVertexAttribArrays_reconciles (this : System) :
  length (System._curVertexAttribStates this) = length (System._nextVertexAttribStates this) ->
  let cur := System._curVertexAttribStates this in
  let next := System._nextVertexAttribStates this in
  ((System._instancingExtension this = None -> forall j, offends this j = false) ->
   exists this' issued,
     System.updateVertexAttribArrays this = (Returns tt, this')
     ∧ System.context this' = System.context this ++ issued
     ∧ (forall i, GL.enableVertexAttribArray i ∈ issued <->
          exists o n, cur !! i = Some o ∧ next !! i = Some n
                      ∧ enabledBit o = false ∧ enabledBit n = true)
     ∧ (forall i, GL.disableVertexAttribArray i ∈ issued <->
          exists o n, cur !! i = Some o ∧ next !! i = Some n
                      ∧ enabledBit o = true ∧ enabledBit n = false)
     ∧ (forall i d, GL.vertexAttribDivisorANGLE i d ∈ issued <->
          exists o n, cur !! i = Some o ∧ next !! i = Some n
                      ∧ enabledBit n = true ∧ instancedBit o ≠ instancedBit n
                      ∧ d = if instancedBit n then 1 else 0)
     ∧ (forall c, c ∈ issued ->
          exists i, c = GL.enableVertexAttribArray i ∨ c = GL.disableVertexAttribArray i
                    ∨ exists d, c = GL.vertexAttribDivisorANGLE i d)
     ∧ length (System._nextVertexAttribStates this') = length next
     ∧ (forall i n, next !! i = Some n ->
          exists n', System._nextVertexAttribStates this' !! i = Some n'
                     ∧ enabledBit n' = false ∧ instancedBit n' = instancedBit n)
     ∧ System._curVertexAttribStates this' = next
     ∧ (cur = VertexAttribState.Enabled :: replicate 11 VertexAttribState.Disabled ->
        next = VertexAttribState.Enabled :: VertexAttribState.InstancedEnabled
                 :: replicate 10 VertexAttribState.Disabled ->
        issued = [GL.enableVertexAttribArray 1; GL.vertexAttribDivisorANGLE 1 1]))
  ∧ (System._instancingExtension this = None ->
     forall j, offends this j = true ->
     exists this',
       System.updateVertexAttribArrays this = (Throws (AssertionFailed ""), this')).
Proof.
  intros Hlen cur next. split.
  2: { intros Hext j Hj.
       destruct (updateVertexAttribArrays_outcome this Hlen)
         as [(_ & _ & _ & _ & _ & Hnone)|(_ & k & o & n & this' & _ & _ & _ & _ & Hrun & _)].
       - rewrite (Hnone Hext j) in Hj. discriminate Hj.
       - by exists this'. }
  intros Hable.
  destruct (updateVertexAttribArrays_outcome this Hlen)
    as [(this' & Hrun & Hcur & Hnext & Hctx & _)
       |(Hext & k & o & n & _ & Ho & Hn & Hdiv & _)].
  2: { specialize (Hable Hext k). unfold offends in Hable.
       rewrite Ho, Hn in Hable. congruence. }
  exists this', (pendingCalls 0 cur next).
  split; [exact Hrun|]. split; [exact Hctx|].
  split; [|split; [|split; [|split; [|split; [|split; [|split]]]]]].
  - intros i. rewrite elem_of_pendingCalls. split.
    + intros (j & o & n & Ho & Hn & Hin). simpl in Hin.
      apply elem_of_slotCalls in Hin as [(Hc & ? & ?)|[(Hc & _)|(Hc & _)]];
        [|discriminate Hc|discriminate Hc].
      injection Hc as ->. by exists o, n.
    + intros (o & n & Ho & Hn & ? & ?). exists i, o, n.
      split; [done|]. split; [done|]. apply elem_of_slotCalls. by left.
  - intros i. rewrite elem_of_pendingCalls. split.
    + intros (j & o & n & Ho & Hn & Hin). simpl in Hin.
      apply elem_of_slotCalls in Hin as [(Hc & _)|[(Hc & ? & ?)|(Hc & _)]];
        [discriminate Hc| |discriminate Hc].
      injection Hc as ->. by exists o, n.
    + intros (o & n & Ho & Hn & ? & ?). exists i, o, n.
      split; [done|]. split; [done|]. apply elem_of_slotCalls. right. by left.
  - intros i d. rewrite elem_of_pendingCalls. split.
    + intros (j & o & n & Ho & Hn & Hin). simpl in Hin.
      apply elem_of_slotCalls in Hin as [(Hc & _)|[(Hc & _)|(Hc & ? & ?)]];
        [discriminate Hc|discriminate Hc|].
      injection Hc as -> ->. by exists o, n.
    + intros (o & n & Ho & Hn & ? & ? & ->). exists i, o, n.
      split; [done|]. split; [done|]. apply elem_of_slotCalls. right. by right.
  - intros c (j & o & n & _ & _ & Hin)%elem_of_pendingCalls. simpl in Hin.
    exists j. apply elem_of_slotCalls in Hin as [(-> & _)|[(-> & _)|(-> & _)]]; eauto.
  - by rewrite Hnext, length_map.
  - intros i n Hn. exists (clearedState n). rewrite Hnext, list_lookup_fmap.
    fold next. rewrite Hn. split; [done|]. apply clearedState_bits.
  - exact Hcur.
  - intros -> ->. reflexivity.
Qed.

End VertexAttribReconciliation.

Lemma updateVertexAttribArrays_reconciles_witness :
  System._curVertexAttribStates example_draw =
    VertexAttribState.Enabled :: replicate 11 VertexAttribState.Disabled
  ∧ System._nextVertexAttribStates example_draw =
      VertexAttribState.Enabled :: VertexAttribState.InstancedEnabled
        :: replicate 10 VertexAttribState.Disabled
  ∧ exists this',
      System.updateVertexAttribArrays example_draw = (Returns tt, this')
      ∧ System.context this' =
          System.context example_draw
          ++ [GL.enableVertexAttribArray 1; GL.vertexAttribDivisorANGLE 1 1]
      ∧ System._curVertexAttribStates this' = System._nextVertexAttribStates example_draw.
Proof.
  split; [reflexivity|]. split; [reflexivity|].
  assert (Hlen : length (System._curVertexAttribStates example_draw)
                 = length (System._nextVertexAttribStates example_draw))
    by (vm_compute; reflexivity).
  destruct (updateVertexAttribArrays_reconciles example_draw Hlen) as [Hreturns _].
  destruct Hreturns
    as (this' & issued & Hrun & Hctx & _ & _ & _ & _ & _ & _ & Hcur & Hexample).
  { intros Hnone. vm_compute in Hnone. discriminate Hnone. }
  exists this'. split; [exact Hrun|]. split; [|exact Hcur].
  rewrite Hctx. f_equal. apply Hexample; reflexivity.
Defined.

(** On a System that [System.create] makes for a context that provides only
    OES_element_index_uint, which is all the probe requires, the request of
    an instanced attribute in slot 1 makes the pass throw: slot 1 of the
    next-state array keeps its enabled bit, and slot 1 of the current-state
    array is not the state that was requested. *)
Lemma updateVertexAttribArrays_reconciles_counterexample :
  exists this,
    (System.create (SymbValue := Z) plain_document empty_world).1 = Constructed this
    ∧ let requested := (System.enableVertexAttribArray (Finite 1) true this).2 in
      System._nextVertexAttribStates requested !! 1%nat
        = Some VertexAttribState.InstancedEnabled
      ∧ (exists this',
           System.updateVertexAttribArrays requested = (Throws (AssertionFailed ""), this')
           ∧ System._nextVertexAttribStates this' !! 1%nat
               = Some VertexAttribState.InstancedEnabled
           ∧ System._curVertexAttribStates this' !! 1%nat
               = Some VertexAttribState.Disabled)
      ∧ ¬ (exists this',
             System.updateVertexAttribArrays requested = (Returns tt, this')
             ∧ System._curVertexAttribStates this'
                 = System._nextVertexAttribStates requested).
Proof.
  eexists. split; [vm_compute; reflexivity|].
  cbv zeta. split; [vm_compute; reflexivity|]. split.
  - eexists. split; [vm_compute; reflexivity|]. split; vm_compute; reflexivity.
  - intros (this' & Hrun & _). vm_compute in Hrun. discriminate Hrun.
Qed.

(** ** The close listener *)

Section CloseListener.
Context {SymbValue : Type}.

Lemma removeFirst_absent (entry : EventListener) (listeners : list EventListener) :
  entry ∉ listeners -> BeEvent.removeFirst entry listeners = (false, listeners).
Proof.
  induction listeners as [|context rest IH]; simpl; [done|].
  intros Hnotin. apply not_elem_of_cons in Hnotin as [Hne Hrest].
  rewrite decide_False by done. by rewrite IH.
Qed.

(** The constructor subscribes a bound function; [dispose] asks for the
    removal of the unbound method, which is another function object, so the
    subscription of the constructor stays. *)
Lemma new_dispose_onClose (capabilities : Capabilities.t) (w : World) :
  {| listener := System.removeIModelMap_function; scope := None |}
    ∉ IModelConnection_onClose w ->
  let '(sys, w1) := System.new (SymbValue := SymbValue) capabilities w in
  let '(_, w2) := System.dispose sys w1 in
  IModelConnection_onClose w2 =
    IModelConnection_onClose w ++
      [{| listener :=
            BoundFunction (S (nextRef w)) System.removeIModelMap_function (nextRef w);
          scope := None |}].
Proof.
  intros Hnotin. unfold System.new, System.dispose. run.
  unfold BeEvent.removeListener. simpl.
  rewrite removeFirst_absent; [done|].
  intros [Hin|Hin]%elem_of_app; [done|].
  apply list_elem_of_singleton in Hin. discriminate Hin.
Qed.

End CloseListener.

(** C9. The claim fails on the code: after the constructor and [dispose],
    run in a world with no listener, the listener that the constructor added
    is still subscribed to the close event, and [removeListener] found
    nothing to remove. *)
Theorem System_dispose_keeps_listener :
  let constructed := System.new (SymbValue := Z) example_capabilities empty_world in
  let disposed := System.dispose constructed.1 constructed.2 in
  let added :=
    {| listener := BoundFunction 1%nat System.removeIModelMap_function 0%nat;
       scope := None |} in
  IModelConnection_onClose constructed.2 = [added]
  ∧ IModelConnection_onClose disposed.2 = [added]
  ∧ (BeEvent.removeListener System.removeIModelMap_function None constructed.2).1 = false.
Proof. repeat split. Qed.

(** ** Sheet tiles *)

Section SheetTileFacets.
Variable geo : GeometryCore.
Variables (sheetTileOrigin : Point3d) (sheetTileScale : JsNumber).
Variable polygons : list (list Point3d).

Local Abbreviation wf := (tileFacet geo sheetTileOrigin sheetTileScale polygons).
Local Abbreviation param := (System.sheetTileParam sheetTileOrigin sheetTileScale).

Local Abbreviation builder_ok :=
  (builder_wf geo sheetTileOrigin sheetTileScale polygons).








End SheetTileFacets.



(** The range of a rectangle, and the scale and the parameters of its tile. *)
Section Rectangle.
Variable geo : GeometryCore.
Variables x y z w h : Q.
Hypothesis positive_width : (0 < w)%Q.
Hypothesis positive_height : (0 < h)%Q.






End Rectangle.



(** * Further properties *)

(** ** What the probe stores *)

Section ProbeFacts.
Variable gl : WebGLRenderingContext.

Local Abbreviation probed := (Capabilities.init Capabilities.new gl).2.

Lemma fold_enableExtension_unrequested (extensions : list string) :
  forall (m : gmap string ExtensionObject) (e : string),
    Capabilities.isRequestedExtension e = false ->
    fold_left (Capabilities.enableExtension gl) extensions m !! e = m !! e.
Proof.
  induction extensions as [|ext rest IH]; intros m e Hreq; simpl; [done|].
  rewrite IH by done. rewrite enableExtension_lookup, Hreq.
  by destruct (decide (ext = e)).
Qed.

Lemma probed_own (ext : string) :
  Capabilities._extensionMap probed !! ext ≠ None <->
    Capabilities.isRequestedExtension ext = true ∧ Capabilities.contextProvides gl ext.
Proof.
  rewrite init_extensionMap.
  destruct (Capabilities.isRequestedExtension ext) eqn:Hreq.
  - rewrite loadExtensions_lookup by done. by intuition.
  - unfold Capabilities.loadExtensions.
    destruct (getSupportedExtensions gl) as [extensions|].
    + rewrite fold_enableExtension_unrequested by done. rewrite lookup_empty.
      split; [done|]. by intros [? _].
    + rewrite lookup_empty. split; [done|]. by intros [? _].
Qed.

Lemma probed_query (ext : string) :
  Capabilities.isRequestedExtension ext = true ->
  Capabilities.queryExtensionObject probed ext ≠ None <-> Capabilities.contextProvides gl ext.
Proof.
  intros Hreq. unfold Capabilities.queryExtensionObject.
  rewrite member_requested, probed_own by done. by intuition.
Qed.

(** X1. After [init], the extension map holds an object for exactly the
    extensions of the fixed list that the context lists and can enable, and
    it is the object the context handed out; an extension outside the list
    is never enabled, whatever the context provides. A query finds what the
    map holds, except under the names that every object inherits from
    Object.prototype (constructor, toString and the like): there it always
    finds the inherited member, which is no extension object. Each
    [supports...] getter tells whether the context provides its extension. *)
Theorem init_extensions_exact :
  (forall ext,
     Capabilities._extensionMap probed !! ext ≠ None <->
       Capabilities.isRequestedExtension ext = true ∧ Capabilities.contextProvides gl ext)
  ∧ (forall ext o,
       Capabilities._extensionMap probed !! ext = Some o -> getExtension gl ext = Some o)
  ∧ (forall ext,
       ext ∉ Capabilities.Object_prototype ->
       Capabilities.queryExtensionObject probed ext = Capabilities._extensionMap probed !! ext)
  ∧ (forall ext,
       ext ∈ Capabilities.Object_prototype ->
       Capabilities.queryExtensionObject probed ext = Some (InheritedMember ext))
  ∧ (Capabilities.supportsDrawBuffers probed = true <->
       Capabilities.contextProvides gl "WEBGL_draw_buffers")
  ∧ (Capabilities.supportsInstancing probed = true <->
       Capabilities.contextProvides gl "ANGLE_instanced_arrays")
  ∧ (Capabilities.supportsTextureFloat probed = true <->
       Capabilities.contextProvides gl "OES_texture_float")
  ∧ (Capabilities.supportsTextureHalfFloat probed = true <->
       Capabilities.contextProvides gl "OES_texture_half_float")
  ∧ (Capabilities.supportsShaderTextureLOD probed = true <->
       Capabilities.contextProvides gl "EXT_shader_texture_lod").
Proof.
  split; [exact probed_own|]. split; [|split; [|split]].
  - intros ext o. rewrite init_extensionMap.
    destruct (Capabilities.isRequestedExtension ext) eqn:Hreq.
    + unfold Capabilities.loadExtensions.
      destruct (getSupportedExtensions gl) as [extensions|]; [|by rewrite lookup_empty].
      rewrite fold_enableExtension_lookup by done. rewrite lookup_empty.
      destruct (decide (ext ∈ extensions)); [|done].
      by destruct (getExtension gl ext).
    + unfold Capabilities.loadExtensions.
      destruct (getSupportedExtensions gl) as [extensions|]; [|by rewrite lookup_empty].
      rewrite fold_enableExtension_unrequested by done. by rewrite lookup_empty.
  - intros ext Hout. unfold Capabilities.queryExtensionObject, Capabilities.member.
    destruct (Capabilities._extensionMap probed !! ext); [done|].
    by rewrite bool_decide_eq_false_2.
  - intros ext Hin. unfold Capabilities.queryExtensionObject, Capabilities.member.
    destruct (Capabilities._extensionMap probed !! ext) as [o|] eqn:Hown.
    + assert (Hreq : Capabilities.isRequestedExtension ext = true).
      { apply probed_own. by rewrite Hown. }
      exfalso. revert Hin. unfold Capabilities.Object_prototype. intros Hin.
      repeat (apply elem_of_cons in Hin as [->|Hin]; [discriminate Hreq|]).
      by apply elem_of_nil in Hin.
    + by rewrite bool_decide_eq_true_2.
  - unfold Capabilities.supportsDrawBuffers, Capabilities.supportsInstancing,
      Capabilities.supportsTextureFloat, Capabilities.supportsTextureHalfFloat,
      Capabilities.supportsShaderTextureLOD.
    rewrite !bool_decide_eq_true.
    split; [|split; [|split; [|split]]]; by apply probed_query.
Qed.

Lemma probed_drawBuffers_limits :
  Capabilities.maxColorAttachments probed =
    match Capabilities.loadExtensions gl ∅ !! "WEBGL_draw_buffers" with
    | Some _ => MAX_COLOR_ATTACHMENTS_WEBGL gl
    | None => 1
    end
  ∧ Capabilities.maxDrawBuffers probed =
      match Capabilities.loadExtensions gl ∅ !! "WEBGL_draw_buffers" with
      | Some _ => MAX_DRAW_BUFFERS_WEBGL gl
      | None => 1
      end.
Proof.
  rewrite <- (member_requested _ "WEBGL_draw_buffers") by reflexivity.
  split; reflexivity.
Qed.

(** X2. The color attachment and draw buffer limits are those of
    WEBGL_draw_buffers when the context provides it, and 1 otherwise; so
    transparency and pick shaders with multiple render targets are supported
    exactly when the extension is provided and allows 2, respectively 4,
    color attachments. *)
Theorem init_multiple_render_targets :
  (Capabilities.contextProvides gl "WEBGL_draw_buffers" ->
     Capabilities.maxColorAttachments probed = MAX_COLOR_ATTACHMENTS_WEBGL gl
     ∧ Capabilities.maxDrawBuffers probed = MAX_DRAW_BUFFERS_WEBGL gl)
  ∧ (¬ Capabilities.contextProvides gl "WEBGL_draw_buffers" ->
     Capabilities.maxColorAttachments probed = 1
     ∧ Capabilities.maxDrawBuffers probed = 1
     ∧ Capabilities.supportsMRTTransparency probed = false
     ∧ Capabilities.supportsMRTPickShaders probed = false)
  ∧ (Capabilities.supportsMRTTransparency probed = true <->
       Capabilities.contextProvides gl "WEBGL_draw_buffers"
       ∧ 2 <= MAX_COLOR_ATTACHMENTS_WEBGL gl)
  ∧ (Capabilities.supportsMRTPickShaders probed = true <->
       Capabilities.contextProvides gl "WEBGL_draw_buffers"
       ∧ 4 <= MAX_COLOR_ATTACHMENTS_WEBGL gl).
Proof.
  pose proof (loadExtensions_lookup gl "WEBGL_draw_buffers" eq_refl) as Hiff.
  destruct probed_drawBuffers_limits as [Hca Hdb].
  unfold Capabilities.supportsMRTTransparency, Capabilities.supportsMRTPickShaders.
  rewrite Hca, Hdb.
  destruct (Capabilities.loadExtensions gl ∅ !! "WEBGL_draw_buffers") as [o|].
  - assert (Hprov : Capabilities.contextProvides gl "WEBGL_draw_buffers") by by apply Hiff.
    split; [done|]. split; [done|]. rewrite !Z.leb_le. by intuition.
  - assert (Hnot : ¬ Capabilities.contextProvides gl "WEBGL_draw_buffers").
    { intros Hprov. by apply Hiff in Hprov. }
    split; [done|]. split; [done|]. split; (split; [done|]); by intros [? _].
Qed.

Lemma probed_maxRenderType :
  Capabilities.maxRenderType probed =
    if framebufferComplete gl FLOAT then RenderType.TextureFloat
    else match Capabilities.loadExtensions gl ∅ !! "OES_texture_half_float" with
         | Some _ =>
             if framebufferComplete gl HALF_FLOAT_OES then RenderType.TextureHalfFloat
             else RenderType.TextureUnsignedByte
         | None => RenderType.TextureUnsignedByte
         end.
Proof.
  rewrite <- (member_requested _ "OES_texture_half_float") by reflexivity.
  reflexivity.
Qed.

(** X3. The render type is TextureFloat exactly when a float texture is
    renderable, whether or not OES_texture_float is provided; it is
    TextureHalfFloat exactly when a float texture is not renderable, the
    context provides OES_texture_half_float and a half float texture is
    renderable; and TextureUnsignedByte in every other case. *)
Theorem init_maxRenderType :
  (Capabilities.maxRenderType probed = RenderType.TextureFloat <->
     framebufferComplete gl FLOAT = true)
  ∧ (Capabilities.maxRenderType probed = RenderType.TextureHalfFloat <->
       framebufferComplete gl FLOAT = false
       ∧ Capabilities.contextProvides gl "OES_texture_half_float"
       ∧ framebufferComplete gl HALF_FLOAT_OES = true)
  ∧ (Capabilities.maxRenderType probed = RenderType.TextureUnsignedByte <->
       framebufferComplete gl FLOAT = false
       ∧ ¬ (Capabilities.contextProvides gl "OES_texture_half_float"
            ∧ framebufferComplete gl HALF_FLOAT_OES = true)).
Proof.
  pose proof (loadExtensions_lookup gl "OES_texture_half_float" eq_refl) as Hiff.
  rewrite probed_maxRenderType.
  unfold RenderType.TextureFloat, RenderType.TextureHalfFloat,
    RenderType.TextureUnsignedByte.
  destruct (framebufferComplete gl FLOAT).
  - split; [done|]. split; (split; [done|]); by intros [? _].
  - destruct (Capabilities.loadExtensions gl ∅ !! "OES_texture_half_float") as [o|].
    + assert (Hprov : Capabilities.contextProvides gl "OES_texture_half_float")
        by by apply Hiff.
      destruct (framebufferComplete gl HALF_FLOAT_OES).
      * split; [done|]. split; [done|]. split; [done|]. intros [_ Hno]. by destruct Hno.
      * split; [done|]. split.
        -- split; [done|]. by intros (_ & _ & ?).
        -- split; [|done]. intros _. split; [done|]. by intros [_ ?].
    + assert (Hnot : ¬ Capabilities.contextProvides gl "OES_texture_half_float").
      { intros Hprov. by apply Hiff in Hprov. }
      split; [done|]. split.
      * split; [done|]. by intros (_ & ? & _).
      * split; [|done]. intros _. split; [done|]. by intros [? _].
Qed.

End ProbeFacts.

(** ** Creating the System *)

Section CreateFacts.
Context {SymbValue : Type}.

(** X4. [System.create] constructs a System exactly when the canvas has a
    context and that context passes the capabilities probe; the System then
    holds the probed capabilities and an empty resource cache, and one
    listener has been added to the close event. When [create] throws, the
    world is as before: nothing is subscribed. The "experimental-webgl"
    context is asked for only when there is no "webgl" context: a "webgl"
    context that fails the probe makes [create] throw whatever the other
    context is. *)
Theorem System_create_outcome (document : Document) (w : World) :
  match System.create (SymbValue := SymbValue) document w with
  | (Constructed sys, w') =>
      exists context,
        chosenContext document = Some context
        ∧ Capabilities.create context = Some (System.capabilities sys)
        ∧ System.resourceCache sys = []
        ∧ System.context sys = []
        ∧ exists added,
            IModelConnection_onClose w' = IModelConnection_onClose w ++ [added]
  | (ThrowsIModelError msg, w') =>
      w' = w
      ∧ (chosenContext document = None
         ∨ exists context,
             chosenContext document = Some context ∧ Capabilities.create context = None)
  end
  ∧ (forall canvas context,
       createCanvas document = Some canvas ->
       getContext canvas "webgl" = Some context ->
       Capabilities.create context = None ->
       System.create (SymbValue := SymbValue) document w =
         (ThrowsIModelError "Failed to initialize rendering capabilities", w)).
Proof.
  unfold System.create, chosenContext. split.
  - destruct (createCanvas document) as [canvas|]; [|by (split; [|left])].
    destruct (getContext canvas "webgl") as [context|].
    + destruct (Capabilities.create context) as [caps|] eqn:Hcaps.
      * run. exists context. repeat split; try done. by eexists.
      * split; [done|]. right. by exists context.
    + destruct (getContext canvas "experimental-webgl") as [context|];
        [|by (split; [|left])].
      destruct (Capabilities.create context) as [caps|] eqn:Hcaps.
      * run. exists context. repeat split; try done. by eexists.
      * split; [done|]. right. by exists context.
  - intros canvas context -> -> ->. reflexivity.
Qed.

End CreateFacts.

(** ** The resource cache of the System *)

Section JsMapMore.
Context {K V : Type} `{EqDecision K}.

Lemma JsMap_set_same (m : list (K * V)) (k : K) (x : V) :
  JsMap.get m k = Some x -> JsMap.set m k x = m.
Proof.
  induction m as [|[k' x'] m IH]; simpl; [done|].
  destruct (decide (k' = k)) as [->|Hne].
  - by intros [= ->].
  - intros Hget. by rewrite IH.
Qed.

Lemma JsMap_get_None_keys (m : list (K * V)) (k : K) :
  JsMap.get m k = None <-> k ∉ map fst m.
Proof.
  induction m as [|[k' x'] m IH]; simpl.
  - split; [intros _; apply not_elem_of_nil|done].
  - rewrite not_elem_of_cons. destruct (decide (k' = k)) as [->|Hne].
    + split; [done|]. by intros [? _].
    + rewrite IH. split; [by split|by intros [_ ?]].
Qed.

Lemma JsMap_get_delete_ne (m : list (K * V)) (k k' : K) :
  k ≠ k' -> JsMap.get (JsMap.delete m k) k' = JsMap.get m k'.
Proof.
  intros Hne. induction m as [|[k0 x0] m IH]; simpl; [done|].
  destruct (decide (k0 = k)) as [->|Hne0]; simpl.
  - by destruct (decide (k = k')).
  - destruct (decide (k0 = k')); [done|exact IH].
Qed.

(** A [Map] holds a key once. *)
Lemma JsMap_get_delete_eq (m : list (K * V)) (k : K) :
  NoDup (map fst m) -> JsMap.get (JsMap.delete m k) k = None.
Proof.
  induction m as [|[k0 x0] m IH]; simpl; [done|].
  intros [Hnotin Hnodup]%NoDup_cons.
  destruct (decide (k0 = k)) as [->|Hne]; simpl.
  - by apply JsMap_get_None_keys.
  - rewrite decide_False by done. by apply IH.
Qed.

Lemma JsMap_set_keys (m : list (K * V)) (k : K) (x : V) :
  map fst (JsMap.set m k x) =
    if decide (k ∈ map fst m) then map fst m else map fst m ++ [k].
Proof.
  induction m as [|[k0 x0] m IH].
  - cbn [JsMap.set map fst]. destruct (decide (k ∈ [])) as [Hin|_]; [|done].
    by apply elem_of_nil in Hin.
  - cbn [JsMap.set]. destruct (decide (k0 = k)) as [->|Hne]; cbn [map fst].
    + destruct (decide (k ∈ k :: map fst m)) as [_|Hnin]; [done|].
      exfalso. apply Hnin, elem_of_cons. by left.
    + rewrite IH. destruct (decide (k ∈ map fst m)) as [Hin|Hnin];
        destruct (decide (k ∈ k0 :: map fst m)) as [Hin'|Hnin']; try done.
      * exfalso. apply Hnin', elem_of_cons. by right.
      * exfalso. apply elem_of_cons in Hin' as [?|?]; congruence.
Qed.

Lemma JsMap_set_NoDup (m : list (K * V)) (k : K) (x : V) :
  NoDup (map fst m) -> NoDup (map fst (JsMap.set m k x)).
Proof.
  intros Hnodup. rewrite JsMap_set_keys.
  destruct (decide (k ∈ map fst m)) as [Hin|Hnin]; [done|].
  apply NoDup_app. split; [done|]. split; [|apply NoDup_singleton].
  intros k' Hin ->%list_elem_of_singleton. done.
Qed.

End JsMapMore.

Section ResourceCache.
Context {SymbValue : Type} `{SymbOps SymbValue} (drv : Driver).

Local Abbreviation System := (System.t SymbValue).

Lemma getIdMap_cache (imodel : Ref) (this : System) :
  JsMap.get (System.resourceCache (System.getIdMap imodel this).2) imodel =
    Some (System.getIdMap imodel this).1
  ∧ (forall other, other ≠ imodel ->
       JsMap.get (System.resourceCache (System.getIdMap imodel this).2) other =
         JsMap.get (System.resourceCache this) other)
  ∧ (JsMap.get (System.resourceCache this) imodel = None ->
     (System.getIdMap imodel this).1 = IdMap.new).
Proof.
  unfold System.getIdMap, System.createIModelMap.
  destruct (JsMap.get (System.resourceCache this) imodel) as [idMap|] eqn:Hget; simpl.
  - by rewrite Hget.
  - rewrite JsMap_get_set_eq. split; [done|]. split; [|done].
    intros other Hne. by rewrite JsMap_get_set_ne.
Qed.

Lemma storeIdMap_cache (imodel : Ref) (idMap : IdMap.t SymbValue) (this : System) :
  JsMap.get (System.resourceCache (System.storeIdMap imodel idMap this)) imodel = Some idMap
  ∧ (forall other, other ≠ imodel ->
       JsMap.get (System.resourceCache (System.storeIdMap imodel idMap this)) other =
         JsMap.get (System.resourceCache this) other).
Proof.
  unfold System.storeIdMap. simpl. rewrite JsMap_get_set_eq. split; [done|].
  intros other Hne. by rewrite JsMap_get_set_ne.
Qed.

Lemma storeIdMap_same (imodel : Ref) (idMap : IdMap.t SymbValue) (this : System) :
  JsMap.get (System.resourceCache this) imodel = Some idMap ->
  System.storeIdMap imodel idMap this = this.
Proof.
  intros Hget. unfold System.storeIdMap. rewrite (JsMap_set_same _ _ _ Hget).
  by destruct this.
Qed.

(** What an entry point does to the cache: the IdMap of the connection is
    replaced by the IdMap after the request; the other entries stay. *)
Lemma serve_cache (r : ResourceRequest SymbValue) (imodel : Ref) (this : System) (w : World) :
  is_Some (JsMap.get (System.resourceCache (serve drv r imodel this w).1) imodel)
  ∧ (forall other, other ≠ imodel ->
       JsMap.get (System.resourceCache (serve drv r imodel this w).1) other =
         JsMap.get (System.resourceCache this) other).
Proof.
  destruct (getIdMap_cache imodel this) as (_ & Hother & _).
  destruct (System.getIdMap imodel this) as [idMap this1] eqn:Hid. simpl in *.
  destruct r; simpl;
    unfold System.createMaterial, System.createTextureFromImageBuffer,
      System.createTextureFromImage, System.createTextureFromCubeImages,
      System.getGradientTexture, System.getClipVolume;
    rewrite Hid; unfold mbind, M_bind, ret, mret, M_ret;
    match goal with
    | |- context [let '(a, w') := ?c w in _] => destruct (c w) as [[res idMap'] w1]
    end; simpl;
    (split; [rewrite JsMap_get_set_eq; by eexists|]);
    intros other Hne; rewrite JsMap_get_set_ne by done; by apply Hother.
Qed.

End ResourceCache.

Section ResourceCacheFacts.
Context {SymbValue : Type} `{SymbOps SymbValue} (drv : Driver).

Local Abbreviation System := (System.t SymbValue).

Lemma getMaterial_found (params : RenderMaterial.Params) (key : string)
    (this : IdMap.t SymbValue) (w : World) :
  truthy (RenderMaterial.key params) = Some key ->
  JsMap.get (IdMap.materials (IdMap.getMaterial params this w).1.2) key =
    Some (IdMap.getMaterial params this w).1.1.
Proof.
  intros Hkey. unfold IdMap.getMaterial. rewrite Hkey.
  destruct (JsMap.get (IdMap.materials this) key) as [material|] eqn:Hget; run; [done|].
  by rewrite JsMap_get_set_eq.
Qed.

Lemma getTexture_found (img : ImageBuffer) (params : RenderTexture.Params) (key : string)
    (this this1 : IdMap.t SymbValue) (w w1 : World) (tex : Texture) :
  truthy (RenderTexture.key params) = Some key ->
  IdMap.getTexture drv img params this w = (Some tex, this1, w1) ->
  JsMap.get (IdMap.textures this1) key = Some tex.
Proof.
  intros Hkey. destruct (truthy_Some _ _ Hkey) as [Hk Hne].
  unfold IdMap.getTexture. rewrite Hk. simpl.
  destruct (JsMap.get (IdMap.textures this) key) as [tex0|] eqn:Hget; run.
  - by intros [= <- <- <-].
  - destruct (handleAvailable drv (requests w)); run; [|done].
    unfold IdMap.addTexture. simpl. rewrite Hkey.
    intros [= <- <- <-]. simpl. by rewrite JsMap_get_set_eq.
Qed.

(** X5. Through the System: a material created for a connection with a
    non-empty key is found by [findMaterial] under that key for that
    connection, and creating it again returns the identical instance and
    leaves the System and the world as they are. The same holds for a
    texture created from an image buffer, when the first request yields
    one. The connection needs no IdMap beforehand: it is made on the first
    request. *)
Theorem System_create_then_find (this : System) (w : World) (imodel : Ref) :
  (forall params params' key,
     truthy (RenderMaterial.key params) = Some key ->
     RenderMaterial.key params' = RenderMaterial.key params ->
     exists material this1 w1,
       System.createMaterial params imodel this w = (material, this1, w1)
       ∧ System.findMaterial key imodel this1 = Some material
       ∧ System.createMaterial params' imodel this1 w1 = (material, this1, w1))
  ∧ (forall image image' params params' key tex this1 w1,
       truthy (RenderTexture.key params) = Some key ->
       RenderTexture.key params' = RenderTexture.key params ->
       System.createTextureFromImageBuffer drv image imodel params this w
         = (Some tex, this1, w1) ->
       System.findTexture key imodel this1 = Some tex
       ∧ System.createTextureFromImageBuffer drv image' imodel params' this1 w1
           = (Some tex, this1, w1)).
Proof.
  destruct (getIdMap_cache imodel this) as (Hget & _ & _).
  destruct (System.getIdMap imodel this) as [idMap this0] eqn:Hid. simpl in Hget.
  split.
  - intros params params' key Hkey Hsame.
    destruct (getMaterial_twice params params' key idMap w Hkey Hsame)
      as (material & idMap1 & w1 & Hfirst & Hsecond & _).
    pose proof (getMaterial_found params key idMap w Hkey) as Hfound.
    rewrite Hfirst in Hfound. simpl in Hfound.
    destruct (storeIdMap_cache imodel idMap1 this0) as [Hstored _].
    exists material, (System.storeIdMap imodel idMap1 this0), w1.
    split; [|split].
    + unfold System.createMaterial. rewrite Hid.
      unfold mbind, M_bind, ret, mret, M_ret. by rewrite Hfirst.
    + unfold System.findMaterial. rewrite Hstored. exact Hfound.
    + unfold System.createMaterial, System.getIdMap. rewrite Hstored.
      unfold mbind, M_bind, ret, mret, M_ret. rewrite Hsecond. simpl.
      by rewrite (storeIdMap_same _ _ _ Hstored).
  - intros image image' params params' key tex this1 w1 Hkey Hsame.
    unfold System.createTextureFromImageBuffer at 1. rewrite Hid.
    unfold mbind, M_bind, ret, mret, M_ret.
    destruct (IdMap.getTexture drv image params idMap w) as [[res idMap1] w1'] eqn:Hfirst.
    simpl. intros [= -> <- ->].
    destruct (getTexture_twice drv image image' params params' key idMap idMap1 w w1 tex
                Hkey Hsame Hfirst) as [Hsecond _].
    pose proof (getTexture_found image params key idMap idMap1 w w1 tex Hkey Hfirst)
      as Hfound.
    destruct (storeIdMap_cache imodel idMap1 this0) as [Hstored _].
    split.
    + unfold System.findTexture. rewrite Hstored. exact Hfound.
    + unfold System.createTextureFromImageBuffer, System.getIdMap. rewrite Hstored.
      unfold mbind, M_bind, ret, mret, M_ret. rewrite Hsecond. simpl.
      by rewrite (storeIdMap_same _ _ _ Hstored).
Qed.

(** X6. A request for a resource of one connection changes the cache entry
    of that connection only: the IdMap of every other connection, and so
    what [findMaterial] and [findTexture] answer for it, is as before. The
    connection served has an IdMap afterwards. *)
Theorem System_requests_isolated (r : ResourceRequest SymbValue) (imodel other : Ref)
    (this : System) (w : World) :
  other ≠ imodel ->
  let this' := (serve drv r imodel this w).1 in
  JsMap.get (System.resourceCache this') other = JsMap.get (System.resourceCache this) other
  ∧ (forall key, System.findMaterial key other this' = System.findMaterial key other this)
  ∧ (forall key, System.findTexture key other this' = System.findTexture key other this)
  ∧ is_Some (JsMap.get (System.resourceCache this') imodel).
Proof.
  intros Hne this'.
  destruct (serve_cache drv r imodel this w) as (Hsome & Hother).
  specialize (Hother other Hne). fold this' in Hother, Hsome.
  split; [exact Hother|]. split; [|split; [|exact Hsome]].
  - intros key. unfold System.findMaterial. by rewrite Hother.
  - intros key. unfold System.findTexture. by rewrite Hother.
Qed.

End ResourceCacheFacts.

Lemma System_create_then_find_witness :
  exists material this1 w1,
    System.createMaterial brick_material example_connection example_system empty_world
      = (material, this1, w1)
    ∧ System.findMaterial "brick" example_connection this1 = Some material
    ∧ System.createMaterial brick_material example_connection this1 w1
        = (material, this1, w1).
Proof.
  destruct (System_create_then_find reliable_driver example_system empty_world
              example_connection) as [Hmat _].
  exact (Hmat brick_material brick_material "brick" eq_refl eq_refl).
Defined.

Lemma System_requests_isolated_witness :
  let this' :=
    (serve reliable_driver (RequestMaterial brick_material) example_connection
       example_system empty_world).1 in
  System.findMaterial "brick" other_connection this' = None
  ∧ is_Some (JsMap.get (System.resourceCache this') example_connection).
Proof.
  destruct (System_requests_isolated reliable_driver (RequestMaterial brick_material)
              example_connection other_connection example_system empty_world)
    as (_ & Hmat & _ & Hsome).
  { discriminate. }
  split; [|exact Hsome]. rewrite Hmat. reflexivity.
Defined.

Section ConnectionClose.
Context {SymbValue : Type} `{SymbOps SymbValue}.

Local Abbreviation System := (System.t SymbValue).

(** X7. Closing a connection: [removeIModelMap] of a connection that has an
    IdMap releases the textures, gradient textures and clip volumes of that
    IdMap and takes the entry out of the cache, so that nothing is found for
    the connection any more, materials included, and the next request for
    it starts from a new, empty IdMap; the entries of the other connections
    stay. For a connection without an IdMap it does nothing. *)
Theorem removeIModelMap_closes (this : System) (w : World) (imodel : Ref) :
  NoDup (map fst (System.resourceCache this)) ->
  (forall idMap,
     JsMap.get (System.resourceCache this) imodel = Some idMap ->
     let '(this1, w1) := System.removeIModelMap imodel this w in
     trace w1 = trace w ++ released idMap
     ∧ JsMap.get (System.resourceCache this1) imodel = None
     ∧ (forall key, System.findMaterial key imodel this1 = None)
     ∧ (forall key, System.findTexture key imodel this1 = None)
     ∧ (System.getIdMap imodel this1).1 = IdMap.new
     ∧ (forall other, other ≠ imodel ->
          JsMap.get (System.resourceCache this1) other =
            JsMap.get (System.resourceCache this) other)
     ∧ NoDup (map fst (System.resourceCache this1)))
  ∧ (JsMap.get (System.resourceCache this) imodel = None ->
     System.removeIModelMap imodel this w = (this, w)).
Proof.
  intros Hnodup. split.
  - intros idMap Hget. unfold System.removeIModelMap. rewrite Hget.
    unfold mbind, M_bind, ret, mret, M_ret. rewrite dispose_run. simpl.
    pose proof (JsMap_get_delete_eq (System.resourceCache this) imodel Hnodup) as Hgone.
    split; [done|]. split; [exact Hgone|]. split; [|split; [|split; [|split]]].
    + intros key. unfold System.findMaterial. simpl. by rewrite Hgone.
    + intros key. unfold System.findTexture. simpl. by rewrite Hgone.
    + unfold System.getIdMap, System.createIModelMap. simpl. by rewrite Hgone.
    + intros other Hne. by apply JsMap_get_delete_ne.
    + clear Hget Hgone. induction (System.resourceCache this) as [|[k x] m IH];
        simpl in *; [done|].
      apply NoDup_cons in Hnodup as [Hnotin Hnodup].
      destruct (decide (k = imodel)); [done|]. simpl. apply NoDup_cons. split; [|by apply IH].
      intros Hin. apply Hnotin. clear IH Hnodup Hnotin.
      induction m as [|[k' x'] m IH]; simpl in *; [done|].
      destruct (decide (k' = imodel)).
      * apply elem_of_cons. by right.
      * simpl in Hin. apply elem_of_cons in Hin as [->|Hin];
          apply elem_of_cons; [by left|right; by apply IH].
  - intros Hnone. unfold System.removeIModelMap. by rewrite Hnone.
Qed.

Lemma forEach_dispose (idMaps : list (IdMap.t SymbValue)) (w : World) :
  forEach idMaps (fun idMap => IdMap.dispose idMap ;; ret tt) w =
    (tt, {| nextRef := nextRef w; requests := requests w;
            trace := trace w ++ concat (map released idMaps);
            IModelConnection_onClose := IModelConnection_onClose w |}).
Proof.
  revert w. induction idMaps as [|idMap idMaps IH]; intros w; simpl.
  - unfold ret, mret, M_ret. rewrite app_nil_r. by destruct w.
  - unfold mbind, M_bind at 1. unfold mbind, M_bind at 1. rewrite dispose_run.
    unfold ret at 1, mret, M_ret. rewrite IH. simpl. by rewrite <- app_assoc.
Qed.

(** X8. [System.dispose] disposes the techniques and the two textures the
    System owns, then releases the resources of the IdMap of every
    connection, in the order of the cache, and empties the cache. Disposing
    the System again releases nothing. *)
Theorem System_dispose_releases (this : System) (w : World) :
  let '(this1, w1) := System.dispose this w in
  trace w1 =
    trace w ++ memberEvents this
    ++ concat (map released (JsMap.values (System.resourceCache this)))
  ∧ System.resourceCache this1 = []
  ∧ System._techniques this1 = None
  ∧ System._lineCodeTexture this1 = None
  ∧ System._noiseTexture this1 = None
  ∧ (System.dispose this1 w1).1 = this1
  ∧ trace (System.dispose this1 w1).2 = trace w1.
Proof.
  unfold System.dispose, System.disposeMember, memberEvents.
  unfold mbind, M_bind. 
  destruct (System._techniques this), (System._lineCodeTexture this),
    (System._noiseTexture this);
    unfold emit, ret, mret, M_ret; simpl; rewrite forEach_dispose; simpl;
    unfold BeEvent.removeListener; simpl;
    destruct (BeEvent.removeFirst _ _) as [found listeners]; simpl;
    destruct (BeEvent.removeFirst _ listeners) as [found' listeners'];
    rewrite ?app_nil_r, <- ?app_assoc; simpl; repeat split.
Qed.

End ConnectionClose.

Section DetachedTexture.
Context {SymbValue : Type} `{SymbOps SymbValue} (drv : Driver).

(** X9. A texture created from an image for no connection is never cached:
    whatever its key, the resource cache is as before, so no IdMap is
    created or changed; and two such requests that the driver serves make two
    textures, also with equal keys. When the driver has no handle the result
    is [undefined]. *)
Theorem createTextureFromImage_detached (this : System.t SymbValue) (w : World)
    (image : Ref) (hasAlpha : bool) (params : RenderTexture.Params) :
  let '(r1, this1, w1) := System.createTextureFromImage drv image hasAlpha None params this w in
  let '(r2, this2, w2) := System.createTextureFromImage drv image hasAlpha None params this1 w1 in
  System.resourceCache this1 = System.resourceCache this
  ∧ System.resourceCache this2 = System.resourceCache this
  ∧ (r1 = None <-> handleAvailable drv (requests w) = false)
  ∧ (forall t1 t2, r1 = Some t1 -> r2 = Some t2 -> tex_ref t1 ≠ tex_ref t2).
Proof.
  unfold System.createTextureFromImage. run.
  destruct (handleAvailable drv (requests w)); run;
    destruct (handleAvailable drv (S (requests w))); run;
    repeat split; try done; intros; simplify_eq; simpl; lia.
Qed.

End DetachedTexture.

Lemma removeIModelMap_closes_witness :
  let '(this1, w1) :=
    System.removeIModelMap example_connection example_textured.1 example_textured.2 in
  System.findTexture "brick" example_connection example_textured.1 ≠ None
  ∧ System.findTexture "brick" example_connection this1 = None
  ∧ (System.getIdMap example_connection this1).1 = IdMap.new.
Proof.
  destruct (removeIModelMap_closes example_textured.1 example_textured.2 example_connection)
    as [Hclose _].
  { apply NoDup_singleton. }
  assert (Hget : exists idMap,
            JsMap.get (System.resourceCache example_textured.1) example_connection
              = Some idMap) by (eexists; reflexivity).
  destruct Hget as [idMap Hget]. specialize (Hclose idMap Hget).
  destruct (System.removeIModelMap example_connection example_textured.1 example_textured.2)
    as [this1 w1].
  destruct Hclose as (_ & _ & _ & Htex & Hnew & _).
  split; [discriminate|]. split; [apply Htex|exact Hnew].
Defined.

(** ** More on the IdMap *)

Section IdMapMore.
Context {SymbValue : Type} `{SymbOps SymbValue} (drv : Driver).

Local Abbreviation IdMap := (IdMap.t SymbValue).

(** X10. [getTextureFromCubeImages] never reads the cache. When the driver
    has a handle it constructs a new texture, also under a key that is
    cached already; the new texture takes the place of the cached one, which
    is not disposed; with no or an empty key the IdMap stays as it is. The
    other three maps are not touched. *)
Theorem getTextureFromCubeImages_constructs (posX negX posY negY posZ negZ : Ref)
    (params : RenderTexture.Params) (this : IdMap) (w : World) :
  handleAvailable drv (requests w) = true ->
  exists tex this1 w1,
    IdMap.getTextureFromCubeImages drv posX negX posY negY posZ negZ params this w
      = (Some tex, this1, w1)
    ∧ tex_ref tex = S (nextRef w)
    ∧ tex_params tex = params
    ∧ trace w1 = trace w ++
        [CreateHandle (ForCubeImages posX negX posY negY posZ negZ) (Some (tex_handle tex));
         NewTexture tex]
    ∧ (forall key, truthy (RenderTexture.key params) = Some key ->
         IdMap.findTexture (Some key) this1 = Some tex)
    ∧ (truthy (RenderTexture.key params) = None -> this1 = this)
    ∧ IdMap.materials this1 = IdMap.materials this
    ∧ IdMap.gradients this1 = IdMap.gradients this
    ∧ IdMap.clipVolumes this1 = IdMap.clipVolumes this.
Proof.
  intros Havail. run. rewrite Havail. run.
  eexists _, _, _. split; [reflexivity|]. simpl.
  split; [done|]. split; [done|]. split; [by rewrite <- app_assoc|].
  unfold IdMap.addTexture. simpl.
  destruct (truthy (RenderTexture.key params)) as [key|]; simpl.
  - split; [|done]. intros key' [= <-]. by rewrite JsMap_get_set_eq.
  - done.
Qed.

(** X11. A request without a cache key never changes the IdMap. With an
    undefined or empty key [getMaterial] constructs a new material each
    time; the three texture requests return a newly made texture or
    [undefined]. (An IdMap has no entry under the empty key.) *)
Theorem IdMap_unkeyed_requests (this : IdMap) (w : World) :
  JsMap.get (IdMap.textures this) "" = None ->
  (forall params,
     truthy (RenderMaterial.key params) = None ->
     exists material w1,
       IdMap.getMaterial params this w = (material, this, w1)
       ∧ mat_ref material = nextRef w
       ∧ constructions w1 = S (constructions w))
  ∧ (forall img params,
       truthy (RenderTexture.key params) = None ->
       exists r w1,
         IdMap.getTexture drv img params this w = (r, this, w1)
         ∧ forall tex, r = Some tex -> tex_ref tex = S (nextRef w))
  ∧ (forall image hasAlpha params,
       truthy (RenderTexture.key params) = None ->
       exists r w1,
         IdMap.getTextureFromImage drv image hasAlpha params this w = (r, this, w1)
         ∧ forall tex, r = Some tex -> tex_ref tex = S (nextRef w))
  ∧ (forall posX negX posY negY posZ negZ params,
       truthy (RenderTexture.key params) = None ->
       exists r w1,
         IdMap.getTextureFromCubeImages drv posX negX posY negY posZ negZ params this w
           = (r, this, w1)
         ∧ forall tex, r = Some tex -> tex_ref tex = S (nextRef w)).
Proof.
  intros Hempty.
  assert (Hfind : forall params : RenderTexture.Params,
            truthy (RenderTexture.key params) = None ->
            IdMap.findTexture (RenderTexture.key params) this = None).
  { intros params Hkey. unfold IdMap.findTexture.
    destruct (RenderTexture.key params) as [k|]; [|done]. simpl in Hkey.
    destruct (String.eqb_spec k ""); [by subst|done]. }
  split; [|split; [|split]].
  - intros params Hkey. unfold IdMap.getMaterial. rewrite Hkey. run.
    eexists _, _. split; [reflexivity|]. split; [done|].
    unfold constructions. simpl. rewrite filter_snoc_length. simpl. lia.
  - intros img params Hkey. unfold IdMap.getTexture. rewrite (Hfind _ Hkey). run.
    destruct (handleAvailable drv (requests w)); run.
    + unfold IdMap.addTexture. simpl. rewrite Hkey.
      eexists _, _. split; [reflexivity|]. by intros tex [= <-].
    + eexists _, _. split; [reflexivity|]. done.
  - intros image hasAlpha params Hkey. unfold IdMap.getTextureFromImage.
    rewrite (Hfind _ Hkey). run.
    destruct (handleAvailable drv (requests w)); run.
    + unfold IdMap.addTexture. simpl. rewrite Hkey.
      eexists _, _. split; [reflexivity|]. by intros tex [= <-].
    + eexists _, _. split; [reflexivity|]. done.
  - intros posX negX posY negY posZ negZ params Hkey. run.
    destruct (handleAvailable drv (requests w)); run.
    + unfold IdMap.addTexture. simpl. rewrite Hkey.
      eexists _, _. split; [reflexivity|]. by intros tex [= <-].
    + eexists _, _. split; [reflexivity|]. done.
Qed.

Lemma addTexture_frame (texture : Texture) (this : IdMap) :
  IdMap.materials (IdMap.addTexture texture this) = IdMap.materials this
  ∧ IdMap.gradients (IdMap.addTexture texture this) = IdMap.gradients this
  ∧ IdMap.clipVolumes (IdMap.addTexture texture this) = IdMap.clipVolumes this.
Proof.
  unfold IdMap.addTexture.
  by destruct (truthy (RenderTexture.key (tex_params texture))).
Qed.

(** X12. Each request changes at most the map of its own kind: only
    [getMaterial] can change the materials map, only the three texture
    requests the textures map, only [getGradient] the gradients map and only
    [getClipVolume] the clip volumes map; [dispose] changes the last three
    and never the materials map. *)
Theorem IdMap_request_frame (this : IdMap) (w : World) (c : IdMapCall SymbValue) :
  let this' := (perform drv (this, w) c).1 in
  (IdMap.materials this' = IdMap.materials this
   ∨ exists params, c = CallGetMaterial params)
  ∧ (IdMap.textures this' = IdMap.textures this
     ∨ (exists img params, c = CallGetTexture img params)
     ∨ (exists image hasAlpha params, c = CallGetTextureFromImage image hasAlpha params)
     ∨ (exists posX negX posY negY posZ negZ params,
          c = CallGetTextureFromCubeImages posX negX posY negY posZ negZ params)
     ∨ c = CallDispose)
  ∧ (IdMap.gradients this' = IdMap.gradients this
     ∨ (exists grad, c = CallGetGradient grad) ∨ c = CallDispose)
  ∧ (IdMap.clipVolumes this' = IdMap.clipVolumes this
     ∨ (exists clipVector, c = CallGetClipVolume clipVector) ∨ c = CallDispose).
Proof.
  destruct c; simpl.
  - split; [right; by eexists|].
    unfold IdMap.getMaterial. destruct (truthy (RenderMaterial.key params)) as [key|].
    + destruct (JsMap.get (IdMap.materials this) key); run; by repeat split; left.
    + run. by repeat split; left.
  - split; [left|split; [right; left; by eexists _, _|]].
    + unfold IdMap.getTexture.
      destruct (IdMap.findTexture (RenderTexture.key params) this); [done|]. run.
      destruct (handleAvailable drv (requests w)); run; [|done]. apply addTexture_frame.
    + unfold IdMap.getTexture.
      destruct (IdMap.findTexture (RenderTexture.key params) this); [by split; left|]. run.
      destruct (handleAvailable drv (requests w)); run; [|by split; left].
      split; left; apply addTexture_frame.
  - split; [left|split; [right; right; left; by eexists _, _, _|]].
    + unfold IdMap.getTextureFromImage.
      destruct (IdMap.findTexture (RenderTexture.key params) this); [done|]. run.
      destruct (handleAvailable drv (requests w)); run; [|done]. apply addTexture_frame.
    + unfold IdMap.getTextureFromImage.
      destruct (IdMap.findTexture (RenderTexture.key params) this); [by split; left|]. run.
      destruct (handleAvailable drv (requests w)); run; [|by split; left].
      split; left; apply addTexture_frame.
  - split; [left|split; [right; right; right; left; by eexists _, _, _, _, _, _, _|]].
    + run. destruct (handleAvailable drv (requests w)); run; [|done]. apply addTexture_frame.
    + run. destruct (handleAvailable drv (requests w)); run; [|by split; left].
      split; left; apply addTexture_frame.
  - unfold IdMap.getGradient.
    destruct (Dictionary.get compareSymb (IdMap.gradients this) grad); run.
    + repeat split; by left.
    + destruct (handleAvailable drv (requests w)); run.
      * split; [by left|]. split; [by left|]. split; [right; left; by eexists|by left].
      * repeat split; by left.
  - unfold IdMap.getClipVolume.
    destruct (JsMap.get (IdMap.clipVolumes this) (clip_ref clipVector)); run.
    + repeat split; by left.
    + destruct (clipMaskAvailable drv (clip_ref clipVector) (requests w)); run.
      * split; [by left|]. split; [by left|]. split; [by left|right; left; by eexists].
      * destruct (clipPlanesAvailable drv (clip_ref clipVector) (S (requests w))); run.
        -- split; [by left|]. split; [by left|]. split; [by left|right; left; by eexists].
        -- repeat split; by left.
  - rewrite dispose_run. simpl.
    split; [by left|]. split; [by repeat right|]. split; by right; right.
Qed.

End IdMapMore.

Section IdMapInvariants.
Context {SymbValue : Type} `{SymbOps SymbValue} (drv : Driver).

Local Abbreviation IdMap := (IdMap.t SymbValue).

Lemma JsMap_get_set {V : Type} (m : list (string * V)) (k k' : string) (x : V) :
  JsMap.get (JsMap.set m k x) k' = if decide (k = k') then Some x else JsMap.get m k'.
Proof.
  destruct (decide (k = k')) as [->|Hne].
  - apply JsMap_get_set_eq.
  - by apply JsMap_get_set_ne.
Qed.

Lemma perform_materials (this : IdMap) (w : World) (c : IdMapCall SymbValue)
    (key : string) (material : Material) :
  JsMap.get (IdMap.materials this) key = Some material ->
  JsMap.get (IdMap.materials (perform drv (this, w) c).1) key = Some material.
Proof.
  intros Hget. destruct c; simpl.
  - unfold IdMap.getMaterial. destruct (truthy (RenderMaterial.key params)) as [k|].
    + destruct (JsMap.get (IdMap.materials this) k) eqn:Hk; run; [done|].
      rewrite JsMap_get_set. destruct (decide (k = key)) as [->|]; [congruence|done].
    + by run.
  - unfold IdMap.getTexture.
    destruct (IdMap.findTexture (RenderTexture.key params) this); [done|]. run.
    destruct (handleAvailable drv (requests w)); run; [|done].
    by rewrite (proj1 (addTexture_frame _ _)).
  - unfold IdMap.getTextureFromImage.
    destruct (IdMap.findTexture (RenderTexture.key params) this); [done|]. run.
    destruct (handleAvailable drv (requests w)); run; [|done].
    by rewrite (proj1 (addTexture_frame _ _)).
  - run. destruct (handleAvailable drv (requests w)); run; [|done].
    by rewrite (proj1 (addTexture_frame _ _)).
  - unfold IdMap.getGradient.
    destruct (Dictionary.get compareSymb (IdMap.gradients this) grad); run; [done|].
    by destruct (handleAvailable drv (requests w)); run.
  - unfold IdMap.getClipVolume.
    destruct (JsMap.get (IdMap.clipVolumes this) (clip_ref clipVector)); run; [done|].
    destruct (clipMaskAvailable drv (clip_ref clipVector) (requests w)); run; [done|].
    by destruct (clipPlanesAvailable drv (clip_ref clipVector) (S (requests w))); run.
  - by rewrite dispose_run.
Qed.

(** X13. A cached material stays: once a key finds a material in an IdMap,
    it finds that same instance after every sequence of requests made of the
    IdMap, [dispose] included. *)
Theorem IdMap_materials_stay (calls : list (IdMapCall SymbValue)) :
  forall (this : IdMap) (w : World) (key : string) (material : Material),
    IdMap.findMaterial key this = Some material ->
    IdMap.findMaterial key (fold_left (perform drv) calls (this, w)).1 = Some material.
Proof.
  unfold IdMap.findMaterial.
  induction calls as [|c calls IH]; intros this w key material Hget; [done|].
  cbn [fold_left]. destruct (perform drv (this, w) c) as [this' w'] eqn:Hstep.
  apply IH. pose proof (perform_materials this w c key material Hget) as Hkeep.
  by rewrite Hstep in Hkeep.
Qed.

Lemma addTexture_keyed (texture : Texture) (this : IdMap) :
  keyed this -> keyed (IdMap.addTexture texture this).
Proof.
  intros [Hmat Htex]. unfold IdMap.addTexture.
  destruct (truthy (RenderTexture.key (tex_params texture))) as [key|] eqn:Hkey; [|done].
  split; [exact Hmat|]. simpl. intros k t. rewrite JsMap_get_set.
  destruct (decide (key = k)) as [<-|]; [by intros [= <-]|apply Htex].
Qed.

Lemma perform_keyed (this : IdMap) (w : World) (c : IdMapCall SymbValue) :
  keyed this -> keyed (perform drv (this, w) c).1.
Proof.
  intros Hkeyed. destruct c; simpl.
  - unfold IdMap.getMaterial.
    destruct (truthy (RenderMaterial.key params)) as [k|] eqn:Hk; [|by run].
    destruct (JsMap.get (IdMap.materials this) k); run; [done|].
    destruct Hkeyed as [Hmat Htex]. split; [|exact Htex]. simpl.
    intros k' m. rewrite JsMap_get_set.
    destruct (decide (k = k')) as [<-|]; [by intros [= <-]|apply Hmat].
  - unfold IdMap.getTexture.
    destruct (IdMap.findTexture (RenderTexture.key params) this); [done|]. run.
    destruct (handleAvailable drv (requests w)); run; [|done]. by apply addTexture_keyed.
  - unfold IdMap.getTextureFromImage.
    destruct (IdMap.findTexture (RenderTexture.key params) this); [done|]. run.
    destruct (handleAvailable drv (requests w)); run; [|done]. by apply addTexture_keyed.
  - run. destruct (handleAvailable drv (requests w)); run; [|done]. by apply addTexture_keyed.
  - unfold IdMap.getGradient.
    destruct (Dictionary.get compareSymb (IdMap.gradients this) grad); run; [done|].
    by destruct (handleAvailable drv (requests w)); run.
  - unfold IdMap.getClipVolume.
    destruct (JsMap.get (IdMap.clipVolumes this) (clip_ref clipVector)); run; [done|].
    destruct (clipMaskAvailable drv (clip_ref clipVector) (requests w)); run; [done|].
    by destruct (clipPlanesAvailable drv (clip_ref clipVector) (S (requests w))); run.
  - rewrite dispose_run. simpl. destruct Hkeyed as [Hmat _]. split; [exact Hmat|done].
Qed.

(** X14. In an IdMap made by [new IdMap()] and used through its requests,
    every cached material and every cached texture is cached under the key
    of its own parameters, which is not empty; so nothing is ever cached
    under the empty key. *)
Theorem reachable_keyed (this : IdMap) (w : World) :
  reachable drv this w ->
  keyed this
  ∧ JsMap.get (IdMap.materials this) "" = None
  ∧ JsMap.get (IdMap.textures this) "" = None.
Proof.
  intros (w0 & calls & Hrun).
  assert (Hkeyed : keyed this).
  { assert (Hgen : forall st, keyed st.1 -> keyed (fold_left (perform drv) calls st).1).
    { clear Hrun. induction calls as [|c calls IH]; intros [this0 w1] Hk; [done|].
      cbn [fold_left]. apply IH.
      destruct (perform drv (this0, w1) c) as [this' w'] eqn:Hstep.
      pose proof (perform_keyed this0 w1 c Hk) as Hnext. by rewrite Hstep in Hnext. }
    specialize (Hgen (IdMap.new, w0)). rewrite Hrun in Hgen. apply Hgen. by split. }
  split; [exact Hkeyed|]. destruct Hkeyed as [Hmat Htex]. split.
  - destruct (JsMap.get (IdMap.materials this) "") as [m|] eqn:Hget; [|done].
    apply Hmat, truthy_Some in Hget as [_ Hne]. done.
  - destruct (JsMap.get (IdMap.textures this) "") as [t|] eqn:Hget; [|done].
    apply Htex, truthy_Some in Hget as [_ Hne]. done.
Qed.

(** X15. A clip volume that is not cached is made as a mask volume when
    that can be created, and only otherwise as a planes volume; a volume that
    was made is cached under its clip vector. When neither can be created the
    result is [undefined] and nothing is cached, so the next request tries
    again. *)
Theorem getClipVolume_fallback (clipVector : ClipVector) (this : IdMap) (w : World) :
  JsMap.get (IdMap.clipVolumes this) (clip_ref clipVector) = None ->
  let ref := clip_ref clipVector in
  let '(r, this1, w1) := IdMap.getClipVolume drv clipVector this w in
  (clipMaskAvailable drv ref (requests w) = true ->
   exists volume,
     r = Some volume ∧ vol_kind volume = ClipMaskVolume
     ∧ trace w1 = trace w ++ [CreateClipVolume ClipMaskVolume ref (Some volume)])
  ∧ (clipMaskAvailable drv ref (requests w) = false ->
     clipPlanesAvailable drv ref (S (requests w)) = true ->
     exists volume,
       r = Some volume ∧ vol_kind volume = ClipPlanesVolume
       ∧ trace w1 = trace w ++
           [CreateClipVolume ClipMaskVolume ref None;
            CreateClipVolume ClipPlanesVolume ref (Some volume)])
  ∧ (clipMaskAvailable drv ref (requests w) = false ->
     clipPlanesAvailable drv ref (S (requests w)) = false ->
     r = None ∧ this1 = this
     ∧ trace w1 = trace w ++
         [CreateClipVolume ClipMaskVolume ref None;
          CreateClipVolume ClipPlanesVolume ref None])
  ∧ (forall volume, r = Some volume ->
       JsMap.get (IdMap.clipVolumes this1) ref = Some volume ∧ vol_clip volume = ref).
Proof.
  intros Hmiss ref. subst ref. unfold IdMap.getClipVolume. rewrite Hmiss. run.
  destruct (clipMaskAvailable drv (clip_ref clipVector) (requests w)); run.
  - split; [intros _; by eexists|].
    split; [done|]. split; [done|].
    intros volume [= <-]. simpl. by rewrite JsMap_get_set_eq.
  - destruct (clipPlanesAvailable drv (clip_ref clipVector) (S (requests w))); run.
    + split; [done|]. split; [intros _ _; eexists; by rewrite <- !app_assoc|].
      split; [done|]. intros volume [= <-]. simpl. by rewrite JsMap_get_set_eq.
    + split; [done|]. split; [done|]. split; [|done].
      intros _ _. by rewrite <- !app_assoc.
Qed.

End IdMapInvariants.

Section AddFind.
Context {SymbValue : Type} `{SymbStructural SymbValue}.

Local Abbreviation IdMap := (IdMap.t SymbValue).

Lemma Dictionary_get_set_ne {V : Type} (d : list (GradientSymb SymbValue * V))
    (g g' : GradientSymb SymbValue) (x : V) :
  symb_value g' ≠ symb_value g ->
  Dictionary.get compareSymb (Dictionary.set compareSymb d g x) g' =
    Dictionary.get compareSymb d g'.
Proof.
  intros Hne.
  assert (Hcmp : (compareSymb g' g =? 0) = false).
  { apply Z.eqb_neq. by rewrite compareSymb_zero. }
  induction d as [|[k x'] d IH]; simpl.
  - by rewrite Hcmp.
  - destruct (compareSymb g k =? 0) eqn:Hgk; simpl.
    + apply Z.eqb_eq, compareSymb_zero in Hgk.
      assert (Hg'k : (compareSymb g' k =? 0) = false).
      { apply Z.eqb_neq. rewrite compareSymb_zero. congruence. }
      by rewrite Hg'k.
    + destruct (compareSymb g k <? 0); simpl.
      * by rewrite Hcmp.
      * destruct (compareSymb g' k =? 0); [done|exact IH].
Qed.

(** X16. Adding and finding. A material or texture added with a non-empty
    key is found under that key, and what the other keys find is as before;
    one added with no or an empty key is not stored at all. A texture added
    for a gradient symbol is found for every symbol of equal value, also
    when a texture was cached for it before, and the symbols of other values
    find what they found. [findTexture] of an undefined key finds nothing. *)
Theorem IdMap_add_then_find (this : IdMap) :
  (forall material key,
     truthy (RenderMaterial.key (mat_params material)) = Some key ->
     IdMap.findMaterial key (IdMap.addMaterial material this) = Some material
     ∧ forall other, other ≠ key ->
         IdMap.findMaterial other (IdMap.addMaterial material this) =
           IdMap.findMaterial other this)
  ∧ (forall material,
       truthy (RenderMaterial.key (mat_params material)) = None ->
       IdMap.addMaterial material this = this)
  ∧ (forall texture key,
       truthy (RenderTexture.key (tex_params texture)) = Some key ->
       IdMap.findTexture (Some key) (IdMap.addTexture texture this) = Some texture
       ∧ forall other, other ≠ key ->
           IdMap.findTexture (Some other) (IdMap.addTexture texture this) =
             IdMap.findTexture (Some other) this)
  ∧ (forall texture,
       truthy (RenderTexture.key (tex_params texture)) = None ->
       IdMap.addTexture texture this = this)
  ∧ (forall g g' texture,
       symb_value g' = symb_value g ->
       IdMap.findGradient g' (IdMap.addGradient g texture this) = Some texture)
  ∧ (forall g g' texture,
       symb_value g' ≠ symb_value g ->
       IdMap.findGradient g' (IdMap.addGradient g texture this) = IdMap.findGradient g' this)
  ∧ IdMap.findTexture None this = None.
Proof.
  split; [|split; [|split; [|split; [|split; [|split]]]]].
  - intros material key Hkey. unfold IdMap.addMaterial, IdMap.findMaterial. rewrite Hkey.
    simpl. rewrite JsMap_get_set_eq. split; [done|].
    intros other Hne. by rewrite JsMap_get_set_ne.
  - intros material Hkey. unfold IdMap.addMaterial. by rewrite Hkey.
  - intros texture key Hkey. unfold IdMap.addTexture, IdMap.findTexture. rewrite Hkey.
    simpl. rewrite JsMap_get_set_eq. split; [done|].
    intros other Hne. by rewrite JsMap_get_set_ne.
  - intros texture Hkey. unfold IdMap.addTexture. by rewrite Hkey.
  - intros g g' texture Hval. unfold IdMap.findGradient, IdMap.addGradient. simpl.
    rewrite (Dictionary_get_same_class compareSymb _ g' g).
    + apply (Dictionary_get_set_eq compareSymb compareSymb_refl).
    + intros x. unfold compareSymb. by rewrite Hval.
  - intros g g' texture Hne. unfold IdMap.findGradient, IdMap.addGradient. simpl.
    by apply Dictionary_get_set_ne.
  - reflexivity.
Qed.

End AddFind.

Lemma getTextureFromCubeImages_constructs_witness :
  exists cached tex this1 w1,
    IdMap.findTexture (Some "brick") example_cached.1 = Some cached
    ∧ IdMap.getTextureFromCubeImages reliable_driver 1%nat 2%nat 3%nat 4%nat 5%nat 6%nat
        brick_texture example_cached.1 example_cached.2 = (Some tex, this1, w1)
    ∧ tex_ref tex ≠ tex_ref cached
    ∧ IdMap.findTexture (Some "brick") this1 = Some tex.
Proof.
  destruct (getTextureFromCubeImages_constructs (SymbValue := Z) reliable_driver
              1%nat 2%nat 3%nat 4%nat 5%nat 6%nat brick_texture
              example_cached.1 example_cached.2 eq_refl)
    as (tex & this1 & w1 & Hrun & Href & _ & _ & Hfind & _).
  eexists _, tex, this1, w1. split; [reflexivity|]. split; [exact Hrun|].
  split; [rewrite Href; discriminate|]. by apply Hfind.
Defined.

Lemma IdMap_unkeyed_requests_witness :
  exists material w1,
    IdMap.getMaterial unkeyed_material (IdMap.new (SymbValue := Z)) empty_world
      = (material, IdMap.new, w1)
    ∧ constructions w1 = 1%nat.
Proof.
  destruct (IdMap_unkeyed_requests (SymbValue := Z) reliable_driver IdMap.new empty_world
              eq_refl) as [Hmat _].
  destruct (Hmat unkeyed_material eq_refl) as (material & w1 & Hrun & _ & Hcount).
  by exists material, w1.
Defined.

Lemma IdMap_materials_stay_witness :
  let cached :=
    perform reliable_driver (IdMap.new (SymbValue := Z), empty_world)
      (CallGetMaterial brick_material) in
  exists material,
    IdMap.findMaterial "brick" cached.1 = Some material
    ∧ IdMap.findMaterial "brick"
        (fold_left (perform reliable_driver)
           [CallDispose; CallGetTexture example_image brick_texture] cached).1
        = Some material.
Proof.
  intros cached. eexists. split; [reflexivity|].
  apply (IdMap_materials_stay reliable_driver
           [CallDispose; CallGetTexture example_image brick_texture] cached.1 cached.2).
  reflexivity.
Defined.

Lemma example_cached_reachable :
  reachable reliable_driver example_cached.1 example_cached.2.
Proof.
  exists empty_world, [CallGetTexture example_image brick_texture]. reflexivity.
Qed.

Lemma reachable_keyed_witness :
  keyed example_cached.1 ∧ JsMap.get (IdMap.textures example_cached.1) "" = None.
Proof.
  destruct (reachable_keyed reliable_driver example_cached.1 example_cached.2
              example_cached_reachable) as (Hkeyed & _ & Hempty).
  by split.
Defined.

Lemma getClipVolume_fallback_witness :
  exists volume this1 w1,
    IdMap.getClipVolume flaky_driver example_clip (IdMap.new (SymbValue := Z)) empty_world
      = (Some volume, this1, w1)
    ∧ vol_kind volume = ClipPlanesVolume
    ∧ JsMap.get (IdMap.clipVolumes this1) (clip_ref example_clip) = Some volume.
Proof.
  pose proof (getClipVolume_fallback (SymbValue := Z) flaky_driver example_clip
                IdMap.new empty_world eq_refl) as Hfall.
  destruct (IdMap.getClipVolume flaky_driver example_clip IdMap.new empty_world)
    as [[r this1] w1].
  destruct Hfall as (_ & Hplanes & _ & Hcached).
  destruct (Hplanes eq_refl eq_refl) as (volume & -> & Hkind & _).
  exists volume, this1, w1. split; [done|]. split; [exact Hkind|].
  by apply Hcached.
Defined.

Lemma IdMap_add_then_find_witness :
  IdMap.findGradient example_symb_copy
    (IdMap.addGradient example_symb
       {| tex_ref := 9%nat;
          tex_params := brick_texture;
          tex_handle := {| handle_ref := 8%nat |} |} (IdMap.new (SymbValue := Z)))
  = Some {| tex_ref := 9%nat; tex_params := brick_texture;
            tex_handle := {| handle_ref := 8%nat |} |}.
Proof.
  destruct (IdMap_add_then_find (SymbValue := Z) IdMap.new) as (_ & _ & _ & _ & Hgrad & _).
  by apply Hgrad.
Defined.

(** ** More on texture units *)

Section JsArrayMore.
Context {A : Type}.

Lemma JsArray_get_set_ne (a : list (option A)) (i j : nat) (x : option A) :
  i ≠ j -> JsArray.get (JsArray.set a i x) j = JsArray.get a j.
Proof.
  intros Hne. unfold JsArray.get, JsArray.set.
  destruct (decide (i < length a)%nat) as [Hlt|Hge].
  - by rewrite list_lookup_insert_ne.
  - destruct (decide (j < length a)%nat) as [Hj|Hj].
    + by rewrite lookup_app_l.
    + rewrite (lookup_ge_None_2 a j) by lia. rewrite lookup_app_r by lia.
      destruct (decide (j - length a < i - length a)%nat) as [Hin|Hout].
      * rewrite lookup_app_l by (rewrite length_replicate; lia).
        by rewrite lookup_replicate_2.
      * rewrite lookup_app_r by (rewrite length_replicate; lia).
        rewrite length_replicate. rewrite lookup_ge_None_2; [done|]. simpl. lia.
Qed.

End JsArrayMore.

Section TextureUnits.
Context {SymbValue : Type}.

Local Abbreviation System := (System.t SymbValue).

Lemma bindTexture_other_unit (this : System) (unit other : Z) (target : GL.TextureTarget)
    (texture : option Ref) :
  TextureUnit.Zero <= unit -> TextureUnit.Zero <= other -> other ≠ unit ->
  recordedBinding (System.bindTexture unit target texture this) other =
    recordedBinding this other.
Proof.
  intros Hu Ho Hne. unfold System.bindTexture.
  destruct (decide _) as [|_]; [done|].
  unfold recordedBinding. simpl. apply JsArray_get_set_ne. lia.
Qed.

(** X17. The texture units are independent: a bind on one unit leaves the
    binding recorded for every other unit as it was. So binds that alternate
    between two units stay elided: after a texture is bound on one unit and
    another texture on another unit, binding the first texture on the first
    unit again issues no driver call. *)
Theorem bindTexture_units_independent (this : System) (unit other : Z)
    (target target' : GL.TextureTarget) (texture texture' : option Ref) :
  TextureUnit.Zero <= unit -> TextureUnit.Zero <= other -> other ≠ unit ->
  recordedBinding (System.bindTexture unit target texture this) other =
    recordedBinding this other
  ∧ (let both :=
       System.bindTexture other target' texture'
         (System.bindTexture unit target texture this) in
     recordedBinding both unit = texture
     ∧ recordedBinding both other = texture'
     ∧ System.bindTexture unit target texture both = both).
Proof.
  intros Hu Ho Hne. split; [by apply bindTexture_other_unit|].
  assert (Hunit : recordedBinding
            (System.bindTexture other target' texture'
               (System.bindTexture unit target texture this)) unit = texture).
  { rewrite bindTexture_other_unit by done. apply bindTexture_records. }
  split; [exact Hunit|]. split; [apply bindTexture_records|].
  by apply bindTexture_hit.
Qed.

Lemma unbindFirst_absent (bindings : list (option Ref)) (texture : Ref) :
  Some texture ∉ bindings -> System.unbindFirst bindings texture = bindings.
Proof.
  induction bindings as [|b rest IH]; simpl; [done|].
  intros [Hne Hrest]%not_elem_of_cons.
  rewrite decide_False by done. by rewrite IH.
Qed.

Lemma unbindFirst_first (bindings : list (option Ref)) (texture : Ref) :
  forall i,
    bindings !! i = Some (Some texture) ->
    (forall j, (j < i)%nat -> bindings !! j ≠ Some (Some texture)) ->
    System.unbindFirst bindings texture = <[i := None]> bindings.
Proof.
  induction bindings as [|b rest IH]; intros i Hi Hfirst; [done|].
  simpl. destruct (decide (b = Some texture)) as [->|Hne].
  - destruct i as [|i]; [done|]. exfalso. by apply (Hfirst 0%nat); [lia|].
  - destruct i as [|i]; [simpl in Hi; congruence|]. simpl. f_equal.
    apply IH; [done|]. intros j Hj. apply (Hfirst (S j)). lia.
Qed.

(** X18. [disposeTexture] issues one [deleteTexture] call and forgets the
    texture on the first unit that holds it, and on that unit only: the
    number of units and the bindings of all other units stay, so a texture
    that two units hold is still recorded on the second. When no unit holds
    the texture the bindings are unchanged. After it, binding the texture
    to the unit it was forgotten on issues a driver bind again. *)
Theorem disposeTexture_forgets_first (this : System) (texture : Ref) :
  let this' := System.disposeTexture texture this in
  System.context this' = System.context this ++ [GL.deleteTexture texture]
  ∧ length (System._textureBindings this') = length (System._textureBindings this)
  ∧ (Some texture ∉ System._textureBindings this ->
     System._textureBindings this' = System._textureBindings this)
  ∧ (forall i,
       System._textureBindings this !! i = Some (Some texture) ->
       (forall j, (j < i)%nat -> System._textureBindings this !! j ≠ Some (Some texture)) ->
       System._textureBindings this' = <[i := None]> (System._textureBindings this)
       ∧ JsArray.get (System._textureBindings this') i = None
       ∧ (forall j, j ≠ i ->
            System._textureBindings this' !! j = System._textureBindings this !! j)
       ∧ forall target,
           System.context
             (System.bindTexture (TextureUnit.Zero + Z.of_nat i) target (Some texture) this')
           = System.context this' ++
               [GL.activeTexture (TextureUnit.Zero + Z.of_nat i);
                GL.bindTexture target (Some texture)]).
Proof.
  intros this'. subst this'. unfold System.disposeTexture. simpl.
  split; [done|]. split; [|split].
  - induction (System._textureBindings this) as [|b rest IH]; simpl; [done|].
    destruct (decide (b = Some texture)); simpl; [done|]. by rewrite IH.
  - apply unbindFirst_absent.
  - intros i Hi Hfirst. rewrite (unbindFirst_first _ _ i Hi Hfirst).
    assert (Hlt : (i < length (System._textureBindings this))%nat)
      by (by eapply lookup_lt_Some).
    assert (Hget : JsArray.get (<[i := None]> (System._textureBindings this)) i = None).
    { unfold JsArray.get. by rewrite list_lookup_insert_eq. }
    split; [done|]. split; [exact Hget|]. split.
    + intros j Hne. by rewrite list_lookup_insert_ne.
    + intros target.
      set (s := System.with_textureBindings _ _).
      assert (Hrec : recordedBinding s (TextureUnit.Zero + Z.of_nat i) ≠ Some texture).
      { unfold recordedBinding, s. simpl.
        replace (Z.to_nat (TextureUnit.Zero + Z.of_nat i - TextureUnit.Zero)) with i by lia.
        by rewrite Hget. }
      destruct (bindTexture_miss s _ target (Some texture) Hrec) as [Hctx _].
      exact Hctx.
Qed.

End TextureUnits.

Lemma bindTexture_units_independent_witness :
  let unit := TextureUnit.Zero in
  let other := TextureUnit.Zero + 1 in
  let both :=
    System.bindTexture other GL.TwoDee (Some 6%nat)
      (System.bindTexture unit GL.TwoDee (Some 5%nat) example_system) in
  System.bindTexture unit GL.TwoDee (Some 5%nat) both = both.
Proof.
  intros unit other both.
  destruct (bindTexture_units_independent example_system unit other GL.TwoDee GL.TwoDee
              (Some 5%nat) (Some 6%nat)) as (_ & _ & _ & Hsame).
  { unfold unit, TextureUnit.Zero. lia. }
  { unfold other, TextureUnit.Zero. lia. }
  { unfold other, unit. lia. }
  exact Hsame.
Defined.

Lemma disposeTexture_forgets_first_witness :
  let this' := System.disposeTexture 5%nat example_bound_twice in
  JsArray.get (System._textureBindings this') 0 = None
  ∧ JsArray.get (System._textureBindings this') 1 = Some 5%nat.
Proof.
  intros this'.
  destruct (disposeTexture_forgets_first example_bound_twice 5%nat)
    as (_ & _ & _ & Hfirst).
  destruct (Hfirst 0%nat eq_refl) as (_ & Hzero & Hrest & _).
  { intros j Hj. lia. }
  split; [exact Hzero|].
  unfold JsArray.get. fold this'. unfold this'. rewrite (Hrest 1%nat) by lia. reflexivity.
Defined.

Section VertexAttribPasses.
Context {SymbValue : Type}.

Local Abbreviation System := (System.t SymbValue).

(** X19. Without the instancing extension a pass returns exactly when no
    slot needs a divisor call, that is, when no slot that is enabled in the
    next state changes its instanced bit; otherwise it throws an assertion
    failure at the first such slot, whose current and next state are then
    left as they were. *)
Theorem updateVertexAttribArrays_without_instancing (this : System) :
  length (System._curVertexAttribStates this) = length (System._nextVertexAttribStates this) ->
  System._instancingExtension this = None ->
  ((exists this', System.updateVertexAttribArrays this = (Returns tt, this'))
     <-> forall j, offends this j = false)
  ∧ (forall this',
       System.updateVertexAttribArrays this = (Returns tt, this') ->
       System._curVertexAttribStates this' = System._nextVertexAttribStates this
       ∧ forall c, c ∈ drop (length (System.context this)) (System.context this') ->
           forall i d, c ≠ GL.vertexAttribDivisorANGLE i d)
  ∧ (forall k o n,
       System._curVertexAttribStates this !! k = Some o ->
       System._nextVertexAttribStates this !! k = Some n ->
       needsDivisor o n = true ->
       (forall j, (j < k)%nat -> offends this j = false) ->
       exists this',
         System.updateVertexAttribArrays this = (Throws (AssertionFailed ""), this')
         ∧ System._curVertexAttribStates this' !! k = Some o
         ∧ System._nextVertexAttribStates this' !! k = Some n).
Proof.
  intros Hlen Hext.
  destruct (updateVertexAttribArrays_outcome this Hlen)
    as [(s & Hrun & Hcur & Hnext & Hctx & Hnone)
       |(_ & k & o & n & s & Ho & Hn & Hdiv & Hfirst & Hrun & Hc & Hx)].
  - specialize (Hnone Hext). split; [|split].
    + split; [done|]. intros _. by exists s.
    + intros this' Hrun'. rewrite Hrun in Hrun'. injection Hrun' as <-.
      split; [exact Hcur|]. rewrite Hctx, drop_app_length.
      intros c (j & o & n & Ho & Hn & Hin)%elem_of_pendingCalls i d ->.
      apply elem_of_slotCalls in Hin as [(Hc & _)|[(Hc & _)|(_ & Hen & Hinst)]];
        [discriminate Hc|discriminate Hc|].
      specialize (Hnone j). unfold offends in Hnone. rewrite Ho, Hn in Hnone.
      unfold needsDivisor in Hnone. rewrite Hen in Hnone. simpl in Hnone.
      apply negb_false_iff, Bool.eqb_prop in Hnone. done.
    + intros k' o' n' Ho' Hn' Hdiv _. specialize (Hnone k'). unfold offends in Hnone.
      rewrite Ho', Hn' in Hnone. congruence.
  - assert (Hoff : offends this k = true) by (unfold offends; by rewrite Ho, Hn).
    split; [|split].
    + split.
      * intros [this' Hrun']. rewrite Hrun in Hrun'. discriminate Hrun'.
      * intros Hall. specialize (Hall k). congruence.
    + intros this' Hrun'. rewrite Hrun in Hrun'. discriminate Hrun'.
    + intros k' o' n' Ho' Hn' Hdiv' Hfirst'.
      assert (k' = k) as ->.
      { destruct (Nat.lt_trichotomy k' k) as [Hlt|[->|Hgt]]; [|done|].
        - specialize (Hfirst k' Hlt). unfold offends in Hfirst.
          rewrite Ho', Hn' in Hfirst. congruence.
        - specialize (Hfirst' k Hgt). congruence. }
      exists s. simplify_eq. by repeat split.
Qed.

Lemma clearedState_idempotent (state : Z) :
  clearedState (clearedState state) = clearedState state.
Proof. unfold clearedState. by rewrite <- Z.land_assoc, Z.land_diag. Qed.

Lemma pendingCalls_same (l : list Z) : forall i, pendingCalls i l l = [].
Proof.
  induction l as [|x l IH]; intros i; simpl; [done|].
  by rewrite slotCalls_same, IH.
Qed.

(** X20. The life of a request. When a pass has returned and nothing is
    requested before the next pass, that pass returns too, with or without
    the instancing extension, and issues a disable call for exactly the slots
    that were enabled in the requested state, and no other call; afterwards
    no slot is enabled in the current state, and the instanced bits are
    those of the requested state. A third pass then issues no call at all. *)
Theorem updateVertexAttribArrays_lifecycle (this this1 : System) :
  length (System._curVertexAttribStates this) = length (System._nextVertexAttribStates this) ->
  System.updateVertexAttribArrays this = (Returns tt, this1) ->
  exists this2 this3 issued,
    System.updateVertexAttribArrays this1 = (Returns tt, this2)
    ∧ System.context this2 = System.context this1 ++ issued
    ∧ (forall c, c ∈ issued <->
         exists i n, c = GL.disableVertexAttribArray i
                     ∧ System._nextVertexAttribStates this !! i = Some n
                     ∧ enabledBit n = true)
    ∧ (forall i n, System._nextVertexAttribStates this !! i = Some n ->
         exists c, System._curVertexAttribStates this2 !! i = Some c
                   ∧ enabledBit c = false ∧ instancedBit c = instancedBit n)
    ∧ System.updateVertexAttribArrays this2 = (Returns tt, this3)
    ∧ System.context this3 = System.context this2
    ∧ System._curVertexAttribStates this3 = System._curVertexAttribStates this2.
Proof.
  intros Hlen Hrun.
  destruct (updateVertexAttribArrays_outcome this Hlen)
    as [(s & Hrun' & Hcur & Hnext & _)|(_ & k & o & n & s & _ & _ & _ & _ & Hrun' & _)];
    rewrite Hrun in Hrun'; [|discriminate Hrun'].
  injection Hrun' as <-.
  set (requested := System._nextVertexAttribStates this) in *.
  assert (Hlen1 : length (System._curVertexAttribStates this1)
                  = length (System._nextVertexAttribStates this1)).
  { by rewrite Hcur, Hnext, length_map. }
  assert (Hquiet1 : forall j, offends this1 j = false).
  { intros j. unfold offends. rewrite Hcur, Hnext, list_lookup_fmap.
    destruct (requested !! j) as [n|]; [|done]. simpl.
    unfold needsDivisor. by rewrite (proj1 (clearedState_bits n)). }
  destruct (updateVertexAttribArrays_outcome this1 Hlen1)
    as [(this2 & Hrun2 & Hcur2 & Hnext2 & Hctx2 & _)
       |(_ & k & o & n & s & Ho & Hn & Hdiv & _)].
  2: { specialize (Hquiet1 k). unfold offends in Hquiet1. rewrite Ho, Hn in Hquiet1.
       congruence. }
  assert (Hlen2 : length (System._curVertexAttribStates this2)
                  = length (System._nextVertexAttribStates this2)).
  { by rewrite Hcur2, Hnext2, length_map. }
  assert (Hsame2 : System._nextVertexAttribStates this2 = System._curVertexAttribStates this2).
  { rewrite Hcur2, Hnext2, Hnext. rewrite <- list_fmap_compose.
    apply list_fmap_ext. intros i x _. simpl. apply clearedState_idempotent. }
  destruct (updateVertexAttribArrays_outcome this2 Hlen2)
    as [(this3 & Hrun3 & Hcur3 & Hnext3 & Hctx3 & _)
       |(_ & k & o & n & s & Ho & Hn & Hdiv & _)].
  2: { rewrite Hsame2 in Hn. simplify_eq. unfold needsDivisor in Hdiv.
       by rewrite Bool.eqb_reflx, andb_false_r in Hdiv. }
  exists this2, this3, (pendingCalls 0 (System._curVertexAttribStates this1)
                          (System._nextVertexAttribStates this1)).
  split; [exact Hrun2|]. split; [exact Hctx2|].
  split; [|split; [|split; [exact Hrun3|split]]].
  - intros c. rewrite elem_of_pendingCalls, Hcur, Hnext. split.
    + intros (j & o & n & Ho & Hn & Hin). simpl in Hin.
      rewrite list_lookup_fmap, Ho in Hn. simpl in Hn. injection Hn as <-.
      destruct (clearedState_bits o) as [Hen _].
      apply elem_of_slotCalls in Hin as [(_ & _ & Hc)|[(-> & Ho1 & _)|(_ & Hc & _)]];
        [congruence| |congruence].
      by exists j, o.
    + intros (i & n & -> & Hn & Hen). exists i, n, (clearedState n).
      split; [done|]. split; [by rewrite list_lookup_fmap, Hn|].
      simpl. apply elem_of_slotCalls. right. left.
      split; [done|]. split; [done|]. apply clearedState_bits.
  - intros i n Hn. exists (clearedState n).
    rewrite Hcur2, Hnext, list_lookup_fmap. fold requested. rewrite Hn.
    split; [done|]. apply clearedState_bits.
  - rewrite Hctx3, Hsame2, pendingCalls_same. by rewrite app_nil_r.
  - by rewrite Hcur3, Hsame2.
Qed.

End VertexAttribPasses.

(** ** The vertex attribute states over the life of a System *)

Section VertexAttribInvariant.
Context {SymbValue : Type}.

Local Abbreviation System := (System.t SymbValue).

Lemma validState_cases (state : Z) :
  validState state ->
  state = VertexAttribState.Disabled ∨ state = VertexAttribState.Enabled
  ∨ state = VertexAttribState.Instanced ∨ state = VertexAttribState.InstancedEnabled.
Proof.
  unfold validState. rewrite !elem_of_cons, elem_of_nil. tauto.
Qed.

Lemma validState_cleared (state : Z) :
  validState state ->
  validState (Z.land state (Z.lnot VertexAttribState.Enabled)).
Proof.
  intros Hvalid. apply validState_cases in Hvalid.
  destruct Hvalid as [Hs|[Hs|[Hs|Hs]]]; rewrite Hs; vm_compute; set_solver.
Qed.

Lemma validState_default (states : list Z) (i : nat) :
  Forall validState states ->
  validState (default VertexAttribState.Disabled (states !! i)).
Proof.
  intros Hall. destruct (states !! i) as [s|] eqn:Hs; simpl.
  - by eapply Forall_lookup_1.
  - unfold validState. set_solver.
Qed.

Lemma updateSlot_wf (i : nat) (this : System) :
  vertexStates_wf this -> vertexStates_wf (System.updateSlot i this).2.
Proof.
  intros (Hc & Hn & Hvc & Hvn).
  pose proof (validState_default _ i Hvn) as Hnew.
  pose proof (validState_cleared _ Hnew) as Hclr.
  unfold System.updateSlot.
  repeat match goal with
  | |- context [if ?b then _ else _] => destruct b
  | |- context [match System._instancingExtension ?s with _ => _ end] =>
      destruct (System._instancingExtension s)
  end;
  unfold vertexStates_wf, System.clearEnabled, System.call; simpl;
  rewrite ?length_insert; repeat split;
  try assumption; try (apply Forall_insert; assumption).
Qed.

Lemma updateLoop_wf (remaining : nat) :
  forall i (this : System),
    vertexStates_wf this -> vertexStates_wf (System.updateLoop remaining i this).2.
Proof.
  induction remaining as [|remaining IH]; intros i this Hwf; simpl; [done|].
  pose proof (updateSlot_wf i this Hwf) as Hslot.
  destruct (System.updateSlot i this) as [[[]|e] this']; simpl in *; [by apply IH|done].
Qed.

Lemma performVertex_wf (this : System) (c : VertexCall) :
  vertexStates_wf this -> vertexStates_wf (performVertex this c).
Proof.
  intros Hwf. destruct c as [id instanced|]; simpl.
  - destruct Hwf as (Hc & Hn & Hvc & Hvn). unfold System.enableVertexAttribArray.
    rewrite Hc, Hn. destruct (JsNumber.ltLength id 12); simpl; [|by repeat split].
    destruct (JsNumber.arrayIndex id) as [index|]; [|by repeat split].
    unfold vertexStates_wf. simpl. rewrite length_insert. repeat split; try assumption.
    apply Forall_insert; [assumption|].
    unfold validState. destruct instanced; set_solver.
  - by apply updateLoop_wf.
Qed.

Lemma ltLength_integer (z : Z) (n : nat) :
  JsNumber.ltLength (Finite (inject_Z z)) n = bool_decide (z < Z.of_nat n).
Proof.
  unfold JsNumber.ltLength.
  destruct (Qle_bool (inject_Z (Z.of_nat n)) (inject_Z z)) eqn:Hle; simpl.
  - apply Qle_bool_iff in Hle. rewrite <- Zle_Qle in Hle.
    by rewrite bool_decide_eq_false_2 by lia.
  - rewrite bool_decide_eq_true_2; [done|].
    destruct (Z.lt_ge_cases z (Z.of_nat n)) as [Hlt|Hge]; [done|].
    rewrite Zle_Qle in Hge. apply Qle_bool_iff in Hge. congruence.
Qed.

Lemma arrayIndex_integer (z : Z) :
  JsNumber.arrayIndex (Finite (inject_Z z)) = if decide (0 <= z) then Some (Z.to_nat z) else None.
Proof.
  unfold JsNumber.arrayIndex.
  rewrite (Qcanon.Qred_identity (inject_Z z)) by apply Z.gcd_1_r.
  simpl. rewrite andb_true_r.
  destruct (decide (0 <= z)) as [Hz|Hz].
  - by rewrite (proj2 (Z.leb_le 0 z)).
  - by rewrite (proj2 (Z.leb_gt 0 z)) by lia.
Qed.

(** X21. At every point of the life of a System, whatever attributes
    were requested and whatever passes ran, returned or thrown, both state
    arrays have twelve slots that hold members of VertexAttribState. A
    request checks only that its id is below the length of the arrays: it
    throws exactly when the id is not below 12 (an integer of 12 or more,
    NaN, infinity), and then leaves the System as it was; for one of the
    integers 0 to 11 it sets the requested state of that slot and nothing
    else; for every other id below 12, the negative integers and one half
    among them, it returns without throwing and changes no slot. *)
Theorem vertexStates_invariant (capabilities : Capabilities.t) (w : World)
    (calls : list VertexCall) :
  let this : System := fold_left performVertex calls (System.new capabilities w).1 in
  let failure : Outcome unit :=
    Throws (AssertionFailed "if you add new vertex attributes you must update array length") in
  vertexStates_wf this
  ∧ (forall id instanced,
       if JsNumber.ltLength id 12
       then System.enableVertexAttribArray id instanced this =
              (Returns tt,
               match JsNumber.arrayIndex id with
               | Some index =>
                   System.with_next
                     (<[index := if instanced then VertexAttribState.InstancedEnabled
                                 else VertexAttribState.Enabled]>
                        (System._nextVertexAttribStates this)) this
               | None => this
               end)
       else System.enableVertexAttribArray id instanced this = (failure, this))
  ∧ (forall (z : Z) instanced,
       (12 <= z ->
          System.enableVertexAttribArray (Finite (inject_Z z)) instanced this = (failure, this))
       ∧ (0 <= z < 12 ->
            System.enableVertexAttribArray (Finite (inject_Z z)) instanced this =
              (Returns tt,
               System.with_next
                 (<[Z.to_nat z := if instanced then VertexAttribState.InstancedEnabled
                                  else VertexAttribState.Enabled]>
                    (System._nextVertexAttribStates this)) this))
       ∧ (z < 0 ->
            System.enableVertexAttribArray (Finite (inject_Z z)) instanced this =
              (Returns tt, this)))
  ∧ (forall instanced,
       System.enableVertexAttribArray (Finite (1 # 2)) instanced this = (Returns tt, this)
       ∧ System.enableVertexAttribArray NegInfinity instanced this = (Returns tt, this)
       ∧ System.enableVertexAttribArray PosInfinity instanced this = (failure, this)
       ∧ System.enableVertexAttribArray NaN instanced this = (failure, this)).
Proof.
  intros this failure.
  assert (Hwf : vertexStates_wf this).
  { subst this.
    assert (Hstart : vertexStates_wf (System.new (SymbValue := SymbValue) capabilities w).1).
    { unfold vertexStates_wf. simpl. repeat split; try reflexivity;
        repeat constructor; unfold validState; set_solver. }
    revert Hstart. generalize (System.new (SymbValue := SymbValue) capabilities w).1.
    induction calls as [|c calls IH]; intros s Hs; [exact Hs|].
    cbn [fold_left]. apply IH. by apply performVertex_wf. }
  split; [exact Hwf|]. destruct Hwf as (Hc & Hn & _).
  assert (Hrequest : forall id instanced,
    System.enableVertexAttribArray id instanced this =
      if JsNumber.ltLength id 12
      then (Returns tt,
            match JsNumber.arrayIndex id with
            | Some index =>
                System.with_next
                  (<[index := if instanced then VertexAttribState.InstancedEnabled
                              else VertexAttribState.Enabled]>
                     (System._nextVertexAttribStates this)) this
            | None => this
            end)
      else (failure, this)).
  { intros id instanced. unfold System.enableVertexAttribArray. rewrite Hc, Hn.
    by destruct (JsNumber.ltLength id 12). }
  split; [|split].
  - intros id instanced. rewrite Hrequest. by destruct (JsNumber.ltLength id 12).
  - intros z instanced. rewrite Hrequest, ltLength_integer, arrayIndex_integer.
    split; [|split]; intros Hz.
    + by rewrite bool_decide_eq_false_2 by lia.
    + rewrite bool_decide_eq_true_2 by lia. by rewrite decide_True by lia.
    + rewrite bool_decide_eq_true_2 by lia. by rewrite decide_False by lia.
  - intros instanced. rewrite !Hrequest. by repeat split.
Qed.

End VertexAttribInvariant.

Lemma updateVertexAttribArrays_without_instancing_witness :
  exists this',
    System.updateVertexAttribArrays bare_draw = (Throws (AssertionFailed ""), this')
    ∧ System._curVertexAttribStates this' !! 1%nat = Some VertexAttribState.Disabled
    ∧ System._nextVertexAttribStates this' !! 1%nat = Some VertexAttribState.InstancedEnabled
    ∧ System.context this' = [GL.enableVertexAttribArray 1].
Proof.
  destruct (updateVertexAttribArrays_without_instancing bare_draw eq_refl eq_refl)
    as (_ & _ & Hthrows).
  destruct (Hthrows 1%nat VertexAttribState.Disabled VertexAttribState.InstancedEnabled
              eq_refl eq_refl eq_refl) as (this' & Hrun & Hcur & Hnext).
  { intros j Hj. assert (j = 0%nat) as -> by lia. reflexivity. }
  exists this'. split; [exact Hrun|]. split; [exact Hcur|]. split; [exact Hnext|].
  assert (Hctx : System.context (System.updateVertexAttribArrays bare_draw).2
                 = [GL.enableVertexAttribArray 1]) by (vm_compute; reflexivity).
  by rewrite Hrun in Hctx.
Defined.

Lemma updateVertexAttribArrays_lifecycle_witness :
  exists this2 this3,
    System.updateVertexAttribArrays (System.updateVertexAttribArrays example_draw).2
      = (Returns tt, this2)
    ∧ System.updateVertexAttribArrays this2 = (Returns tt, this3)
    ∧ System.context this3 = System.context this2.
Proof.
  assert (Hrun : System.updateVertexAttribArrays example_draw
                 = (Returns tt, (System.updateVertexAttribArrays example_draw).2))
    by (vm_compute; reflexivity).
  assert (Hlen : length (System._curVertexAttribStates example_draw)
                 = length (System._nextVertexAttribStates example_draw))
    by (vm_compute; reflexivity).
  destruct (updateVertexAttribArrays_lifecycle example_draw
              (System.updateVertexAttribArrays example_draw).2 Hlen Hrun)
    as (this2 & this3 & issued & Hrun2 & _ & _ & _ & Hrun3 & Hctx & _).
  exists this2, this3.
  split; [exact Hrun2|]. split; [exact Hrun3|exact Hctx].
Defined.

(** ** The facets of a sheet tile *)

Section SheetTileCount.
Variable geo : GeometryCore.
Variables (sheetTileOrigin : Point3d) (sheetTileScale : JsNumber).



End SheetTileCount.



(** ** The texture statistics *)

Section TextureStatsInvariant.
Variables width height : TextureHandle -> Z.

Local Abbreviation size := (fun tex : TextureHandle => width tex * height tex).

Lemma fold_max_spec (entries : list TextureHandle) :
  forall start,
    let result :=
      fold_left (fun maxSize entry => Z.max maxSize (width entry * height entry))
        entries start in
    start <= result
    ∧ (forall tex, tex ∈ entries -> size tex <= result)
    ∧ (result = start ∨ exists tex, tex ∈ entries ∧ size tex = result).
Proof.
  induction entries as [|entry entries IH]; intros start; cbn [fold_left].
  - split; [lia|]. split; [|by left]. intros tex Hin. by apply elem_of_nil in Hin.
  - destruct (IH (Z.max start (width entry * height entry))) as (Hge & Hall & Hattained).
    cbv zeta. split; [lia|]. split.
    + intros tex [->|Hin]%elem_of_cons; [lia|by apply Hall].
    + destruct Hattained as [Heq|(tex & Hin & Htex)].
      * destruct (Z.max_spec start (width entry * height entry)) as [[_ Hmax]|[_ Hmax]].
        -- right. exists entry. split; [by left|]. lia.
        -- left. lia.
      * right. exists tex. split; [by right|done].
Qed.

Lemma has_true (this : TextureStats.t) (tex : TextureHandle) :
  TextureStats.has this tex = true <-> tex ∈ TextureStats._allocated this.
Proof. unfold TextureStats.has. apply bool_decide_eq_true. Qed.

Lemma notify_wf (this : TextureStats.t) (c : MonitorCall) :
  maxSize_wf width height this -> maxSize_wf width height (notify width height this c).
Proof.
  intros (Hnodup & Hpos & Hall & Hattained). destruct c as [tex|tex]; cbn [notify].
  - unfold TextureStats.onTextureCreated.
    destruct (TextureStats.has this tex) eqn:Hhas; cbn [negb assert snd]; [done|].
    assert (Hnew : tex ∉ TextureStats._allocated this).
    { intros Hin. apply has_true in Hin. congruence. }
    unfold maxSize_wf. cbn [TextureStats._allocated TextureStats._maxSize].
    split; [|split; [lia|split]].
    + apply NoDup_app. split; [done|]. split; [|apply NoDup_singleton].
      intros x Hx ->%list_elem_of_singleton. done.
    + intros x [Hx| ->%list_elem_of_singleton]%elem_of_app; [|lia].
      specialize (Hall x Hx). simpl in Hall. lia.
    + destruct (Z.max_spec (width tex * height tex) (TextureStats._maxSize this))
        as [[Hlt Hmax]|[Hge Hmax]]; rewrite Hmax.
      * destruct Hattained as [Hzero|(x & Hx & Hsize)]; [lia|].
        right. exists x. split; [apply elem_of_app; by left|done].
      * right. exists tex. split; [|done]. apply elem_of_app. right. by left.
  - unfold TextureStats.onTextureDisposed.
    destruct (TextureStats.has this tex) eqn:Hhas; cbn [assert snd]; [|done].
    assert (Hkept : forall x,
      x ∈ List.filter (fun entry => negb (bool_decide (entry = tex)))
            (TextureStats._allocated this)
      <-> x ∈ TextureStats._allocated this ∧ x ≠ tex).
    { intros x. rewrite !list_elem_of_In, List.filter_In, negb_true_iff,
        bool_decide_eq_false. done. }
    assert (Hnodup' : NoDup (List.filter (fun entry => negb (bool_decide (entry = tex)))
                               (TextureStats._allocated this))).
    { apply NoDup_ListNoDup, List.NoDup_filter, NoDup_ListNoDup, Hnodup. }
    destruct (width tex * height tex <? TextureStats._maxSize this) eqn:Hsmaller;
      cbn [snd]; unfold maxSize_wf; cbn [TextureStats._allocated TextureStats._maxSize].
    + apply Z.ltb_lt in Hsmaller. split; [done|]. split; [done|]. split.
      * intros x [Hx _]%Hkept. by apply Hall.
      * destruct Hattained as [Hzero|(x & Hx & Hsize)]; [by left|].
        right. exists x. split; [|done]. apply Hkept. split; [done|].
        intros ->. simpl in Hsize. lia.
    + destruct (fold_max_spec
                  (List.filter (fun entry => negb (bool_decide (entry = tex)))
                     (TextureStats._allocated this)) 0) as (Hge & Hall' & Hattained').
      cbv zeta in *. split; [done|]. split; [done|]. split; [done|].
      destruct Hattained' as [Hzero|Hsome]; [by left|by right].
Qed.

(** X23. Whatever the monitor is told, in whatever order, and whether or
    not its assertions hold, [_maxSize] is the largest size among the
    textures now allocated (0 where none has a positive size), no texture is
    allocated twice, and a notification throws exactly when it reports a
    texture as created that is allocated, or as disposed that is not; the
    statistics are then as before. *)
Theorem TextureStats_maxSize (calls : list MonitorCall) :
  let this := fold_left (notify width height) calls TextureStats.new in
  maxSize_wf width height this
  ∧ forall tex,
      (tex ∈ TextureStats._allocated this ->
         TextureStats.onTextureCreated width height tex this = (Throws (AssertionFailed ""), this)
         ∧ exists this',
             TextureStats.onTextureDisposed width height tex this = (Returns tt, this')
             ∧ forall x, x ∈ TextureStats._allocated this' <->
                 x ∈ TextureStats._allocated this ∧ x ≠ tex)
      ∧ (tex ∉ TextureStats._allocated this ->
         TextureStats.onTextureDisposed width height tex this = (Throws (AssertionFailed ""), this)
         ∧ exists this',
             TextureStats.onTextureCreated width height tex this = (Returns tt, this')
             ∧ TextureStats._allocated this' = TextureStats._allocated this ++ [tex]).
Proof.
  intros this. split.
  - subst this.
    assert (Hstart : maxSize_wf width height TextureStats.new).
    { unfold maxSize_wf. simpl. split; [constructor|]. split; [done|]. split; [|by left].
      intros tex Hin. by apply elem_of_nil in Hin. }
    revert Hstart. generalize TextureStats.new.
    induction calls as [|c calls IH]; intros s Hs; [exact Hs|].
    cbn [fold_left]. apply IH. by apply notify_wf.
  - intros tex. split; intros Hin.
    + apply has_true in Hin.
      unfold TextureStats.onTextureCreated, TextureStats.onTextureDisposed.
      rewrite Hin. cbn [negb assert]. split; [done|].
      destruct (width tex * height tex <? TextureStats._maxSize this);
        eexists; (split; [reflexivity|]); intros x;
        cbn [TextureStats._allocated];
        rewrite !list_elem_of_In, List.filter_In, negb_true_iff, bool_decide_eq_false; done.
    + assert (Hhas : TextureStats.has this tex = false).
      { destruct (TextureStats.has this tex) eqn:Hhas; [|done]. by apply has_true in Hhas. }
      unfold TextureStats.onTextureCreated, TextureStats.onTextureDisposed.
      rewrite Hhas. cbn [negb assert]. split; [done|]. by eexists.
Qed.

End TextureStatsInvariant.
